(** * tilenol: configuration compiler and event loop

    A shallow embedding of [tilenol/config.py] (class [Config]) and
    [tilenol/main.py] (class [Tilenol]).

    Python values read from the JSON/YAML configuration are the trees of
    [pyval]; dictionaries keep their insertion order, as Python's do, and are
    association lists without duplicate keys.  A call that can raise returns a
    [result]; code that also writes to the module logger threads the list of
    log records ([M]).  Generators ([Config.rules], [Config.bars]) are run to
    their end: the values they yield, and the exception that stopped them, if
    any. *)

From Stdlib Require Import String Ascii List ZArith Bool Arith Lia.
Import ListNotations.

Set Warnings "-register-all".

Local Open Scope string_scope.
Local Open Scope list_scope.

(** ** Python values, exceptions and the built-ins the code uses *)

Module Py.

Inductive pyval : Type :=
| PNone
| PBool (b : bool)
| PInt (z : Z)
| PStr (s : string)
| PList (l : list pyval)
| PDict (d : list (pyval * pyval))
| PClass (n : string)          (* a class object, known by its name *)
| PObj (n : string).           (* any other opaque object: a function, a module *)

Definition dict := list (pyval * pyval).

(** The argument of the two [NotImplementedError]s of [Config.rules]. *)
Inductive nie_arg : Type :=
| UnknownKey (k : pyval)         (* NotImplementedError(k) *)
| EmptyActions (rule : pyval).   (* NotImplementedError("Empty actions {!r}".format(rule)) *)

Inductive exn : Type :=
| ImportError
| AttributeError
| ValueError
| TypeError
| KeyError
| UnboundLocalError
| NotImplementedError (a : nie_arg)
| OtherException (n : string)    (* any other subclass of Exception *)
| BaseOnly (n : string).         (* KeyboardInterrupt, SystemExit, GeneratorExit *)

(** [isinstance(e, Exception)]: what [except Exception] catches. *)
Definition is_Exception (e : exn) : bool :=
  match e with
  | BaseOnly _ => false
  | _ => true
  end.

Inductive result (A : Type) : Type :=
| Ok (a : A)
| Raise (e : exn).
Arguments Ok {A} a.
Arguments Raise {A} e.

Definition rbind {A B} (r : result A) (k : A -> result B) : result B :=
  match r with
  | Ok a => k a
  | Raise e => Raise e
  end.

(** Records written to the module logger [log]. *)
Inductive log_entry (A : Type) : Type :=
| Warning (fmt : string) (args : list A)                  (* log.warning(fmt, *args) *)
| LoggedException (fmt : string) (args : list A) (e : exn). (* log.exception(fmt, *args) *)
Arguments Warning {A} fmt args.
Arguments LoggedException {A} fmt args e.

Definition logs := list (log_entry pyval).

(** Code that logs and may raise: the records written so far go in, the
    outcome and the records written come out (they stay written when the
    code raises). *)
Definition M (A : Type) : Type := logs -> result A * logs.

Definition ret {A} (a : A) : M A := fun l => (Ok a, l).
Definition raise {A} (e : exn) : M A := fun l => (Raise e, l).
Definition bind {A B} (m : M A) (k : A -> M B) : M B :=
  fun l => match m l with
           | (Ok a, l') => k a l'
           | (Raise e, l') => (Raise e, l')
           end.
Definition lift {A} (r : result A) : M A := fun l => (r, l).
Definition log_warning (fmt : string) (args : list pyval) : M unit :=
  fun l => (Ok tt, l ++ [Warning fmt args]).

(** *** Truth value, equality of keys *)

Definition truthy (v : pyval) : bool :=
  match v with
  | PNone => false
  | PBool b => b
  | PInt z => negb (Z.eqb z 0)
  | PStr s => negb (String.eqb s EmptyString)
  | PList l => match l with [] => false | _ => true end
  | PDict d => match d with [] => false | _ => true end
  | PClass _ | PObj _ => true
  end.

Definition hashable (v : pyval) : bool :=
  match v with
  | PList _ | PDict _ => false
  | _ => true
  end.

Definition num_of (v : pyval) : Z :=
  match v with
  | PBool true => 1
  | PInt z => z
  | _ => 0
  end.

(** [a == b] on hashable values ([True == 1] and [False == 0] in Python). *)
Definition key_eqb (a b : pyval) : bool :=
  match a, b with
  | PNone, PNone => true
  | PStr s, PStr t => String.eqb s t
  | PClass s, PClass t => String.eqb s t
  | PObj s, PObj t => String.eqb s t
  | (PBool _ | PInt _), (PBool _ | PInt _) => Z.eqb (num_of a) (num_of b)
  | _, _ => false
  end.

(** *** Dictionaries (insertion ordered) *)

Fixpoint dict_get (k : pyval) (d : dict) : option pyval :=
  match d with
  | [] => None
  | (k', v) :: d' => if key_eqb k k' then Some v else dict_get k d'
  end.

Definition dict_mem (k : pyval) (d : dict) : bool :=
  match dict_get k d with Some _ => true | None => false end.

(** [d[k] = v]: an existing key keeps its place, a new one goes last. *)
Fixpoint dict_set (k v : pyval) (d : dict) : dict :=
  match d with
  | [] => [(k, v)]
  | (k', v') :: d' =>
      if key_eqb k k' then (k', v) :: d' else (k', v') :: dict_set k v d'
  end.

Fixpoint dict_del (k : pyval) (d : dict) : dict :=
  match d with
  | [] => []
  | (k', v') :: d' => if key_eqb k k' then d' else (k', v') :: dict_del k d'
  end.

(** [d.pop(k, default)] *)
Definition dict_pop (k default : pyval) (d : dict) : pyval * dict :=
  match dict_get k d with
  | Some v => (v, dict_del k d)
  | None => (default, d)
  end.

(** [d.get(k, default)] *)
Definition dict_get_default (k default : pyval) (d : dict) : pyval :=
  match dict_get k d with
  | Some v => v
  | None => default
  end.

(** [d.update(d2)] for a mapping [d2] *)
Definition dict_merge (d d2 : dict) : dict :=
  fold_left (fun acc kv => dict_set (fst kv) (snd kv) acc) d2 d.

(** *** Iteration and unpacking *)

(** A string is held as the bytes of its UTF-8 encoding, and Python
    iterates its characters: [char_width c] is the number of bytes that
    follow the byte [c] in the encoding of a character, [is_continuation]
    tells such a byte, and [chars_from] cuts the bytes into characters,
    with [cur] the bytes of the character under way and [need] the number
    of bytes it still lacks. *)
Definition char_width (c : ascii) : nat :=
  let n := nat_of_ascii c in
  if Nat.ltb n 192 then 0
  else if Nat.ltb n 224 then 1
  else if Nat.ltb n 240 then 2
  else 3.

Definition is_continuation (c : ascii) : bool :=
  (Nat.leb 128 (nat_of_ascii c) && Nat.ltb (nat_of_ascii c) 192)%bool.

Definition emit (cur : string) : list pyval :=
  match cur with
  | EmptyString => []
  | _ => [PStr cur]
  end.

Fixpoint chars_from (s : string) (cur : string) (need : nat) : list pyval :=
  match s with
  | EmptyString => emit cur
  | String c s' =>
      if match need with
         | O => false
         | S _ => is_continuation c
         end
      then chars_from s' (cur ++ String c EmptyString) (Nat.pred need)
      else emit cur ++ chars_from s' (String c EmptyString) (char_width c)
  end.

(** The characters of a string, each a string of one character *)
Definition chars (s : string) : list pyval := chars_from s EmptyString 0.

(** [iter(v)]: a list gives its items, a dict its keys, a string its
    characters; nothing else in a configuration tree is iterable. *)
Definition py_iter (v : pyval) : result (list pyval) :=
  match v with
  | PList l => Ok l
  | PDict d => Ok (map fst d)
  | PStr s => Ok (chars s)
  | _ => Raise TypeError
  end.

(** [a, b = v] *)
Definition unpack2 (v : pyval) : result (pyval * pyval) :=
  match py_iter v with
  | Ok [a; b] => Ok (a, b)
  | Ok _ => Raise ValueError
  | Raise e => Raise e
  end.

(** [d.update(v)] for any [v]: a mapping is merged, another iterable has to
    give pairs. *)
Fixpoint dict_update_pairs (d : dict) (l : list pyval) : result dict :=
  match l with
  | [] => Ok d
  | x :: l' =>
      match unpack2 x with
      | Ok (k, v) =>
          if hashable k then dict_update_pairs (dict_set k v d) l'
          else Raise TypeError
      | Raise e => Raise e
      end
  end.

Definition dict_update (d : dict) (v : pyval) : result dict :=
  match v with
  | PDict d2 => Ok (dict_merge d d2)
  | _ => rbind (py_iter v) (dict_update_pairs d)
  end.

(** *** Strings *)

Fixpoint is_substring (needle s : string) : bool :=
  String.prefix needle s ||
  match s with
  | EmptyString => false
  | String _ s' => is_substring needle s'
  end.

(** [needle in v] for a string [needle] *)
Definition py_contains (needle : string) (v : pyval) : result bool :=
  match v with
  | PStr s => Ok (is_substring needle s)
  | PList l => Ok (existsb (key_eqb (PStr needle)) l)
  | PDict d => Ok (dict_mem (PStr needle) d)
  | _ => Raise TypeError
  end.

(** [s.split(sep)] for a one-character separator *)
Fixpoint split_on (sep : ascii) (s : string) : list string :=
  match s with
  | EmptyString => [EmptyString]
  | String c s' =>
      if Ascii.eqb c sep then EmptyString :: split_on sep s'
      else match split_on sep s' with
           | [] => [String c EmptyString]
           | w :: ws => String c w :: ws
           end
  end.

(** [s.split(sep, 1)]: cut at the first separator, if there is one *)
Fixpoint split_first (sep : ascii) (s : string) : option (string * string) :=
  match s with
  | EmptyString => None
  | String c s' =>
      if Ascii.eqb c sep then Some (EmptyString, s')
      else match split_first sep s' with
           | Some (a, b) => Some (String c a, b)
           | None => None
           end
  end.

(** Lookup in a table with string keys (a module's attributes, a registry) *)
Fixpoint assoc {A} (name : string) (t : list (string * A)) : option A :=
  match t with
  | [] => None
  | (n, v) :: t' => if String.eqb name n then Some v else assoc name t'
  end.

(** [v[key]] for a string key *)
Definition py_getitem (v : pyval) (key : string) : result pyval :=
  match v with
  | PDict d => match dict_get (PStr key) d with
               | Some x => Ok x
               | None => Raise KeyError
               end
  | _ => Raise TypeError
  end.

(** *** [shlex.split(s)]

    The POSIX mode tokenizer of the standard library, as [shlex.split] sets
    it up: white space separates, no comment characters, single and double
    quotes, backslash escapes, and inside double quotes a backslash only
    escapes a backslash or a double quote. *)

Inductive lex_state : Type :=
| LSpace                          (* state ' ' : between tokens *)
| LWord                           (* state 'a' : inside a token *)
| LQuote (q : ascii)              (* state q : inside quotes *)
| LEscape (back : option ascii).  (* after a backslash; [back] is the quote left, if any *)

Definition is_whitespace (c : ascii) : bool :=
  (Ascii.eqb c " " || Ascii.eqb c "009" || Ascii.eqb c "013" || Ascii.eqb c "010")%bool.

Definition dquote : ascii := "034".

Definition is_quote (c : ascii) : bool :=
  (Ascii.eqb c "'" || Ascii.eqb c dquote)%bool.

Definition is_escape (c : ascii) : bool := Ascii.eqb c "\".

Definition snoc (tok : string) (c : ascii) : string :=
  tok ++ String c EmptyString.

Fixpoint shlex_tokens (s : string) (st : lex_state) (tok : string)
  (quoted : bool) (out : list string) : result (list string) :=
  match s with
  | EmptyString =>
      match st with
      | LQuote _ => Raise ValueError        (* No closing quotation *)
      | LEscape _ => Raise ValueError       (* No escaped character *)
      | LSpace | LWord =>
          if (negb (String.eqb tok EmptyString) || quoted)%bool then Ok (out ++ [tok])
          else Ok out
      end
  | String c s' =>
      match st with
      | LSpace =>
          if is_whitespace c then shlex_tokens s' LSpace tok quoted out
          else if is_escape c then shlex_tokens s' (LEscape None) tok quoted out
          else if is_quote c then shlex_tokens s' (LQuote c) tok quoted out
          else shlex_tokens s' LWord (String c EmptyString) quoted out
      | LQuote q =>
          if Ascii.eqb c q then shlex_tokens s' LWord tok true out
          else if (is_escape c && Ascii.eqb q dquote)%bool
               then shlex_tokens s' (LEscape (Some q)) tok true out
          else shlex_tokens s' (LQuote q) (snoc tok c) true out
      | LEscape back =>
          match back with
          | Some q =>
              let tok' := if (negb (is_escape c) && negb (Ascii.eqb c q))%bool
                          then snoc tok "\" else tok in
              shlex_tokens s' (LQuote q) (snoc tok' c) quoted out
          | None => shlex_tokens s' LWord (snoc tok c) quoted out
          end
      | LWord =>
          if is_whitespace c then
            if (negb (String.eqb tok EmptyString) || quoted)%bool
            then shlex_tokens s' LSpace EmptyString false (out ++ [tok])
            else shlex_tokens s' LSpace tok quoted out
          else if is_quote c then shlex_tokens s' (LQuote c) tok quoted out
          else if is_escape c then shlex_tokens s' (LEscape None) tok quoted out
          else shlex_tokens s' LWord (snoc tok c) quoted out
      end
  end.

Definition shlex_split (s : string) : result (list string) :=
  shlex_tokens s LSpace EmptyString false [].

End Py.

(** ** The extension namespace: search path and class lookup *)

Module Extensions.
Import Py.

(** [os.path.join(a, b)] on POSIX *)
Definition ends_with_sep (s : string) : bool :=
  match String.length s with
  | O => false
  | S n => match String.get n s with
           | Some c => Ascii.eqb c "/"
           | None => false
           end
  end.

Definition path_join (a b : string) : string :=
  if String.prefix "/" b then b
  else if (String.eqb a EmptyString || ends_with_sep a)%bool then a ++ b
  else a ++ "/" ++ b.

(** [os.path.join(path, 'tilenol', 'ext')] *)
Definition ext_dir (path : string) : string :=
  path_join (path_join path "tilenol") "ext".

Definition site_extensions : string := "/usr/share/tilenol/site-extensions".

Fixpoint insert_at {A} (i : nat) (x : A) (l : list A) : list A :=
  match i, l with
  | O, _ => x :: l
  | S _, [] => [x]
  | S i', y :: l' => y :: insert_at i' x l'
  end.

(** [l.insert(i, x)]: a negative index counts from the end, and an index
    outside the list is clipped to its ends. *)
Definition list_insert {A} (i : Z) (x : A) (l : list A) : list A :=
  let n := Z.of_nat (List.length l) in
  let w := if (i <? 0)%Z then Z.max 0 (i + n) else Z.min i n in
  insert_at (Z.to_nat w) x l.

(** The loop [for i, path in enumerate(self.config.dirs)] from index [i] on *)
Fixpoint seed_config_dirs (i : Z) (dirs : list string) (path : list string)
  : list string :=
  match dirs with
  | [] => path
  | d :: ds => seed_config_dirs (i + 1) ds (list_insert i (ext_dir d) path)
  end.

(** [Config.init_extensions], on [self.config.dirs] and [ext.__path__] *)
Definition init_extensions (dirs : list string) (path : list string)
  : list string :=
  list_insert (-1) site_extensions (seed_config_dirs 0 dirs path).

(** A module is the table of its attributes. *)
Definition module := list (string * pyval).

Fixpoint getattr (m : module) (name : string) : option pyval :=
  match m with
  | [] => None
  | (n, v) :: m' => if String.eqb name n then Some v else getattr m' name
  end.

(** What [get_extension_class] finds around it:
    - [ext_import n] is [__import__('tilenol.ext.' + n, globals(), {}, ['*'])]:
      the module, or the exception that loading it raises ([ImportError]
      when there is no such module, anything else when the module is
      there and broken);
    - [none_attrs] are the attributes of Python's [None], which [getattr]
      sees when the module could not be imported;
    - [issubclass_of c b] is [issubclass(c, b)] on classes. *)
Record ext_env : Type := {
  ext_import : string -> result module;
  none_attrs : module;
  issubclass_of : string -> string -> bool
}.

(** [try: mod = __import__(...) except ImportError: mod = None]: the
    attributes [getattr(mod, ...)] will see; any other exception goes
    on. *)
Definition first_import (env : ext_env) (module_name : string)
  : result module :=
  match ext_import env module_name with
  | Ok m => Ok m
  | Raise ImportError => Ok (none_attrs env)
  | Raise e => Raise e
  end.

(** What [except (ImportError, AttributeError, ValueError)] catches *)
Definition import_caught (e : exn) : bool :=
  match e with
  | ImportError | AttributeError | ValueError => true
  | _ => false
  end.

(** The attribute lookups of [get_extension_class] and how they end. *)
Inductive lookup_outcome : Type :=
| Found (res : pyval)
| Unavailable      (* dotted name: the except clause, which logs *)
| Missing          (* plain name in neither module: the inner except clause *)
| Escapes (e : exn).  (* an exception of an import that no clause catches *)

Definition locate (env : ext_env) (name module_name : string)
  (default_module : module) : lookup_outcome :=
  match first_import env module_name with
  | Raise e => Escapes e
  | Ok mod_ =>
      match split_first "." name with
      | Some (module, cname) =>                (* '.' in name *)
          match ext_import env module with
          | Ok m => match getattr m cname with
                    | Some res => Found res
                    | None => Unavailable
                    end
          | Raise e => if import_caught e then Unavailable else Escapes e
          end
      | None =>
          match getattr mod_ name with
          | Some res => Found res
          | None => match getattr default_module name with
                    | Some res => Found res
                    | None => Missing
                    end
          end
      end
  end.

(** [issubclass(res, base_class)] raises when [res] is no class. *)
Definition py_issubclass (env : ext_env) (res : pyval) (base_class : string)
  : result bool :=
  match res with
  | PClass c => Ok (issubclass_of env c base_class)
  | _ => Raise TypeError
  end.

Definition get_extension_class (env : ext_env) (name module_name : string)
  (default_module : module) (base_class : string) (default_value : pyval)
  : M pyval :=
  match locate env name module_name default_module with
  | Escapes e => raise e
  | Unavailable =>
      bind (log_warning "Class %r is not available" [PStr name])
           (fun _ => ret default_value)
  | Missing => ret default_value
  | Found res =>
      bind (lift (py_issubclass env res base_class)) (fun ok =>
      if ok then ret res
      else bind (log_warning "Class %s is subclassed from wrong class" [])
                (fun _ => ret default_value))
  end.

(** The two records [get_extension_class] writes to the log *)
Definition not_available (name : string) : log_entry pyval :=
  Warning "Class %r is not available" [PStr name].

Definition wrong_class : log_entry pyval :=
  Warning "Class %s is subclassed from wrong class" [].

End Extensions.

(** ** [Config.gestures] *)

Module Gestures.
Import Py.

(** [Config._command] *)
Definition _command (cmd : pyval) : result pyval :=
  match cmd with
  | PStr s => rbind (shlex_split s) (fun ws => Ok (PList (map PStr ws)))
  | _ => Ok cmd
  end.

(** The built-in settings of [gestures] *)
Definition default_settings : dict :=
  [ (PStr "detect-distance", PInt 50);
    (PStr "commit-distance", PInt 600);
    (PStr "char", PStr "▲") ].

Definition fingers : list string := ["2"; "3"; "4"; "5"].   (* range(2, 6) *)

(** ['{}f-{}'.format(fing, dir)] *)
Definition gesture_key (fing dir : string) : string := fing ++ "f-" ++ dir.

(** [directions] is the table [tilenol.gestures.directions]: the name of a
    direction and the predicate registered for it. *)
Definition supported_gestures (directions : list (string * pyval))
  : list string :=
  flat_map (fun fing => map (fun d => gesture_key fing (fst d)) directions)
           fingers.

Definition is_supported (directions : list (string * pyval)) (k : pyval)
  : bool :=
  match k with
  | PStr s => existsb (String.eqb s) (supported_gestures directions)
  | _ => false
  end.

(** [f, dir = k.split('-')] *)
Definition split_gesture (k : pyval) : result (string * string) :=
  match k with
  | PStr s => match split_on "-" s with
              | [f; dir] => Ok (f, dir)
              | _ => Raise ValueError
              end
  | _ => Raise AttributeError
  end.

(** The body of [elif k in supported_gestures:], up to [res[k] = val] *)
Definition gesture_record (directions : list (string * pyval))
  (settings : dict) (k v : pyval) : result dict :=
  rbind (split_gesture k) (fun fd =>
  let val := dict_merge [] settings in
  rbind (py_contains "action" v) (fun has_action =>
  rbind (if has_action then Ok true else py_contains "=" v) (fun has_any =>
  rbind (if negb has_any then
           rbind (_command v) (fun a => Ok (dict_set (PStr "action") a val))
         else
           rbind (dict_update val v) (fun val1 =>
           rbind (py_contains "=" v) (fun has_eq =>
           if has_eq then
             rbind (py_getitem v "=") (fun x =>
             rbind (_command x) (fun a => Ok (dict_set (PStr "action") a val1)))
           else
             rbind (py_getitem (PDict val1) "action") (fun x =>
             rbind (_command x) (fun a => Ok (dict_set (PStr "action") a val1))))))
        (fun val2 =>
  match assoc (snd fd) directions with
  | Some p => Ok (dict_set (PStr "condition") p val2)
  | None => Raise KeyError
  end)))).

(** The loop [for k, v in gest.items()] *)
Fixpoint gestures_loop (directions : list (string * pyval)) (settings : dict)
  (items : dict) (res : dict) : M dict :=
  match items with
  | [] => ret res
  | (k, v) :: items' =>
      if key_eqb k (PStr "settings") then
        gestures_loop directions settings items' res
      else if is_supported directions k then
        bind (lift (gesture_record directions settings k v)) (fun val =>
        gestures_loop directions settings items' (dict_set k (PDict val) res))
      else
        bind (log_warning "Gesture %r is not supported" [k]) (fun _ =>
        gestures_loop directions settings items' res)
  end.

(** [Config.gestures]: [gest_file] is what
    [self.config.get_config('gestures', {})] returns and [data] is
    [self.data]. *)
Definition gestures (directions : list (string * pyval)) (gest_file : pyval)
  (data : dict) : M dict :=
  match gest_file with
  | PDict gest0 =>
      bind (lift (dict_update gest0
                    (dict_get_default (PStr "gestures") (PDict []) data)))
        (fun gest =>
      bind (match dict_get (PStr "settings") gest with
            | Some s => lift (dict_update default_settings s)
            | None => ret default_settings
            end) (fun settings =>
      gestures_loop directions settings gest []))
  | _ => raise AttributeError       (* no method [update] *)
  end.

(** The record the loop writes for a key it drops *)
Definition not_supported (kv : pyval * pyval) : log_entry pyval :=
  Warning "Gesture %r is not supported" [fst kv].

(** The keys the loop drops: those that are neither [settings] nor a
    supported gesture. *)
Definition is_dropped directions (kv : pyval * pyval) : bool :=
  (negb (key_eqb (fst kv) (PStr "settings"))
   && negb (is_supported directions (fst kv)))%bool.

End Gestures.

(** ** [Config.rules] *)

Module Rules.
Import Py.

(** A condition or an action built by calling [all_conditions[k]] or
    [all_actions[k]] with the positional arguments [args] and the keyword
    arguments [kw]: the classes live in [tilenol.classify], so an instance is
    the call that made it. *)
Record instance : Type := Instance {
  kind : string;
  args : list pyval;
  kw : list (string * pyval)
}.

(** A rule as [rules] yields it: [cls, cond, act] *)
Definition rule : Type := pyval * list instance * list instance.

(** [**kw] needs string keys. *)
Fixpoint keywords (d : dict) : result (list (string * pyval)) :=
  match d with
  | [] => Ok []
  | (PStr k, v) :: d' => rbind (keywords d') (fun r => Ok ((k, v) :: r))
  | _ => Raise TypeError
  end.

(** The [args] and [kw] derived from a value *)
Definition call_args (v : pyval) : result (list pyval * list (string * pyval)) :=
  match v with
  | PList l => Ok (l, [])
  | PDict d => rbind (keywords d) (fun k => Ok ([], k))
  | _ => Ok ([v], [])
  end.

Definition registered (registry : list string) (k : pyval) : option string :=
  match k with
  | PStr s => if existsb (String.eqb s) registry then Some s else None
  | _ => None
  end.

Section Compiler.

(** The kinds registered in [tilenol.classify] *)
Variable all_conditions : list string.
Variable all_actions : list string.

(** The loop [for k, v in rule.items()] *)
Fixpoint compile_items (items : dict) (cond act : list instance)
  : result (list instance * list instance) :=
  match items with
  | [] => Ok (cond, act)
  | (k, v) :: items' =>
      match registered all_conditions k with
      | Some c =>
          rbind (call_args v) (fun a =>
          compile_items items' (cond ++ [Instance c (fst a) (snd a)]) act)
      | None =>
          match registered all_actions k with
          | Some c =>
              rbind (call_args v) (fun a =>
              compile_items items' cond (act ++ [Instance c (fst a) (snd a)]))
          | None => Raise (NotImplementedError (UnknownKey k))
          end
      end
  end.

(** The body of [for rule in rules], up to the [yield] *)
Definition compile_rule (r : pyval) : result (list instance * list instance) :=
  match r with
  | PDict items =>
      rbind (compile_items items [] []) (fun ca =>
      match snd ca with
      | [] => Raise (NotImplementedError (EmptyActions r))
      | _ => Ok ca
      end)
  | _ => Raise AttributeError        (* no method [items] *)
  end.

(** A generator run to its end: what it yielded, and the exception that
    stopped it, if one did. *)
Definition run (A : Type) : Type := list A * option exn.

Definition yield_then {A} (x : A) (r : run A) : run A := (x :: fst r, snd r).

Fixpoint compile_rules (cls : pyval) (rs : list pyval) : run rule :=
  match rs with
  | [] => ([], None)
  | r :: rs' =>
      match compile_rule r with
      | Ok ca => yield_then (cls, fst ca, snd ca) (compile_rules cls rs')
      | Raise e => ([], Some e)
      end
  end.

(** [if cls == 'global': cls = None] *)
Definition normalize_subject (cls : pyval) : pyval :=
  if key_eqb cls (PStr "global") then PNone else cls.

(** One turn of the outer loop, for the pair [cls, rules] *)
Definition compile_subject (cls rules : pyval) : run rule :=
  match py_iter rules with
  | Ok rs => compile_rules (normalize_subject cls) rs
  | Raise e => ([], Some e)
  end.

(** The outer loop over what [chain] gives; an item is unpacked by
    [for cls, rules in], which can raise. *)
Fixpoint compile_chain (items : list pyval) : run rule :=
  match items with
  | [] => ([], None)
  | x :: items' =>
      match unpack2 x with
      | Ok (cls, rules) =>
          match compile_subject cls rules with
          | (ys, None) => let r := compile_chain items' in (ys ++ fst r, snd r)
          | (ys, Some e) => (ys, Some e)
          end
      | Raise e => ([], Some e)
      end
  end.

(** [d.items()] as the pairs [chain] hands on *)
Definition items_of (d : dict) : list pyval :=
  map (fun kv => PList [fst kv; snd kv]) d.

(** [Config.rules]: [rules_file] is what
    [self.config.get_config('rules', {})] returns and [data] is [self.data].
    The first argument of [chain] is [.items()] of the former, the second is
    [self.data.get('rules', {})] itself. *)
Definition rules (rules_file : pyval) (data : dict) : run rule :=
  match rules_file with
  | PDict primary =>
      match py_iter (dict_get_default (PStr "rules") (PDict []) data) with
      | Ok second => compile_chain (items_of primary ++ second)
      | Raise e =>
          match compile_chain (items_of primary) with
          | (ys, None) => (ys, Some e)
          | r => r
          end
      end
  | _ => ([], Some AttributeError)   (* no method [items] *)
  end.

(** Notions the properties of [rules] are stated with. *)

(** A key that is no registered kind, and a key that makes an action (a
    key registered as both makes a condition). *)
Definition is_unknown (k : pyval) : bool :=
  match registered all_conditions k, registered all_actions k with
  | None, None => true
  | _, _ => false
  end.

Definition makes_action (k : pyval) : bool :=
  match registered all_conditions k, registered all_actions k with
  | None, Some _ => true
  | _, _ => false
  end.

(** A rule that has a key that is no registered kind, or has no key that
    makes an action. *)
Definition is_invalid (items : dict) : bool :=
  (existsb is_unknown (map fst items)
   || negb (existsb makes_action (map fst items)))%bool.

(** The items [chain] gives in [rules]: the pairs of the file's mapping,
    then what iterating [self.data.get('rules', {})] gives. *)
Definition chained (primary data : dict) : list pyval :=
  items_of primary
  ++ match py_iter (dict_get_default (PStr "rules") (PDict []) data) with
     | Ok second => second
     | Raise _ => []
     end.

End Compiler.

End Rules.

(** ** [Config.bars] *)

Module Bars.
Import Py Extensions.

(** A widget built by [wclass( **params )] and a bar built by
    [widgets.Bar(w, **binfo)]: the classes live in [tilenol.widgets], so an
    object is the call that made it. *)
Record widget : Type := Widget {
  widget_class : pyval;
  widget_params : list (string * pyval)
}.

Record bar : Type := Bar {
  bar_widgets : list widget;
  bar_options : list (string * pyval)
}.

(** [separator.match(typ)] for [separator = re.compile('^[-_]+$')]: one or
    more of [-] and [_], up to the end of the string or to a line feed that
    ends it. *)
Fixpoint separator_from (s : string) (seen : bool) : bool :=
  match s with
  | EmptyString => seen
  | String c s' =>
      if (Ascii.eqb c "-" || Ascii.eqb c "_")%bool then separator_from s' true
      else if (Ascii.eqb c "010" && String.eqb s' EmptyString)%bool then seen
      else false
  end.

Definition separator_match (s : string) : bool := separator_from s false.

(** The local variables [typ] and [params] of the generator; [None] while
    nothing has been assigned. *)
Record locals : Type := Locals {
  typ : option pyval;
  params : option pyval
}.

(** [if isinstance(winfo, dict): for typ, params in winfo.items(): break]
    [else: typ = winfo; params = {}] *)
Definition bind_winfo (winfo : pyval) (loc : locals) : locals :=
  match winfo with
  | PDict [] => loc
  | PDict ((t, p) :: _) => Locals (Some t) (Some p)
  | _ => Locals (Some winfo) (Some (PDict []))
  end.

(** [if separator.match(typ): typ = 'Sep'] *)
Definition normalize_typ (loc : locals) : result string :=
  match typ loc with
  | None => Raise UnboundLocalError
  | Some (PStr s) => Ok (if separator_match s then "Sep" else s)
  | Some _ => Raise TypeError
  end.

(** [params['right'] = True] *)
Definition set_right (p : option pyval) : result pyval :=
  match p with
  | None => Raise UnboundLocalError
  | Some (PDict d) => Ok (PDict (dict_set (PStr "right") (PBool true) d))
  | Some _ => Raise TypeError
  end.

(** [**params] *)
Definition keyword_args (p : option pyval) : result (list (string * pyval)) :=
  match p with
  | None => Raise UnboundLocalError
  | Some (PDict d) => Rules.keywords d
  | Some _ => Raise TypeError
  end.

(** [int(v)]; [int_of_string] is the built-in on strings, which raises
    [ValueError] where it is [None]. *)
Definition py_int (int_of_string : string -> option Z) (v : pyval) : result Z :=
  match v with
  | PInt z => Ok z
  | PBool b => Ok (if b then 1 else 0)%Z
  | PStr s => match int_of_string s with
              | Some z => Ok z
              | None => Raise ValueError
              end
  | _ => Raise TypeError
  end.

(** [reversed(v)] *)
Definition py_reversed (v : pyval) : result (list pyval) :=
  rbind (py_iter v) (fun l => Ok (rev l)).

Section Builder.

Variable env : ext_env.
(** The module [tilenol.widgets] and the name of the class
    [widgets.base.Widget] *)
Variable widgets : module.
Variable Widget_base : string.
Variable int_of_string : string -> option Z.

(** One turn of either loop over the widgets of a bar; [right] tells the
    loop over [binfo.pop('right', ())] from the one over
    [binfo.pop('left', ())]. *)
Definition add_widget (right : bool) (winfo : pyval)
  (st : locals * list widget) : M (locals * list widget) :=
  let loc1 := bind_winfo winfo (fst st) in
  bind (lift (normalize_typ loc1)) (fun t =>
  bind (if right then lift (set_right (params loc1))
        else ret match params loc1 with Some p => p | None => PNone end)
       (fun p =>
  let loc2 := Locals (Some (PStr t)) (if right then Some p else params loc1) in
  bind (get_extension_class env t "widgets" widgets Widget_base PNone)
       (fun wclass =>
  match wclass with
  | PNone => ret (loc2, snd st)
  | PClass _ =>
      bind (lift (keyword_args (params loc2))) (fun k =>
      ret (loc2, snd st ++ [Widget wclass k]))
  | _ => raise TypeError              (* not callable *)
  end))).

Fixpoint add_widgets (right : bool) (winfos : list pyval)
  (st : locals * list widget) : M (locals * list widget) :=
  match winfos with
  | [] => ret st
  | winfo :: winfos' =>
      bind (add_widget right winfo st) (add_widgets right winfos')
  end.

(** [binfo.pop(key, ())] on an item of [bars] *)
Definition pop_list (key : string) (binfo : dict) : pyval * dict :=
  dict_pop (PStr key) (PList []) binfo.

(** The body of [for binfo in bars], up to the [yield] *)
Definition build_bar (binfo : pyval) (loc : locals)
  : M (locals * (Z * bar)) :=
  match binfo with
  | PDict b0 =>
      let (right, b1) := pop_list "right" b0 in
      bind (lift (py_reversed right)) (fun rs =>
      bind (add_widgets true rs (loc, [])) (fun st1 =>
      let (left, b2) := pop_list "left" b1 in
      bind (lift (py_iter left)) (fun ls =>
      bind (add_widgets false ls st1) (fun st2 =>
      let (screen, b3) := dict_pop (PStr "screen") (PInt 0) b2 in
      bind (lift (py_int int_of_string screen)) (fun sno =>
      bind (lift (Rules.keywords b3)) (fun opts =>
      ret (fst st2, (sno, Bar (snd st2) opts))))))))
  | PList _ => raise TypeError        (* list.pop takes one argument *)
  | _ => raise AttributeError         (* no method [pop] *)
  end.

Fixpoint bars_loop (binfos : list pyval) (loc : locals) (l : logs)
  : Rules.run (Z * bar) * logs :=
  match binfos with
  | [] => (([], None), l)
  | binfo :: binfos' =>
      match build_bar binfo loc l with
      | (Ok (loc', y), l') =>
          let r := bars_loop binfos' loc' l' in
          (Rules.yield_then y (fst r), snd r)
      | (Raise e, l') => (([], Some e), l')
      end
  end.

(** [Config.bars]: [data] is [self.data] and [bars_file] is what
    [self.config.get_config('bars', {})] returns. *)
Definition bars (data : dict) (bars_file : pyval) (l : logs)
  : Rules.run (Z * bar) * logs :=
  let b := dict_get_default (PStr "bars") PNone data in
  let b' := if truthy b then b else bars_file in
  match py_iter b' with
  | Ok binfos => bars_loop binfos (Locals None None) l
  | Raise e => (([], Some e), l)
  end.

(** Notions the properties of [bars] are stated with. *)

Definition is_separator_char (c : ascii) : bool :=
  (Ascii.eqb c "-" || Ascii.eqb c "_")%bool.

Fixpoint all_separator_chars (s : string) : bool :=
  match s with
  | EmptyString => true
  | String c s' => (is_separator_char c && all_separator_chars s')%bool
  end.

(** A widget declaration in either of its forms, a type name or a mapping
    with the type name and the parameters *)
Definition declaration (winfo : pyval) : option (string * dict) :=
  match winfo with
  | PStr s => Some (s, [])
  | PDict ((PStr s, PDict p) :: _) => Some (s, p)
  | _ => None
  end.

Definition normalized (s : string) : string :=
  if separator_match s then "Sep" else s.

(** The resolver on a widget type, from an empty log *)
Definition resolve (t : string) : result pyval * logs :=
  get_extension_class env t "widgets" widgets Widget_base PNone [].

Definition final_params (right : bool) (p : dict) : dict :=
  if right then dict_set (PStr "right") (PBool true) p else p.

(** The widget a declaration gives, if its class resolves *)
Definition built (right : bool) (winfo : pyval) : list widget :=
  match declaration winfo with
  | Some (s, p) =>
      match fst (resolve (normalized s)),
            Rules.keywords (final_params right p) with
      | Ok (PClass c), Ok kw => [Widget (PClass c) kw]
      | _, _ => []
      end
  | None => []
  end.

(** The declaration is of one of the two forms, the resolver returns for
    its type, and if it returns a class the parameters have string keys. *)
Definition buildable (right : bool) (winfo : pyval) : bool :=
  match declaration winfo with
  | Some (s, p) =>
      match fst (resolve (normalized s)) with
      | Ok (PClass c) =>
          match Rules.keywords (final_params right p) with
          | Ok _ => true
          | Raise _ => false
          end
      | Ok PNone => true
      | _ => false
      end
  | None => false
  end.

(** What the resolver logs for a declaration *)
Definition resolver_log (winfo : pyval) : logs :=
  match declaration winfo with
  | Some (s, _) => snd (resolve (normalized s))
  | None => []
  end.

End Builder.

End Bars.

(** ** [Tilenol.catch_windows] and [Tilenol.loop] *)

Module Main.
Import Py.

Definition wid : Type := Z.

Inductive window_class : Type := CopyFromParent | InputOutput | InputOnly.
Inductive map_state : Type := Unmapped | Unviewable | Viewable.

(** The replies to [GetWindowAttributes] and [GetGeometry], as far as
    [catch_windows] reads them *)
Record attributes : Type := {
  class_ : window_class;
  attr_override_redirect : bool;
  attr_map_state : map_state
}.

Record geometry : Type := {
  x : Z; y : Z; width : Z; height : Z; border_width : Z
}.

(** The two events [catch_windows] makes up; the first field is the
    positional [0] of the constructor. *)
Inductive xevent : Type :=
| CreateNotify (seq : Z) (window parent : wid)
    (ev_x ev_y ev_width ev_height ev_border_width : Z)
    (override_redirect : bool)
| MapRequest (seq : Z) (parent window : wid).

Definition ev_window (ev : xevent) : wid :=
  match ev with
  | CreateNotify _ w _ _ _ _ _ _ _ => w
  | MapRequest _ _ w => w
  end.

Definition is_input_only (c : window_class) : bool :=
  match c with InputOnly => true | _ => false end.

Definition is_unmapped (m : map_state) : bool :=
  match m with Unmapped => true | _ => false end.

Section Discovery.

(** The event dispatcher ([tilenol.events.EventDispatcher]) is a state [D]
    with its two tables and its two handlers; a handler gives the new state
    and the exception it raised, if any. *)
Variable D : Type.
Variable all_windows : D -> wid -> bool.    (* w in self.dispatcher.all_windows *)
Variable windows : D -> wid -> bool.        (* w in self.dispatcher.windows *)
Variable handle_CreateNotifyEvent : xevent -> D -> D * option exn.
Variable handle_MapRequestEvent : xevent -> D -> D * option exn.

(** The X server *)
Variable root_window : wid.
Variable GetWindowAttributes : wid -> attributes.
Variable GetGeometry : wid -> geometry.

(** What a call leaves behind: the events handed to the dispatcher, in
    order, the dispatcher, and the exception that ended the call, if any. *)
Definition outcome : Type := list xevent * D * option exn.

Definition creation_event (w : wid) : xevent :=
  let geom := GetGeometry w in
  CreateNotify 0 w root_window (x geom) (y geom) (width geom) (height geom)
    (border_width geom) (attr_override_redirect (GetWindowAttributes w)).

Definition mapping_event (w : wid) : xevent := MapRequest 0 root_window w.

(** The body of the loop of [catch_windows] *)
Definition catch_window (w : wid) (d : D) : outcome :=
  if (Z.eqb w root_window || all_windows d w)%bool then ([], d, None)
  else
    let attr := GetWindowAttributes w in
    if is_input_only (class_ attr) then ([], d, None)
    else
      match handle_CreateNotifyEvent (creation_event w) d with
      | (d1, Some e) => ([creation_event w], d1, Some e)
      | (d1, None) =>
          if windows d1 w then          (* win = self.dispatcher.windows[w] *)
            if (negb (is_unmapped (attr_map_state attr))
                && negb (attr_override_redirect attr))%bool
            then
              let (d2, r) := handle_MapRequestEvent (mapping_event w) d1 in
              ([creation_event w; mapping_event w], d2, r)
            else ([creation_event w], d1, None)
          else ([creation_event w], d1, Some KeyError)
      end.

(** [Tilenol.catch_windows] on the children [QueryTree] reports *)
Fixpoint catch_windows (children : list wid) (d : D) : outcome :=
  match children with
  | [] => ([], d, None)
  | w :: ws =>
      match catch_window w d with
      | (evs, d1, None) =>
          match catch_windows ws d1 with
          | (evs', d2, r) => (evs ++ evs', d2, r)
          end
      | (evs, d1, Some e) => (evs, d1, Some e)
      end
  end.

(** Two notions the properties of [catch_windows] are stated with. *)

(** The window is mapped and not override-redirect. *)
Definition wants_mapping (w : wid) : bool :=
  (negb (is_unmapped (attr_map_state (GetWindowAttributes w)))
   && negb (attr_override_redirect (GetWindowAttributes w)))%bool.

(** In a sequence of events, every mapping event stands right after the
    creation event of its window, and its window wants mapping. *)
Definition creation_first (evs : list xevent) : Prop :=
  forall l1 l2 s p w,
    evs = l1 ++ MapRequest s p w :: l2 ->
    exists l0, l1 = l0 ++ [creation_event w]
               /\ MapRequest s p w = mapping_event w
               /\ wants_mapping w = true.

End Discovery.

Section EventLoop.

(** The protocol events [self.xcore.get_events()] gives, and the dispatcher
    with [dispatch] in the place of [self.dispatcher.dispatch]. *)
Variable event : Type.
Variable D : Type.
Variable dispatch : event -> D -> D * option exn.

(** The state the loop works on: the dispatcher, the records written to the
    logger, and the events handed to [dispatch] so far. *)
Record loop_state : Type := LoopState {
  dispatcher : D;
  log : list (log_entry event);
  dispatched : list event
}.

(** One turn of the loop: [try: dispatch(i)], and [log.exception] under
    [except Exception]; an exception that is no [Exception] leaves the
    loop. *)
Definition loop_step (i : event) (s : loop_state) : loop_state * option exn :=
  let (d', r) := dispatch i (dispatcher s) in
  match r with
  | None => (LoopState d' (log s) (dispatched s ++ [i]), None)
  | Some e =>
      if is_Exception e then
        (LoopState d'
           (log s ++ [LoggedException "Error handling event %r" [i] e])
           (dispatched s ++ [i]), None)
      else (LoopState d' (log s) (dispatched s ++ [i]), Some e)
  end.

(** [Tilenol.loop] on the events that arrive *)
Fixpoint loop (events : list event) (s : loop_state)
  : loop_state * option exn :=
  match events with
  | [] => (s, None)
  | i :: events' =>
      match loop_step i s with
      | (s', None) => loop events' s'
      | (s', Some e) => (s', Some e)
      end
  end.

End EventLoop.

Arguments LoopState {event D} _ _ _.
Arguments dispatcher {event D} _.
Arguments log {event D} _.
Arguments dispatched {event D} _.
Arguments loop_step {event D} dispatch i s.
Arguments loop {event D} dispatch events s.

End Main.

(** ** A concrete installation, for the examples below *)

Module Examples.
Import Py Extensions.

(** [tilenol.widgets]: two widget classes, the class [Bar], and the
    submodule [base]. *)
Definition widgets_module : module :=
  [ ("base", PObj "tilenol.widgets.base");
    ("Bar", PClass "Bar");
    ("Clock", PClass "Clock");
    ("Sep", PClass "Sep") ].

(** One extension module, [tilenol.ext.examples], with a layout in it. *)
Definition sample_env : ext_env := {|
  ext_import := fun n =>
    if String.eqb n "examples" then Ok [("Stack", PClass "Stack")]
    else Raise ImportError;
  none_attrs := [("__class__", PClass "NoneType"); ("__doc__", PNone)];
  issubclass_of := fun c b =>
    ((String.eqb b "Widget" && (String.eqb c "Clock" || String.eqb c "Sep"))
     || (String.eqb b "Layout" && String.eqb c "Stack"))%bool
|}.

Definition config_dirs : list string := ["/home/u/.config"; "/etc/xdg"].
Definition package_path : list string :=
  ["/usr/lib/python3/site-packages/tilenol/ext"].

(** A dispatcher that counts the events it was given and whose handler
    raises [ValueError] on event 2. *)
Definition sample_dispatch (i : nat) (d : nat) : nat * option exn :=
  (S d, if Nat.eqb i 2 then Some ValueError else None).

(** A dispatcher that keeps the identifiers of the windows it was told of,
    and an X server with four children of the root window 1: window 10 is
    mapped, 11 is input-only, 12 is mapped and override-redirect, 13 is
    unmapped. *)
Definition sample_known (d : list Main.wid) (w : Main.wid) : bool :=
  existsb (Z.eqb w) d.

Definition sample_create (ev : Main.xevent) (d : list Main.wid)
  : list Main.wid * option exn :=
  (Main.ev_window ev :: d, None).

Definition sample_map (ev : Main.xevent) (d : list Main.wid)
  : list Main.wid * option exn :=
  (d, None).

Definition sample_attributes (w : Main.wid) : Main.attributes :=
  if (w =? 10)%Z then Main.Build_attributes Main.InputOutput false Main.Viewable
  else if (w =? 11)%Z then Main.Build_attributes Main.InputOnly false Main.Viewable
  else if (w =? 12)%Z then Main.Build_attributes Main.InputOutput true Main.Viewable
  else Main.Build_attributes Main.InputOutput false Main.Unmapped.

Definition sample_geometry (w : Main.wid) : Main.geometry :=
  Main.Build_geometry 0 0 800 600 1.

(** Kinds registered in [tilenol.classify], for the examples *)
Definition sample_conditions : list string := ["has-type"; "match-role"].
Definition sample_actions : list string := ["layout"; "ignore-hints"].

(** A [rules] section with one global rule, [{"layout": "Float"}] *)
Definition global_rules : dict :=
  [ (PStr "global", PList [PDict [(PStr "layout", PStr "Float")]]) ].

(** A [rules] section whose second rule for [Gimp] has the key [colour],
    which is no kind, and one whose rule has a condition and no action *)
Definition rules_with_unknown_key : dict :=
  [ (PStr "global", PList [PDict [(PStr "layout", PStr "Float")]]);
    (PStr "Gimp",
     PList [ PDict [(PStr "has-type", PStr "utility");
                    (PStr "ignore-hints", PBool true)];
             PDict [(PStr "has-type", PStr "toolbox");
                    (PStr "colour", PStr "red");
                    (PStr "layout", PStr "Float")];
             PDict [(PStr "layout", PStr "Tile")] ]) ].

(** A bar of the [bars] section: on the right a clock, a separator written
    [---] and a widget nobody provides; on the left a clock with a format
    and a widget of an extension module that lacks it. *)
Definition sample_bar : dict :=
  [ (PStr "right", PList [ PStr "Clock"; PStr "---";
                           PDict [(PStr "Nope", PDict [])] ]);
    (PStr "left", PList [ PDict [(PStr "Clock",
                                  PDict [(PStr "format", PStr "%H:%M")])];
                          PStr "examples.Missing" ]);
    (PStr "screen", PInt 0);
    (PStr "position", PStr "top") ].

(** [tilenol.gestures.directions], with two directions *)
Definition sample_directions : list (string * pyval) :=
  [("up", PObj "up"); ("down", PObj "down")].

(** The gesture declarations of the scenario of C8 *)
Definition scenario_gestures : pyval :=
  PDict [ (PStr "3f-up", PStr "spawn terminal");
          (PStr "settings", PDict [(PStr "commit-distance", PInt 400)]) ].

(** Gesture declarations with two keys that are no gestures *)
Definition mixed_gestures : dict :=
  [ (PStr "9f-up", PStr "spawn terminal");
    (PStr "3f-up", PStr "spawn terminal");
    (PStr "settings", PDict [(PStr "commit-distance", PInt 400)]);
    (PStr "2f-sideways", PList [PStr "next-group"]);
    (PStr "4f-down", PDict [(PStr "=", PStr "next-group");
                            (PStr "char", PStr "v")]) ].

End Examples.

(** ** [PathGen]: configuration directories and files *)

Module Paths.
Import Py Extensions.

(** [s.endswith(suffix)] *)
Fixpoint ends_with (suffix s : string) : bool :=
  (String.eqb s suffix
   || match s with
      | EmptyString => false
      | String _ s' => ends_with suffix s'
      end)%bool.

(** [bool(s)] on a string *)
Definition nonempty (s : string) : bool := negb (String.eqb s EmptyString).

Section FileSystem.

(** The process environment ([os.environ]), [os.path.expanduser],
    [os.path.exists], and the two loaders ([open] and then [json.load] or
    [yaml.load]), which may raise. *)
Variable environ : string -> option string.
Variable expanduser : string -> string.
Variable path_exists : string -> bool.
Variable json_load : string -> result pyval.
Variable yaml_load : string -> result pyval.

(** [os.environ.get(key, default)] *)
Definition environ_get (key : string) (default : option string)
  : option string :=
  match environ key with
  | Some v => Some v
  | None => default
  end.

(** [PathGen.__init__]: the list it leaves in [self.dirs].  The keyword
    arguments [dirs_env] and [dirs_default] are [None] when not given. *)
Definition PathGen_dirs (dir_env dir_default : string)
  (dirs_env dirs_default : option string) : result (list string) :=
  let dir := match environ dir_env with
             | Some v => v
             | None => dir_default
             end in
  let lst := [expanduser dir] in
  match dirs_env, dirs_default with
  | None, None => Ok lst
  | None, Some _ => Raise TypeError       (* os.environ.get(None, ...) *)
  | Some key, _ =>
      match environ_get key dirs_default with
      | Some v => Ok (lst ++ filter nonempty (split_on ":" v))
      | None => Raise AttributeError      (* None has no [split] *)
      end
  end.

(** The inner loop of [find_file], over [self.extensions] *)
Fixpoint find_ext (dir name : string) (exts : list string) : option string :=
  match exts with
  | [] => None
  | ext :: exts' =>
      let fname := path_join dir (name ++ ext) in
      if path_exists fname then Some fname else find_ext dir name exts'
  end.

(** The outer loop of [find_file], over [self.dirs] *)
Fixpoint find_dir (dirs exts : list string) (name : string) : option string :=
  match dirs with
  | [] => None
  | dir :: dirs' =>
      match find_ext dir name exts with
      | Some fname => Some fname
      | None => find_dir dirs' exts name
      end
  end.

(** [PathGen.find_file]; the message of the [RuntimeError] reads
    [self.dirs[0]]. *)
Definition find_file (dirs exts : list string) (name : string)
  (required : bool) : result (option string) :=
  match find_dir dirs exts name with
  | Some fname => Ok (Some fname)
  | None =>
      if required then
        match dirs with
        | [] => Raise (OtherException "IndexError")
        | _ :: _ => Raise (OtherException "RuntimeError")
        end
      else Ok None
  end.

(** [PathGen.get_config]; [data] is [None] for [NoDefault]. *)
Definition get_config (dirs exts : list string) (name : string)
  (data : option pyval) : result pyval :=
  let fallback := match data with
                  | Some d => d
                  | None => PNone
                  end in
  rbind (find_file dirs exts ("tilenol/" ++ name)
           (match data with None => true | Some _ => false end))
    (fun fname =>
     match fname with
     | None => Ok fallback
     | Some f =>
         if ends_with ".json" f then json_load f
         else if ends_with ".yaml" f then yaml_load f
         else Ok fallback
     end).

(** The extensions [PathGen] looks for when none are given *)
Definition default_extensions : list string := [".json"; ".yaml"].

(** [d.setdefault(k, v)], for the dictionary it leaves *)
Definition dict_setdefault (k v : pyval) (d : dict) : dict :=
  match dict_get k d with
  | Some _ => d
  | None => dict_set k v d
  end.

(** [Config.__init__]: the directories of [self.config] and the
    dictionary it leaves in [self.data]. *)
Definition Config_init : result (list string * dict) :=
  rbind (PathGen_dirs "XDG_CONFIG_HOME" "~/.config"
           (Some "XDG_CONFIG_DIRS") (Some "/etc/xdg")) (fun config_dirs =>
  rbind (PathGen_dirs "XDG_DATA_HOME" "~/.local/share"
           (Some "XDG_DATA_DIRS") (Some "/usr/local/share:/usr/share"))
    (fun _ =>
  rbind (PathGen_dirs "XDG_CACHE_HOME" "~/.cache" None None) (fun _ =>
  rbind (PathGen_dirs "XDG_RUNTIME_DIR" "~/.cache/tilenol" None None)
    (fun _ =>
  rbind (get_config config_dirs default_extensions "config"
           (Some (PDict []))) (fun config =>
  match config with
  | PDict d =>
      Ok (config_dirs,
          dict_setdefault (PStr "screen-dpi") (PInt 96)
            (dict_setdefault (PStr "auto-screen-configuration")
               (PBool true) d))
  | _ => Raise AttributeError          (* no method [setdefault] *)
  end))))).

(** A notion the properties of [find_file] are stated with: the file
    names it tries, in the order it tries them. *)
Definition candidates (dirs exts : list string) (name : string)
  : list string :=
  flat_map (fun dir => map (fun ext => path_join dir (name ++ ext)) exts) dirs.

End FileSystem.

Fixpoint has_char (c : ascii) (s : string) : bool :=
  match s with
  | EmptyString => false
  | String c' s' => (Ascii.eqb c' c || has_char c s')%bool
  end.

End Paths.

(** ** [Config]: hotkeys, groups and layouts *)

Module Layouts.
Import Py Extensions.

(** [Config._pairs], run to its end *)
Fixpoint pairs_of_items (l : list pyval) : Rules.run (pyval * pyval) :=
  match l with
  | [] => ([], None)
  | PDict d :: l' => (d ++ fst (pairs_of_items l'), snd (pairs_of_items l'))
  | _ :: _ => ([], Some AttributeError)     (* no method [items] *)
  end.

Definition _pairs (yaml : pyval) : Rules.run (pyval * pyval) :=
  match yaml with
  | PList l => pairs_of_items l
  | PDict d => (d, None)
  | _ => ([], Some AttributeError)
  end.

(** [Config.keys], run to its end: [hotkeys] is what
    [self.config.get_config('hotkeys', {})] returns. *)
Fixpoint keys_loop (items : dict) : Rules.run (pyval * pyval) :=
  match items with
  | [] => ([], None)
  | (k, v) :: items' =>
      match Gestures._command v with
      | Ok cmd => Rules.yield_then (k, cmd) (keys_loop items')
      | Raise e => ([], Some e)
      end
  end.

Definition keys (hotkeys : pyval) : Rules.run (pyval * pyval) :=
  match hotkeys with
  | PDict d => keys_loop d
  | _ => ([], Some AttributeError)
  end.

(** A group as [Group(str(name), lay)] makes it: the class lives in
    [tilenol.groups]. *)
Record group : Type := Group {
  group_name : string;
  group_layout : pyval
}.

Section Resolver.

Variable env : ext_env.
(** The module [tilenol.layout.examples], the name of the class
    [tilenol.layout.Layout], the class [tilenol.layout.Tile], and the
    built-in [str]. *)
Variable examples : module.
Variable Layout : string.
Variable layout_Tile : pyval.
Variable py_str : pyval -> string.

(** [get_extension_class] on a name that need not be a string: [in] and
    [getattr] raise on the others. *)
Definition get_extension_class_any (name : pyval) (module_name : string)
  (default_module : module) (base_class : string) (default_value : pyval)
  : M pyval :=
  match name with
  | PStr s =>
      get_extension_class env s module_name default_module base_class
        default_value
  | _ =>
      match first_import env module_name with
      | Raise e => raise e
      | Ok _ =>
          match name with
          | PList l =>
              if existsb (key_eqb (PStr ".")) l then raise AttributeError
              else raise TypeError
          | PDict d =>
              if dict_mem (PStr ".") d then raise AttributeError
              else raise TypeError
          | _ => raise TypeError
          end
      end
  end.

(** The call both [groups] and [all_layouts] make *)
Definition resolve_layout (lname : pyval) : M pyval :=
  match getattr examples "Tile" with      (* default_value=examples.Tile *)
  | Some tile =>
      get_extension_class_any lname "layouts" examples Layout tile
  | None => raise AttributeError
  end.

Fixpoint groups_loop (pairs : list (pyval * pyval)) (groups : list group)
  : M (list group) :=
  match pairs with
  | [] => ret groups
  | (name, lname) :: pairs' =>
      bind (resolve_layout lname) (fun lay =>
      groups_loop pairs' (groups ++ [Group (py_str name) lay]))
  end.

(** [Config.groups] *)
Definition groups (data : dict) : M (list group) :=
  match dict_get (PStr "groups") data with
  | Some g =>
      bind (groups_loop (fst (_pairs g)) []) (fun gs =>
      match snd (_pairs g) with
      | None => ret gs
      | Some e => raise e
      end)
  | None =>
      ret (map (fun i => Group (py_str (PInt i)) layout_Tile)
             [0; 1; 2; 3; 4; 5; 6; 7; 8; 9]%Z)
  end.

(** The two loops of [all_layouts]: the mapping as far as it got, the
    exception that stopped the loop, if any, and the log. *)
Fixpoint layouts_loop (lnames : list pyval) (layouts : dict) (l : logs)
  : (dict * option exn) * logs :=
  match lnames with
  | [] => ((layouts, None), l)
  | lname :: lnames' =>
      match resolve_layout lname l with
      | (Ok lay, l') => layouts_loop lnames' (dict_set lname lay layouts) l'
      | (Raise e, l') => ((layouts, Some e), l')
      end
  end.

(** [Config.all_layouts]: [cache] is the attribute [self._all_layouts]
    ([None] while the object has none); the call gives what it returns or
    raises, the attribute afterwards, and the log. *)
Definition all_layouts (data : dict) (cache : option dict) (l : logs)
  : (result dict * option dict) * logs :=
  match cache with
  | Some layouts => ((Ok layouts, Some layouts), l)
  | None =>
      let r1 :=
        match dict_get (PStr "groups") data with
        | Some g =>
            let r := layouts_loop (map snd (fst (_pairs g))) [] l in
            ((fst (fst r),
              match snd (fst r) with
              | Some e => Some e
              | None => snd (_pairs g)
              end), snd r)
        | None => (([], None), l)
        end in
      match snd (fst r1) with
      | Some e => ((Raise e, Some (fst (fst r1))), snd r1)
      | None =>
          match dict_get (PStr "extra_layouts") data with
          | Some x =>
              match py_iter x with
              | Ok lnames =>
                  let r2 := layouts_loop lnames (fst (fst r1)) (snd r1) in
                  ((match snd (fst r2) with
                    | None => Ok (fst (fst r2))
                    | Some e => Raise e
                    end, Some (fst (fst r2))), snd r2)
              | Raise e => ((Raise e, Some (fst (fst r1))), snd r1)
              end
          | None => ((Ok (fst (fst r1)), Some (fst (fst r1))), snd r1)
          end
      end
  end.

(** Notions the properties of [groups] are stated with: a layout is the
    fallback or a class that passed the check; the layout name is a
    string, and what the lookups find for it, if anything, is a class. *)
Definition layout_ok (tile lay : pyval) : Prop :=
  lay = tile \/ exists c, lay = PClass c /\ issubclass_of env c Layout = true.

Definition resolvable (lname : pyval) : bool :=
  match lname with
  | PStr s =>
      match locate env s "layouts" examples with
      | Found (PClass _) | Unavailable | Missing => true
      | Found _ | Escapes _ => false
      end
  | _ => false
  end.

End Resolver.

End Layouts.

(** ** [child_handler] and the screen of a bar in [Tilenol.run] *)

Module Process.
Import Py.

(** What one call [os.waitpid(-1, os.WNOHANG)] comes to: a pair
    [pid, result], or [OSError]. *)
Inductive waitpid_outcome : Type :=
| Waited (pid : Z) (status : Z)
| WaitError.

(** [child_handler] on the outcomes of its calls to [os.waitpid], in
    order: the process identifiers it reaped, or [None] when the outcomes
    end before the loop does. *)
Fixpoint child_handler (outcomes : list waitpid_outcome) : option (list Z) :=
  match outcomes with
  | [] => None
  | WaitError :: _ => Some []
  | Waited pid _ :: outcomes' =>
      if (pid =? 0)%Z then Some []
      else match child_handler outcomes' with
           | Some pids => Some (pid :: pids)
           | None => None
           end
  end.

(** The screen [run] attaches a bar to, among [n] screens:
    [if screen_no < len(screenman.screens): scr =
    screenman.screens[screen_no]]; [None] when the bar is attached to no
    screen. *)
Definition bar_screen (n : nat) (screen_no : Z) : result (option nat) :=
  if (screen_no <? Z.of_nat n)%Z then
    if (0 <=? screen_no)%Z then Ok (Some (Z.to_nat screen_no))
    else if (0 <=? screen_no + Z.of_nat n)%Z
         then Ok (Some (Z.to_nat (screen_no + Z.of_nat n)))
         else Raise (OtherException "IndexError")
  else Ok None.

End Process.

(** ** Notions the further properties are stated with *)

Module Notions.
Import Py.

(** No key stands twice in the dictionary, as in every Python [dict]. *)
Fixpoint unique_keys (d : dict) : bool :=
  match d with
  | [] => true
  | (k, _) :: d' => (negb (dict_mem k d') && unique_keys d')%bool
  end.

(** A character that [shlex] takes as it is, and a word made of such
    characters. *)
Definition plain_char (c : ascii) : bool :=
  (negb (is_whitespace c) && negb (is_quote c) && negb (is_escape c))%bool.

Fixpoint plain_chars (s : string) : bool :=
  match s with
  | EmptyString => true
  | String c s' => (plain_char c && plain_chars s')%bool
  end.

Definition plain_word (s : string) : bool :=
  (negb (String.eqb s EmptyString) && plain_chars s)%bool.

(** A string that is one character: a first byte and no more
    continuation bytes than it calls for. *)
Fixpoint all_continuation (s : string) : bool :=
  match s with
  | EmptyString => true
  | String c s' => (is_continuation c && all_continuation s')%bool
  end.

Definition one_char (c : string) : bool :=
  match c with
  | EmptyString => false
  | String lead conts =>
      (all_continuation conts
       && Nat.leb (String.length conts) (char_width lead))%bool
  end.

End Notions.

(** ** More of the concrete installation *)

Module Examples2.
Import Py Extensions.

(** [tilenol.layout.examples], with the layouts [Tile] and [Max] *)
Definition examples_module : module :=
  [("Tile", PClass "Tile"); ("Max", PClass "Max")].

(** The groups of a configuration: [main] with a layout nobody provides,
    [web] with the layout [Stack] of the extension module [examples]. *)
Definition sample_groups : dict :=
  [ (PStr "groups",
     PDict [ (PStr "main", PStr "tile");
             (PStr "web", PStr "examples.Stack") ]) ].

(** An installation whose extension module [tilenol.ext.widgets] is there
    and broken: loading it raises [SyntaxError]. *)
Definition broken_env : ext_env := {|
  ext_import := fun n =>
    if String.eqb n "widgets" then Raise (OtherException "SyntaxError")
    else Raise ImportError;
  none_attrs := none_attrs Examples.sample_env;
  issubclass_of := issubclass_of Examples.sample_env
|}.

(** [str] on the names of the examples, which are strings *)
Definition sample_str (v : pyval) : string :=
  match v with
  | PStr s => s
  | _ => EmptyString
  end.

End Examples2.

(** ** What a section of rules declares *)

Module Declared.
Import Py Rules.

Section Compiler.

Variable all_conditions : list string.
Variable all_actions : list string.

(** The instance a pair of a rule makes, if its key is in the registry:
    the class registered under the key, called on the arguments derived
    from the value. *)
Definition instance_of (registry : list string) (kv : pyval * pyval)
  : list instance :=
  match registered registry (fst kv), call_args (snd kv) with
  | Some c, Ok a => [Instance c (fst a) (snd a)]
  | _, _ => []
  end.

Definition conditions_of (items : dict) : list instance :=
  flat_map (instance_of all_conditions) items.

(** A key registered as a condition makes no action. *)
Definition actions_of (items : dict) : list instance :=
  flat_map (fun kv => match registered all_conditions (fst kv) with
                      | Some _ => []
                      | None => instance_of all_actions kv
                      end) items.

(** A rule whose keys are registered kinds, one of them an action, and
    whose values give arguments. *)
Definition well_formed (items : dict) : bool :=
  (negb (is_invalid all_conditions all_actions items)
   && forallb (fun kv => match call_args (snd kv) with
                         | Ok _ => true
                         | Raise _ => false
                         end) items)%bool.

Definition rule_items (r : pyval) : dict :=
  match r with
  | PDict items => items
  | _ => []
  end.

(** A pair of the section: a subject and a list of well-formed rules *)
Definition section_ok (kv : pyval * pyval) : bool :=
  match snd kv with
  | PList rs => forallb (fun r => match r with
                                  | PDict items => well_formed items
                                  | _ => false
                                  end) rs
  | _ => false
  end.

Definition section_rules (kv : pyval * pyval) : list rule :=
  match snd kv with
  | PList rs =>
      map (fun r => (normalize_subject (fst kv),
                     conditions_of (rule_items r),
                     actions_of (rule_items r))) rs
  | _ => []
  end.

End Compiler.

End Declared.

(** ** What [bars] leaves of the items of its section *)

Module BarStore.
Import Py Bars.

(** An item of the section after [binfo.pop('right', ())],
    [binfo.pop('left', ())] and [binfo.pop('screen', 0)]: [pop] takes the
    keys out of the mapping of [self.data] itself. *)
Definition popped (b0 : dict) : dict :=
  snd (dict_pop (PStr "screen") (PInt 0)
         (snd (pop_list "left" (snd (pop_list "right" b0))))).

(** The value under [screen], as [int] gets it *)
Definition screen_of (b0 : dict) : pyval :=
  fst (dict_pop (PStr "screen") (PInt 0)
         (snd (pop_list "left" (snd (pop_list "right" b0))))).

End BarStore.

(** ** [Config.gadgets] *)

Module Gadgets.
Import Py Extensions.

(** A gadget built by [cls( **kw )]: the classes live in
    [tilenol.gadgets], so an object is the call that made it. *)
Record gadget : Type := Gadget {
  gadget_class : pyval;
  gadget_kw : list (string * pyval)
}.

(** [clsname] and [kw] of a declaration: a string names the class; of
    anything else [gadget['=']] is taken, and [kw] is a copy without the
    key [=]. *)
Definition class_and_kw (g : pyval) : result (pyval * dict) :=
  match g with
  | PStr _ => Ok (g, [])
  | PDict d => match dict_get (PStr "=") d with
               | Some c => Ok (c, dict_del (PStr "=") d)
               | None => Raise KeyError
               end
  | _ => Raise TypeError          (* no mapping: [gadget['=']] raises *)
  end.

Section Builder.

(** The module [tilenol.gadgets] *)
Variable gadgets_module : module.

(** The body of the loop, for the pair [name, gadget]: the gadget to
    yield, if any. *)
Definition build_gadget (name g : pyval) : M (option (pyval * gadget)) :=
  bind (lift (class_and_kw g)) (fun ck =>
  match fst ck with
  | PStr clsname =>
      match getattr gadgets_module clsname with
      | None =>
          bind (log_warning "Gadget %s is not available" [PStr clsname])
               (fun _ => ret None)
      | Some (PClass c) =>
          bind (lift (Rules.keywords (snd ck))) (fun kw =>
          ret (Some (name, Gadget (PClass c) kw)))
      | Some _ => raise TypeError             (* not callable *)
      end
  | _ => raise TypeError       (* [getattr]: the name is no string *)
  end).

(** The loop over what [chain] gives *)
Fixpoint gadgets_loop (items : list pyval) (l : logs)
  : Rules.run (pyval * gadget) * logs :=
  match items with
  | [] => (([], None), l)
  | x :: items' =>
      match unpack2 x with
      | Ok (name, g) =>
          match build_gadget name g l with
          | (Ok (Some y), l') =>
              let r := gadgets_loop items' l' in
              (Rules.yield_then y (fst r), snd r)
          | (Ok None, l') => gadgets_loop items' l'
          | (Raise e, l') => (([], Some e), l')
          end
      | Raise e => (([], Some e), l)
      end
  end.

(** [Config.gadgets]: [gadgets_file] is what
    [self.config.get_config('gadgets', {})] returns and [data] is
    [self.data].  The first argument of [chain] is [.items()] of the
    former, the second is [self.data.get('gadgets', {})] itself. *)
Definition gadgets (gadgets_file : pyval) (data : dict) (l : logs)
  : Rules.run (pyval * gadget) * logs :=
  match gadgets_file with
  | PDict primary =>
      match py_iter (dict_get_default (PStr "gadgets") (PDict []) data) with
      | Ok second => gadgets_loop (Rules.items_of primary ++ second) l
      | Raise e =>
          match gadgets_loop (Rules.items_of primary) l with
          | ((ys, None), l') => ((ys, Some e), l')
          | r => r
          end
      end
  | _ => (([], Some AttributeError), l)   (* no method [items] *)
  end.

(** Notions the properties of [gadgets] are stated with. *)

(** A declaration in either of its forms: the name of the class, or a
    mapping with the name under [=] and the keyword arguments, whose keys
    are strings. *)
Definition declaration (g : pyval) : option (string * dict) :=
  match g with
  | PStr s => Some (s, [])
  | PDict d => match dict_get (PStr "=") d with
               | Some (PStr s) => Some (s, dict_del (PStr "=") d)
               | _ => None
               end
  | _ => None
  end.

Definition declared (ng : pyval * pyval) : bool :=
  match declaration (snd ng) with
  | Some (s, kw) =>
      match Rules.keywords kw, getattr gadgets_module s with
      | Ok _, (None | Some (PClass _)) => true
      | _, _ => false
      end
  | None => false
  end.

(** The gadget a declaration gives, if the module has its class, and the
    warning it gives if not *)
Definition built (ng : pyval * pyval) : list (pyval * gadget) :=
  match declaration (snd ng) with
  | Some (s, kw) =>
      match Rules.keywords kw, getattr gadgets_module s with
      | Ok k, Some (PClass c) => [(fst ng, Gadget (PClass c) k)]
      | _, _ => []
      end
  | None => []
  end.

Definition unavailable (ng : pyval * pyval) : logs :=
  match declaration (snd ng) with
  | Some (s, _) =>
      match getattr gadgets_module s with
      | None => [Warning "Gadget %s is not available" [PStr s]]
      | Some _ => []
      end
  | None => []
  end.

End Builder.

End Gadgets.

(** ** [Tilenol.register_hotkeys] *)

Module Hotkeys.
Import Py.

(** The calls made on the key registry *)
Inductive key_call : Type :=
| AddKey (key : pyval) (callback : pyval)     (* keys.add_key(key, cb) *)
| RegisterKeys.                               (* keys.register_keys(root) *)

Section Registry.

(** [self.commander.callback( *cmd )], and the exceptions the two methods
    of the key registry raise, if any. *)
Variable callback : list pyval -> result pyval.
Variable add_key : pyval -> pyval -> option exn.
Variable register_keys : option exn.

(** The loop over the pairs [keys] yields; the calls made go to the
    trace. *)
Fixpoint add_keys (pairs : list (pyval * pyval)) (trace : list key_call)
  : list key_call * option exn :=
  match pairs with
  | [] => (trace, None)
  | (key, cmd) :: pairs' =>
      match py_iter cmd with              (* [*cmd] *)
      | Raise e => (trace, Some e)
      | Ok args =>
          match callback args with
          | Raise e => (trace, Some e)
          | Ok cb =>
              match add_key key cb with
              | Some e => (trace ++ [AddKey key cb], Some e)
              | None => add_keys pairs' (trace ++ [AddKey key cb])
              end
          end
      end
  end.

(** [Tilenol.register_hotkeys]: [hotkeys] is what
    [self.config.get_config('hotkeys', {})] returns.  The generator
    [keys] raises, if it does, once the pairs before have been through
    the loop. *)
Definition register_hotkeys (hotkeys : pyval) : list key_call * option exn :=
  let r := Layouts.keys hotkeys in
  match add_keys (fst r) [] with
  | (trace, Some e) => (trace, Some e)
  | (trace, None) =>
      match snd r with
      | Some e => (trace, Some e)
      | None => (trace ++ [RegisterKeys], register_keys)
      end
  end.

End Registry.

(** A hotkey whose command [_command] makes a list of, and the list *)
Definition splits (kv : pyval * pyval) : bool :=
  match Gestures._command (snd kv) with
  | Ok (PList _) => true
  | _ => false
  end.

Definition words_of (kv : pyval * pyval) : list pyval :=
  match Gestures._command (snd kv) with
  | Ok (PList ws) => ws
  | _ => []
  end.

End Hotkeys.

(** * Properties *)

(** ** The characters of a string *)

Module CharsFacts.
Import Py Notions.

Lemma string_app_assoc (a b c : string) :
  ((a ++ b) ++ c = a ++ b ++ c)%string.
Proof. induction a as [|x a IH]; simpl; [reflexivity | now rewrite IH]. Qed.

Lemma string_app_nil (a : string) : (a ++ EmptyString)%string = a.
Proof. induction a as [|x a IH]; simpl; [reflexivity | now rewrite IH]. Qed.

Lemma string_app_nonempty (a : string) (c : ascii) :
  (a ++ String c EmptyString)%string <> EmptyString.
Proof. destruct a; discriminate. Qed.

(** Continuation bytes, as many as the character under way still lacks,
    go to that character. *)
Lemma chars_from_continuation (conts acc : string) (need : nat) :
  all_continuation conts = true ->
  String.length conts <= need ->
  acc <> EmptyString ->
  chars_from conts acc need = [PStr (acc ++ conts)].
Proof.
  revert acc need. induction conts as [|c conts IH]; intros acc need Hc Hn Ha.
  - cbn. rewrite string_app_nil. destruct acc; [now destruct Ha | reflexivity].
  - cbn [all_continuation] in Hc. apply andb_prop in Hc.
    destruct Hc as [Hc Hcs]. cbn [String.length] in Hn.
    destruct need as [|n]; [lia|]. cbn [chars_from]. rewrite Hc.
    cbn [Nat.pred].
    rewrite (IH _ n Hcs ltac:(lia) (string_app_nonempty acc c)).
    now rewrite string_app_assoc.
Qed.

(** A string of one character is its one character. *)
Lemma chars_one_char (c : string) :
  one_char c = true -> chars c = [PStr c].
Proof.
  destruct c as [|lead conts]; [discriminate|]. cbn [one_char]. intros H.
  apply andb_prop in H. destruct H as [Hc Hn]. apply Nat.leb_le in Hn.
  unfold chars. cbn [chars_from emit app].
  assert (Hl : String lead EmptyString <> EmptyString) by discriminate.
  now rewrite (chars_from_continuation conts _ _ Hc Hn Hl).
Qed.

Lemma all_continuation_app (a : string) (c : ascii) :
  all_continuation a = true -> is_continuation c = true ->
  all_continuation (a ++ String c EmptyString) = true.
Proof.
  induction a as [|x a IH]; cbn; intros Ha Hc.
  - now rewrite Hc.
  - apply andb_prop in Ha. destruct Ha as [Hx Ha]. now rewrite Hx, IH.
Qed.

Lemma string_length_app (a : string) (c : ascii) :
  String.length (a ++ String c EmptyString) = S (String.length a).
Proof. induction a as [|x a IH]; cbn; [reflexivity | now rewrite IH]. Qed.

Lemma chars_from_items (s cur : string) (need : nat) :
  ((cur = EmptyString /\ need = 0)
   \/ exists lead conts,
        cur = String lead conts /\ all_continuation conts = true
        /\ String.length conts + need <= char_width lead) ->
  forall x, In x (chars_from s cur need) ->
            exists c, x = PStr c /\ one_char c = true.
Proof.
  assert (Hemit : forall cur need,
             ((cur = EmptyString /\ need = 0)
              \/ exists lead conts,
                   cur = String lead conts /\ all_continuation conts = true
                   /\ String.length conts + need <= char_width lead) ->
             forall x, In x (emit cur) ->
                       exists c, x = PStr c /\ one_char c = true).
  { intros cur0 need0 [[-> _]|(lead & conts & -> & Hc & Hn)] x Hx;
      [destruct Hx|].
    destruct Hx as [<-|[]]. eexists. split; [reflexivity|].
    cbn [one_char]. rewrite Hc. apply Nat.leb_le. lia. }
  revert cur need. induction s as [|c s IH]; intros cur need Hinv x Hx.
  - exact (Hemit cur need Hinv x Hx).
  - cbn [chars_from] in Hx.
    destruct (match need with O => false | S _ => is_continuation c end)
      eqn:E.
    + destruct need as [|n]; [discriminate|]. cbn [Nat.pred] in Hx.
      apply (IH (cur ++ String c EmptyString)%string n); [|exact Hx]. right.
      destruct Hinv as [[_ Hz]|(lead & conts & -> & Hc & Hn)];
        [discriminate|].
      exists lead, (conts ++ String c EmptyString)%string.
      split; [reflexivity|]. split; [now apply all_continuation_app|].
      rewrite string_length_app. lia.
    + apply in_app_or in Hx. destruct Hx as [Hx|Hx].
      * exact (Hemit cur need Hinv x Hx).
      * apply (IH (String c EmptyString) (char_width c)); [|exact Hx]. right.
        exists c, EmptyString. cbn. repeat split. lia.
Qed.

(** Iterating a string gives strings of one character each. *)
Lemma chars_items (s : string) (x : pyval) :
  In x (chars s) -> exists c, x = PStr c /\ one_char c = true.
Proof. apply chars_from_items. now left. Qed.

Lemma chars_from_nonempty (s cur : string) (need : nat) :
  s <> EmptyString \/ cur <> EmptyString -> chars_from s cur need <> [].
Proof.
  revert cur need. induction s as [|c s IH]; intros cur need H.
  - destruct H as [H|H]; [now destruct H|].
    cbn. destruct cur; [now destruct H | discriminate].
  - cbn [chars_from].
    destruct (match need with O => false | S _ => is_continuation c end).
    + apply IH. right. apply string_app_nonempty.
    + intros E. apply app_eq_nil in E. destruct E as [_ E].
      revert E. apply IH. right. discriminate.
Qed.

Lemma chars_nonempty (s : string) : s <> EmptyString -> chars s <> [].
Proof. intros H. apply chars_from_nonempty. now left. Qed.

(** One character cannot be unpacked into two names. *)
Lemma unpack2_one_char (c : string) :
  one_char c = true -> unpack2 (PStr c) = Raise ValueError.
Proof.
  intros H. unfold unpack2. cbn [py_iter]. now rewrite (chars_one_char c H).
Qed.

(** [for a, b in s] on a string: two characters are unpacked, any other
    number raises [ValueError]. *)
Lemma unpack2_string (s : string) :
  unpack2 (PStr s)
  = match chars s with
    | [a; b] => Ok (a, b)
    | _ => Raise ValueError
    end.
Proof. reflexivity. Qed.

End CharsFacts.


(** ** The extension search path *)

Module ExtensionsFacts.
Import Py Extensions.

Lemma insert_at_length {A} (pre l : list A) (x : A) :
  insert_at (List.length pre) x (pre ++ l) = pre ++ x :: l.
Proof.
  induction pre as [|y pre IH]; simpl.
  - destruct l; reflexivity.
  - now rewrite IH.
Qed.

Lemma list_insert_at_length {A} (pre l : list A) (x : A) :
  list_insert (Z.of_nat (List.length pre)) x (pre ++ l) = pre ++ x :: l.
Proof.
  unfold list_insert.
  destruct (Z.ltb_spec (Z.of_nat (List.length pre)) 0) as [H|H]; [lia|].
  rewrite Z.min_l by (rewrite length_app; lia).
  rewrite Nat2Z.id. apply insert_at_length.
Qed.

(** [l.insert(-1, x)] puts [x] before the last item. *)
Lemma list_insert_before_last {A} (l : list A) (x y : A) :
  list_insert (-1) x (l ++ [y]) = l ++ [x; y].
Proof.
  unfold list_insert. change (-1 <? 0)%Z with true. cbv iota.
  assert (E : Z.max 0 (-1 + Z.of_nat (List.length (l ++ [y])))
              = Z.of_nat (List.length l))
    by (rewrite length_app; cbn [List.length]; lia).
  rewrite E, Nat2Z.id. apply insert_at_length.
Qed.

Lemma seed_config_dirs_from (dirs pre path : list string) :
  seed_config_dirs (Z.of_nat (List.length pre)) dirs (pre ++ path)
  = pre ++ map ext_dir dirs ++ path.
Proof.
  revert pre. induction dirs as [|d ds IH]; intros pre; simpl.
  - reflexivity.
  - rewrite list_insert_at_length.
    replace (Z.of_nat (List.length pre) + 1)%Z
      with (Z.of_nat (List.length (pre ++ [ext_dir d])))
      by (rewrite length_app; simpl; lia).
    replace (pre ++ ext_dir d :: path) with ((pre ++ [ext_dir d]) ++ path)
      by (now rewrite <- app_assoc).
    rewrite IH. now rewrite <- app_assoc.
Qed.

(** The loop puts the configuration directories' entries, in order, in
    front of what the path held. *)
Lemma seed_config_dirs_spec (dirs path : list string) :
  seed_config_dirs 0 dirs path = map ext_dir dirs ++ path.
Proof. exact (seed_config_dirs_from dirs [] path). Qed.

Lemma init_extensions_nonempty (dirs pre : list string) (lst : string) :
  init_extensions dirs (pre ++ [lst])
  = map ext_dir dirs ++ pre ++ [site_extensions; lst].
Proof.
  unfold init_extensions. rewrite seed_config_dirs_spec.
  rewrite app_assoc, list_insert_before_last. now rewrite <- app_assoc.
Qed.

Lemma length_insert_at {A} (i : nat) (x : A) (l : list A) :
  List.length (insert_at i x l) = S (List.length l).
Proof.
  revert i. induction l as [|y l IH]; intros [|i]; simpl; auto.
Qed.

Lemma length_init_extensions (dirs path : list string) :
  List.length (init_extensions dirs path)
  = List.length path + List.length dirs + 1.
Proof.
  unfold init_extensions, list_insert. rewrite length_insert_at.
  rewrite seed_config_dirs_spec, length_app, length_map. lia.
Qed.

(** C6, as the claim has it, fails: with the two usual configuration
    directories and the package's own directory on the path, the last entry
    after seeding is the package's directory, and the site-extension
    directory is the one before it. *)
Lemma init_extensions_site_not_last :
  init_extensions Examples.config_dirs Examples.package_path
  = [ "/home/u/.config/tilenol/ext"; "/etc/xdg/tilenol/ext";
      "/usr/share/tilenol/site-extensions";
      "/usr/lib/python3/site-packages/tilenol/ext" ]
  /\ last (init_extensions Examples.config_dirs Examples.package_path)
          EmptyString
     <> site_extensions.
Proof. split; [reflexivity | discriminate]. Qed.

(** C6, amended: after [init_extensions] has run once on a search path that
    ends with [lst] (the directory of the package itself), the path is one
    entry per configuration directory, in the order of [config.dirs], then
    the entries it held before [lst], then the site-extension directory,
    then [lst]: the site-extension directory is the last but one. *)
Theorem init_extensions_order (dirs pre : list string) (lst : string) :
  init_extensions dirs (pre ++ [lst])
  = map ext_dir dirs ++ pre ++ [site_extensions; lst]
  /\ last (init_extensions dirs (pre ++ [lst])) EmptyString = lst.
Proof.
  rewrite init_extensions_nonempty. split; [reflexivity|].
  rewrite app_assoc.
  change [site_extensions; lst] with ([site_extensions] ++ [lst]).
  rewrite app_assoc. apply last_last.
Qed.

(** C5, as the claim has it, fails: a second call changes the path again,
    and the site-extension directory is on it twice. *)
Lemma init_extensions_twice_differs :
  init_extensions Examples.config_dirs
    (init_extensions Examples.config_dirs Examples.package_path)
  = [ "/home/u/.config/tilenol/ext"; "/etc/xdg/tilenol/ext";
      "/home/u/.config/tilenol/ext"; "/etc/xdg/tilenol/ext";
      "/usr/share/tilenol/site-extensions";
      "/usr/share/tilenol/site-extensions";
      "/usr/lib/python3/site-packages/tilenol/ext" ]
  /\ init_extensions Examples.config_dirs
       (init_extensions Examples.config_dirs Examples.package_path)
     <> init_extensions Examples.config_dirs Examples.package_path.
Proof. split; [reflexivity | discriminate]. Qed.

(** C5, amended: [init_extensions] is not idempotent.  Every call makes the
    search path longer by one entry per configuration directory and one
    more, and a second call on a path that ended with [lst] puts every
    seeded entry there a second time: the configuration directories'
    entries twice, what the path held before [lst], the site-extension
    directory twice, and [lst]. *)
Theorem init_extensions_twice (dirs pre : list string) (lst : string) :
  init_extensions dirs (init_extensions dirs (pre ++ [lst]))
  = map ext_dir dirs ++ map ext_dir dirs ++ pre
    ++ [site_extensions; site_extensions; lst]
  /\ forall path,
       List.length (init_extensions dirs (init_extensions dirs path))
       = List.length (init_extensions dirs path) + List.length dirs + 1.
Proof.
  split.
  - rewrite init_extensions_nonempty.
    replace (map ext_dir dirs ++ pre ++ [site_extensions; lst])
      with ((map ext_dir dirs ++ pre ++ [site_extensions]) ++ [lst])
      by (now rewrite <- !app_assoc).
    rewrite init_extensions_nonempty. now rewrite <- !app_assoc.
  - intros path. apply length_init_extensions.
Qed.

End ExtensionsFacts.

(** ** [get_extension_class] *)

Module ResolverFacts.
Import Py Extensions.

(** How the lookups end, read off the name and the modules. *)
Lemma locate_dotted env name module_name default_module mod_ m cname :
  first_import env module_name = Ok mod_ ->
  split_first "." name = Some (m, cname) ->
  locate env name module_name default_module
  = match ext_import env m with
    | Ok md => match getattr md cname with
               | Some res => Found res
               | None => Unavailable
               end
    | Raise e => if import_caught e then Unavailable else Escapes e
    end.
Proof. intros H0 H. unfold locate. now rewrite H0, H. Qed.

Lemma locate_plain_missing env name module_name default_module mod_ :
  first_import env module_name = Ok mod_ ->
  split_first "." name = None ->
  getattr mod_ name = None ->
  getattr default_module name = None ->
  locate env name module_name default_module = Missing.
Proof. intros H0 H H1 H2. unfold locate. now rewrite H0, H, H1, H2. Qed.

(** An import that raises [ImportError] only leaves the lookups going. *)
Lemma first_import_returns env module_name :
  (forall e, ext_import env module_name = Raise e -> e = ImportError) ->
  exists mod_, first_import env module_name = Ok mod_.
Proof.
  intros H. unfold first_import.
  destruct (ext_import env module_name) as [m|e]; [eauto|].
  rewrite (H e eq_refl). eauto.
Qed.

(** What is returned does not depend on the records written before, and
    the records written are added at the end. *)
Lemma get_extension_class_log env name module_name default_module base_class
  default_value (l : logs) :
  get_extension_class env name module_name default_module base_class
    default_value l
  = (fst (get_extension_class env name module_name default_module base_class
            default_value []),
     l ++ snd (get_extension_class env name module_name default_module
                 base_class default_value [])).
Proof.
  unfold get_extension_class.
  destruct (locate env name module_name default_module) as [res| | |e];
    unfold bind, lift, ret, raise, log_warning; simpl.
  - destruct (py_issubclass env res base_class) as [[|]|e]; simpl;
      now rewrite ?app_nil_r.
  - reflexivity.
  - now rewrite app_nil_r.
  - now rewrite app_nil_r.
Qed.

(** C1, as the claim has it, fails three times: on the sample
    installation the plain name [Nope], which neither
    [tilenol.ext.widgets] nor [tilenol.widgets] has, gives the default
    value and no record in the log; the plain name [base], which
    [tilenol.widgets] has but which is a module, not a class, makes
    [issubclass] raise [TypeError]; and on an installation whose extension
    module [tilenol.ext.widgets] is broken, the exception of loading it
    leaves [get_extension_class], whatever the name. *)
Lemma get_extension_class_silent_or_raising :
  get_extension_class Examples.sample_env "Nope" "widgets"
    Examples.widgets_module "Widget" PNone []
  = (Ok PNone, [])
  /\ get_extension_class Examples.sample_env "base" "widgets"
       Examples.widgets_module "Widget" PNone []
     = (Raise TypeError, [])
  /\ get_extension_class Examples2.broken_env "Clock" "widgets"
       Examples.widgets_module "Widget" PNone []
     = (Raise (OtherException "SyntaxError"), []).
Proof. split; [|split]; reflexivity. Qed.

(** C1, amended: let loading the extension modules raise nothing but what
    the code catches ([ImportError] for [tilenol.ext.<module_name>];
    [ImportError], [AttributeError] or [ValueError] for the module of a
    dotted name), and let the attribute the lookups find, if they find one,
    be a class.  Then [get_extension_class] raises nothing and returns
    either a class that passes [issubclass(res, base_class)] or
    [default_value].  A dotted name whose module cannot be imported or
    lacks the attribute gives the default value and the one warning "Class
    %r is not available"; a class that fails the check gives the default
    value and the one warning "Class %s is subclassed from wrong class"; a
    plain name that neither module has gives the default value and no
    record. *)
Theorem get_extension_class_degrades env name module_name default_module
  base_class default_value (l : logs) :
  (forall e, ext_import env module_name = Raise e -> e = ImportError) ->
  (forall m cname e,
     split_first "." name = Some (m, cname) ->
     ext_import env m = Raise e -> import_caught e = true) ->
  (forall res, locate env name module_name default_module = Found res ->
               exists c, res = PClass c) ->
  exists v l',
    get_extension_class env name module_name default_module base_class
      default_value l = (Ok v, l')
    /\ (v = default_value
        \/ exists c, v = PClass c /\ issubclass_of env c base_class = true)
    /\ (forall m cname,
          split_first "." name = Some (m, cname) ->
          ((exists e, ext_import env m = Raise e)
           \/ exists md, ext_import env m = Ok md
                         /\ getattr md cname = None) ->
          v = default_value /\ l' = l ++ [not_available name])
    /\ (forall c,
          locate env name module_name default_module = Found (PClass c) ->
          issubclass_of env c base_class = false ->
          v = default_value /\ l' = l ++ [wrong_class])
    /\ (forall c,
          locate env name module_name default_module = Found (PClass c) ->
          issubclass_of env c base_class = true ->
          v = PClass c /\ l' = l)
    /\ (forall mod_,
          first_import env module_name = Ok mod_ ->
          split_first "." name = None ->
          getattr mod_ name = None ->
          getattr default_module name = None ->
          v = default_value /\ l' = l).
Proof.
  intros Hfirst Hdotted Hclass.
  destruct (first_import_returns env module_name Hfirst) as [mod0 Hmod0].
  assert (Hdot : forall m cname,
             split_first "." name = Some (m, cname) ->
             ((exists e, ext_import env m = Raise e)
              \/ exists md, ext_import env m = Ok md
                            /\ getattr md cname = None) ->
             locate env name module_name default_module = Unavailable).
  { intros m cname Hs [[e Hm] | (md & Hm & Ha)];
      rewrite (locate_dotted _ _ _ _ _ _ _ Hmod0 Hs), Hm.
    - now rewrite (Hdotted m cname e Hs Hm).
    - now rewrite Ha. }
  assert (Hplain : forall mod_,
             first_import env module_name = Ok mod_ ->
             split_first "." name = None ->
             getattr mod_ name = None ->
             getattr default_module name = None ->
             locate env name module_name default_module = Missing)
    by (intros mod_; apply locate_plain_missing).
  assert (Hesc : forall e,
             locate env name module_name default_module <> Escapes e).
  { intros e. unfold locate. rewrite Hmod0.
    destruct (split_first "." name) as [[m cname]|] eqn:Hs.
    - destruct (ext_import env m) as [md|e0] eqn:Hm.
      + now destruct (getattr md cname).
      + now rewrite (Hdotted m cname e0 eq_refl Hm).
    - destruct (getattr mod0 name); [discriminate|].
      now destruct (getattr default_module name). }
  unfold get_extension_class.
  destruct (locate env name module_name default_module) as [res| | |e] eqn:E.
  - destruct (Hclass res eq_refl) as [c ->].
    unfold bind, lift, ret, log_warning; simpl.
    destruct (issubclass_of env c base_class) eqn:S.
    + exists (PClass c), l.
      refine (conj eq_refl (conj _ (conj _ (conj _ (conj _ _))))).
      * right. now exists c.
      * intros m cname Hs Hm. now specialize (Hdot m cname Hs Hm).
      * intros c' Hc' Hs. injection Hc' as ->. congruence.
      * intros c' Hc' _. injection Hc' as ->. now split.
      * intros mod_ H0 H H1 H2. now specialize (Hplain mod_ H0 H H1 H2).
    + exists default_value, (l ++ [wrong_class]).
      refine (conj eq_refl (conj _ (conj _ (conj _ (conj _ _))))).
      * now left.
      * intros m cname Hs Hm. now specialize (Hdot m cname Hs Hm).
      * intros c' _ _. now split.
      * intros c' Hc' Hs. injection Hc' as ->. congruence.
      * intros mod_ H0 H H1 H2. now specialize (Hplain mod_ H0 H H1 H2).
  - unfold bind, ret, log_warning; simpl.
    exists default_value, (l ++ [not_available name]).
    refine (conj eq_refl (conj _ (conj _ (conj _ (conj _ _))))).
    + now left.
    + intros m cname _ _. now split.
    + intros c' Hc'. discriminate.
    + intros c' Hc'. discriminate.
    + intros mod_ H0 H H1 H2. now specialize (Hplain mod_ H0 H H1 H2).
  - unfold ret. exists default_value, l.
    refine (conj eq_refl (conj _ (conj _ (conj _ (conj _ _))))).
    + now left.
    + intros m cname Hs Hm. now specialize (Hdot m cname Hs Hm).
    + intros c' Hc'. discriminate.
    + intros c' Hc'. discriminate.
    + intros _ _ _ _ _. now split.
  - now destruct (Hesc e).
Qed.

(** The theorem at work: the dotted name [examples.Nope] on the sample
    installation, whose module [tilenol.ext.examples] has no such
    attribute. *)
Lemma get_extension_class_degrades_witness :
  exists v l',
    get_extension_class Examples.sample_env "examples.Nope" "layouts" []
      "Layout" (PClass "Tile") [] = (Ok v, l')
    /\ v = PClass "Tile" /\ l' = [not_available "examples.Nope"].
Proof.
  destruct (get_extension_class_degrades Examples.sample_env "examples.Nope"
              "layouts" [] "Layout" (PClass "Tile") [])
    as (v & l' & H & _ & Hd & _).
  - intros e H. vm_compute in H. now injection H as <-.
  - intros m cname e Hs Hm. vm_compute in Hs. injection Hs as <- <-.
    vm_compute in Hm. discriminate.
  - intros res H. vm_compute in H. discriminate.
  - exists v, l'. split; [exact H|].
    apply (Hd "examples" "Nope" eq_refl).
    right. exists [("Stack", PClass "Stack")]. split; reflexivity.
Defined.

End ResolverFacts.

(** ** [Tilenol.loop] *)

Module LoopFacts.
Import Py Main.

Section EventLoop.

Variable event : Type.
Variable D : Type.
Variable dispatch : event -> D -> D * option exn.

Lemma loop_app (pre post : list event) (s : loop_state event D) :
  loop dispatch (pre ++ post) s
  = match loop dispatch pre s with
    | (s1, None) => loop dispatch post s1
    | (s1, Some e) => (s1, Some e)
    end.
Proof.
  revert s. induction pre as [|i pre IH]; intros s; simpl.
  - reflexivity.
  - destruct (loop_step dispatch i s) as [s' [e|]]; [reflexivity | apply IH].
Qed.

(** Every turn hands its event to [dispatch] once, whatever comes of it. *)
Lemma loop_step_dispatched (i : event) (s : loop_state event D) :
  dispatched (fst (loop_step dispatch i s)) = dispatched s ++ [i]
  /\ dispatcher (fst (loop_step dispatch i s)) = fst (dispatch i (dispatcher s)).
Proof.
  unfold loop_step.
  destruct (dispatch i (dispatcher s)) as [d' [e|]]; simpl.
  - destruct (is_Exception e); simpl; auto.
  - auto.
Qed.

(** A loop that ran to the end of the events handed each of them to
    [dispatch] once, in the order of arrival. *)
Lemma loop_dispatched (events : list event) (s s' : loop_state event D) :
  loop dispatch events s = (s', None) ->
  dispatched s' = dispatched s ++ events.
Proof.
  revert s. induction events as [|i events IH]; intros s H; simpl in H.
  - injection H as <-. now rewrite app_nil_r.
  - destruct (loop_step dispatch i s) as [s1 [e|]] eqn:E; [discriminate|].
    rewrite (IH _ H).
    pose proof (loop_step_dispatched i s) as [Hd _]. rewrite E in Hd.
    simpl in Hd. rewrite Hd. now rewrite <- app_assoc.
Qed.

(** C3: let the loop have come through the events [pre], and let the
    handler raise an exception [e] (an instance of [Exception], which is
    what [except Exception] catches) on the next event [eN].  Then the turn
    for [eN] ends without an exception, it adds to the log exactly one
    record, which holds [eN] and [e], it has handed [eN] to [dispatch] once,
    and the loop goes on with the event [eN1] that follows: [eN1] is handed
    to [dispatch] next, on the dispatcher as the failed handler left it, and
    [eN] is not handed to it again. *)
Theorem loop_fault_isolation (pre post : list event) (eN eN1 : event)
  (s s1 : loop_state event D) (d' : D) (e : exn) :
  loop dispatch pre s = (s1, None) ->
  dispatch eN (dispatcher s1) = (d', Some e) ->
  is_Exception e = true ->
  let s2 := LoopState d'
              (log s1 ++ [LoggedException "Error handling event %r" [eN] e])
              (dispatched s1 ++ [eN]) in
  loop dispatch (pre ++ [eN]) s = (s2, None)
  /\ loop dispatch (pre ++ eN :: eN1 :: post) s = loop dispatch (eN1 :: post) s2
  /\ dispatched (fst (loop_step dispatch eN1 s2))
     = dispatched s ++ pre ++ [eN; eN1]
  /\ dispatcher (fst (loop_step dispatch eN1 s2)) = fst (dispatch eN1 d').
Proof.
  intros Hpre Hd He s2.
  assert (Hstep : loop_step dispatch eN s1 = (s2, None)).
  { unfold loop_step. rewrite Hd, He. reflexivity. }
  repeat split.
  - rewrite loop_app, Hpre. simpl. now rewrite Hstep.
  - rewrite loop_app, Hpre.
    change (loop dispatch (eN :: eN1 :: post) s1)
      with (match loop_step dispatch eN s1 with
            | (s', None) => loop dispatch (eN1 :: post) s'
            | (s', Some x) => (s', Some x)
            end).
    now rewrite Hstep.
  - pose proof (loop_step_dispatched eN1 s2) as [H _]. rewrite H.
    subst s2. simpl. rewrite (loop_dispatched _ _ _ Hpre).
    now rewrite <- !app_assoc.
  - pose proof (loop_step_dispatched eN1 s2) as [_ H]. rewrite H.
    reflexivity.
Qed.

End EventLoop.

(** The theorem at work: events 1, 2, 3, 4 on the sample dispatcher, whose
    handler raises on event 2. *)
Lemma loop_fault_isolation_witness :
  let s := LoopState 0 [] [] in
  let s2 := LoopState 2
              [LoggedException "Error handling event %r" [2] ValueError]
              [1; 2] in
  loop Examples.sample_dispatch [1; 2] s = (s2, None)
  /\ loop Examples.sample_dispatch [1; 2; 3; 4] s
     = loop Examples.sample_dispatch [3; 4] s2
  /\ dispatched (fst (loop_step Examples.sample_dispatch 3 s2))
     = [1; 2; 3]
  /\ dispatcher (fst (loop_step Examples.sample_dispatch 3 s2))
     = 3.
Proof.
  exact (loop_fault_isolation nat nat Examples.sample_dispatch [1] [4] 2 3
           (LoopState 0 [] []) (LoopState 1 [] [1]) 2
           ValueError eq_refl eq_refl eq_refl).
Defined.

End LoopFacts.

(** ** [Tilenol.catch_windows] *)

Module DiscoveryFacts.
Import Py Main.

Section Discovery.

Variable D : Type.
Variable all_windows : D -> wid -> bool.
Variable windows : D -> wid -> bool.
Variable handle_CreateNotifyEvent : xevent -> D -> D * option exn.
Variable handle_MapRequestEvent : xevent -> D -> D * option exn.
Variable root_window : wid.
Variable GetWindowAttributes : wid -> attributes.
Variable GetGeometry : wid -> geometry.

Let catch_window :=
  catch_window D all_windows windows handle_CreateNotifyEvent
    handle_MapRequestEvent root_window GetWindowAttributes GetGeometry.
Let catch_windows :=
  catch_windows D all_windows windows handle_CreateNotifyEvent
    handle_MapRequestEvent root_window GetWindowAttributes GetGeometry.
Let creation_event := creation_event root_window GetWindowAttributes GetGeometry.
Let mapping_event := mapping_event root_window.
Let wants_mapping := wants_mapping GetWindowAttributes.
Let creation_first :=
  creation_first root_window GetWindowAttributes GetGeometry.

Lemma creation_first_nil : creation_first [].
Proof. intros [|? ?] l2 s p w H; discriminate. Qed.

Lemma creation_first_app (evs evs' : list xevent) :
  creation_first evs -> creation_first evs' -> creation_first (evs ++ evs').
Proof.
  intros H H' l1 l2 s p w E.
  apply app_eq_app in E. destruct E as [l [[E1 E2] | [E1 E2]]].
  - destruct l as [|ev l].
    + simpl in E2. symmetry in E2.
      destruct (H' [] l2 s p w E2) as (l0 & E0 & _).
      destruct l0; discriminate.
    + simpl in E2. injection E2 as E0 E2. subst ev.
      exact (H l1 l s p w E1).
  - destruct (H' l l2 s p w E2) as (l0 & -> & Hm).
    exists (evs ++ l0). split; [|exact Hm].
    rewrite E1. now rewrite <- app_assoc.
Qed.

(** The events of one turn of the loop: none, the creation event, or the
    creation event and then the mapping event. *)
Lemma catch_window_events (w : wid) (d : D) :
  let evs := fst (fst (catch_window w d)) in
  evs = []
  \/ (is_input_only (class_ (GetWindowAttributes w)) = false
      /\ (evs = [creation_event w]
          \/ (evs = [creation_event w; mapping_event w]
              /\ wants_mapping w = true))).
Proof.
  unfold catch_window, Main.catch_window, wants_mapping, Main.wants_mapping. simpl.
  destruct (Z.eqb w root_window || all_windows d w)%bool; [now left|].
  destruct (is_input_only (class_ (GetWindowAttributes w))) eqn:Hio;
    [now left|].
  right. split; [reflexivity|].
  destruct (handle_CreateNotifyEvent _ d) as [d1 [e|]]; [now left|].
  destruct (windows d1 w); [|now left].
  destruct (negb _ && negb _)%bool eqn:Hm; [|now left].
  destruct (handle_MapRequestEvent _ d1) as [d2 r]. right. now split.
Qed.

Lemma catch_window_creation_first (w : wid) (d : D) :
  creation_first (fst (fst (catch_window w d))).
Proof.
  destruct (catch_window_events w d) as [-> | [_ [-> | [-> Hm]]]].
  - apply creation_first_nil.
  - intros [|? [|? ?]] l2 s p w' H; discriminate.
  - intros l1 l2 s p w' H.
    unfold creation_event, mapping_event, Main.creation_event,
      Main.mapping_event in H.
    destruct l1 as [|ev0 [|ev1 [|ev2 l1]]]; try discriminate.
    simpl in H. injection H as H0 Hs Hp Hw Hl. subst ev0 s p w' l2.
    exists []. repeat split. exact Hm.
Qed.

(** Whatever the dispatcher does, a mapping event comes right after the
    creation event of its window. *)
Lemma catch_windows_creation_first (children : list wid) (d : D) :
  creation_first (fst (fst (catch_windows children d))).
Proof.
  revert d. induction children as [|w ws IH]; intros d.
  - apply creation_first_nil.
  - unfold catch_windows. simpl.
    pose proof (catch_window_creation_first w d) as Hw.
    unfold catch_window in Hw.
    destruct (Main.catch_window _ _ _ _ _ _ _ _ w d) as [[evs d1] [e|]];
      [exact Hw|].
    specialize (IH d1). unfold catch_windows in IH.
    destruct (Main.catch_windows _ _ _ _ _ _ _ _ ws d1) as [[evs' d2] r].
    simpl in *. now apply creation_first_app.
Qed.

(** Whatever the dispatcher does, no event is about an input-only window. *)
Lemma catch_windows_no_input_only (children : list wid) (d : D) (ev : xevent) :
  In ev (fst (fst (catch_windows children d))) ->
  is_input_only (class_ (GetWindowAttributes (ev_window ev))) = false.
Proof.
  revert d. induction children as [|w ws IH]; intros d; [intros []|].
  unfold catch_windows. simpl.
  pose proof (catch_window_events w d) as Hw. unfold catch_window in Hw.
  destruct (Main.catch_window _ _ _ _ _ _ _ _ w d) as [[evs d1] r].
  simpl in Hw.
  assert (Hevs : In ev evs ->
                 is_input_only (class_ (GetWindowAttributes (ev_window ev)))
                 = false).
  { destruct Hw as [-> | [Hio [-> | [-> _]]]]; simpl;
      intuition (subst; exact Hio). }
  destruct r as [e|]; [exact Hevs|].
  specialize (IH d1). unfold catch_windows in IH.
  destruct (Main.catch_windows _ _ _ _ _ _ _ _ ws d1) as [[evs' d2] r'].
  simpl in *. intros H. apply in_app_or in H. tauto.
Qed.

Lemma catch_windows_app (pre post : list wid) (d : D) :
  catch_windows (pre ++ post) d
  = match catch_windows pre d with
    | (evs, d1, None) =>
        match catch_windows post d1 with
        | (evs', d2, r) => (evs ++ evs', d2, r)
        end
    | (evs, d1, Some e) => (evs, d1, Some e)
    end.
Proof.
  revert d. induction pre as [|w ws IH]; intros d.
  - simpl. now destruct (catch_windows post d) as [[evs' d2] r].
  - unfold catch_windows in *. simpl.
    destruct (Main.catch_window _ _ _ _ _ _ _ _ w d) as [[evs d1] [e|]];
      [reflexivity|].
    rewrite IH.
    destruct (Main.catch_windows _ _ _ _ _ _ _ _ ws d1) as [[evs1 d2] [e|]];
      [reflexivity|].
    destruct (Main.catch_windows _ _ _ _ _ _ _ _ post d2) as [[evs2 d3] r].
    now rewrite app_assoc.
Qed.

(** The two handlers as the loop needs them: neither raises, and the one
    for creation events enters the window in the table [windows]. *)
Hypothesis create_registers : forall ev d,
  snd (handle_CreateNotifyEvent ev d) = None
  /\ windows (fst (handle_CreateNotifyEvent ev d)) (ev_window ev) = true.
Hypothesis map_returns : forall ev d,
  snd (handle_MapRequestEvent ev d) = None.

Lemma catch_window_ok (w : wid) (d : D) :
  exists d',
    catch_window w d
    = (if (Z.eqb w root_window || all_windows d w
           || is_input_only (class_ (GetWindowAttributes w)))%bool
       then []
       else creation_event w
            :: (if wants_mapping w then [mapping_event w] else []),
       d', None).
Proof.
  unfold catch_window, Main.catch_window, wants_mapping, Main.wants_mapping.
  destruct (Z.eqb w root_window || all_windows d w)%bool; simpl;
    [now exists d|].
  destruct (is_input_only (class_ (GetWindowAttributes w))); [now exists d|].
  pose proof (create_registers
                (Main.creation_event root_window GetWindowAttributes
                   GetGeometry w) d) as [Hc Hw].
  destruct (handle_CreateNotifyEvent _ d) as [d1 r]. simpl in Hc, Hw.
  subst r. rewrite Hw.
  destruct (negb _ && negb _)%bool; [|now exists d1].
  pose proof (map_returns (Main.mapping_event root_window w) d1) as Hm.
  destruct (handle_MapRequestEvent _ d1) as [d2 r]. simpl in Hm. subst r.
  now exists d2.
Qed.

Lemma catch_windows_ok (children : list wid) (d : D) :
  exists evs d', catch_windows children d = (evs, d', None).
Proof.
  revert d. induction children as [|w ws IH]; intros d.
  - now exists [], d.
  - unfold catch_windows. simpl.
    destruct (catch_window_ok w d) as [d1 E]. unfold catch_window in E.
    rewrite E. destruct (IH d1) as (evs' & d2 & E'). unfold catch_windows in E'.
    rewrite E'. eauto.
Qed.

(** C4: let neither handler raise, and let the handler of creation events
    enter the window in the dispatcher's table.  Take any child [w] of the
    root window, after the children [pre] and before the children [post].
    Then [catch_windows] hands to the dispatcher the events of [pre], then
    those of [w], then those of [post], and the events of [w] are: none if
    [w] is input-only; and if [w] is not the root window, not known to the
    dispatcher when its turn comes and not input-only, the creation event,
    which carries the parent, the position, the size, the border width and
    the override-redirect flag, and right after it the mapping event exactly
    when the map state is not Unmapped and the window is not
    override-redirect.  Over the whole run no event is about an input-only
    window, and every mapping event stands right after the creation event
    of its window. *)
Theorem catch_windows_events (pre post : list wid) (w : wid) (d0 : D) :
  exists evs_pre d_pre evs_w d_w evs_post d_end,
    catch_windows pre d0 = (evs_pre, d_pre, None)
    /\ catch_window w d_pre = (evs_w, d_w, None)
    /\ catch_windows (pre ++ w :: post) d0
       = (evs_pre ++ evs_w ++ evs_post, d_end, None)
    /\ (is_input_only (class_ (GetWindowAttributes w)) = true -> evs_w = [])
    /\ (w <> root_window ->
        all_windows d_pre w = false ->
        is_input_only (class_ (GetWindowAttributes w)) = false ->
        evs_w
        = CreateNotify 0 w root_window
            (x (GetGeometry w)) (y (GetGeometry w))
            (width (GetGeometry w)) (height (GetGeometry w))
            (border_width (GetGeometry w))
            (attr_override_redirect (GetWindowAttributes w))
          :: (if (negb (is_unmapped (attr_map_state (GetWindowAttributes w)))
                  && negb (attr_override_redirect (GetWindowAttributes w)))%bool
              then [MapRequest 0 root_window w]
              else []))
    /\ (forall ev, In ev (evs_pre ++ evs_w ++ evs_post) ->
          is_input_only (class_ (GetWindowAttributes (ev_window ev))) = false)
    /\ creation_first (evs_pre ++ evs_w ++ evs_post).
Proof.
  destruct (catch_windows_ok pre d0) as (evs_pre & d_pre & Epre).
  destruct (catch_window_ok w d_pre) as [d_w Ew].
  destruct (catch_windows_ok post d_w) as (evs_post & d_end & Epost).
  assert (Eall : catch_windows (pre ++ w :: post) d0
                 = (evs_pre ++ fst (fst (catch_window w d_pre)) ++ evs_post,
                    d_end, None)).
  { rewrite catch_windows_app, Epre.
    change (catch_windows (w :: post) d_pre)
      with (match catch_window w d_pre with
            | (evs, d1, None) =>
                match catch_windows post d1 with
                | (evs', d2, r) => (evs ++ evs', d2, r)
                end
            | (evs, d1, Some e) => (evs, d1, Some e)
            end).
    rewrite Ew, Epost. reflexivity. }
  exists evs_pre, d_pre, (fst (fst (catch_window w d_pre))), d_w, evs_post,
    d_end.
  refine (conj Epre (conj _ (conj Eall (conj _ (conj _ (conj _ _)))))).
  - rewrite Ew. reflexivity.
  - intros Hio. rewrite Ew. simpl. rewrite Hio.
    now rewrite orb_true_r.
  - intros Hroot Hknown Hio. rewrite Ew. simpl.
    apply Z.eqb_neq in Hroot. rewrite Hroot, Hknown, Hio. reflexivity.
  - intros ev Hev.
    apply (catch_windows_no_input_only (pre ++ w :: post) d0).
    now rewrite Eall.
  - pose proof (catch_windows_creation_first (pre ++ w :: post) d0) as H.
    now rewrite Eall in H.
Qed.

End Discovery.

(** The theorem at work: the sample X server, with the children 10, 11, 12
    and 13 of the root window 1 and a dispatcher that knows no window yet;
    the mapped window 10 is taken as [w]. *)
Lemma catch_windows_events_witness :
  exists evs d_end,
    Main.catch_windows (list wid) Examples.sample_known Examples.sample_known
      Examples.sample_create Examples.sample_map 1%Z
      Examples.sample_attributes Examples.sample_geometry
      [10; 11; 12; 13]%Z []
    = (evs, d_end, None)
    /\ evs = [ CreateNotify 0 10 1 0 0 800 600 1 false; MapRequest 0 1 10;
               CreateNotify 0 12 1 0 0 800 600 1 true;
               CreateNotify 0 13 1 0 0 800 600 1 false ]%Z.
Proof.
  destruct (catch_windows_events (list wid) Examples.sample_known
              Examples.sample_known Examples.sample_create Examples.sample_map
              1%Z Examples.sample_attributes Examples.sample_geometry
              (fun ev d => conj eq_refl
                             (eq_trans (f_equal (fun b => orb b _)
                                          (Z.eqb_refl (ev_window ev)))
                                       eq_refl))
              (fun ev d => eq_refl)
              [] [11; 12; 13]%Z 10%Z [])
    as (evs_pre & d_pre & evs_w & d_w & evs_post & d_end & Epre & Ew & Eall
        & _).
  exists (evs_pre ++ evs_w ++ evs_post), d_end.
  split; [exact Eall|].
  assert (C : Main.catch_windows (list wid) Examples.sample_known
                Examples.sample_known Examples.sample_create
                Examples.sample_map 1%Z Examples.sample_attributes
                Examples.sample_geometry [10; 11; 12; 13]%Z []
              = ([ CreateNotify 0 10 1 0 0 800 600 1 false; MapRequest 0 1 10;
                   CreateNotify 0 12 1 0 0 800 600 1 true;
                   CreateNotify 0 13 1 0 0 800 600 1 false ]%Z,
                 [13; 12; 10]%Z, None)) by reflexivity.
  pose proof (eq_trans (eq_sym C) Eall) as E.
  now injection E as <- _.
Defined.

End DiscoveryFacts.

(** ** [Config.gestures] *)

Module GesturesFacts.
Import Py Gestures.

Lemma assoc_In {A} (name : string) (t : list (string * A)) (v : A) :
  assoc name t = Some v -> In (name, v) t.
Proof.
  induction t as [|[n x] t IH]; simpl; [discriminate|].
  destruct (String.eqb_spec name n) as [->|_].
  - intros [= ->]. now left.
  - intros H. right. now apply IH.
Qed.

(** The supported keys are the strings [{n}f-{direction}] with [n] from 2
    to 5 and a registered direction. *)
Lemma is_supported_iff directions (k : pyval) :
  is_supported directions k = true
  <-> exists fing dir,
        In fing fingers /\ In dir (map fst directions)
        /\ k = PStr (gesture_key fing dir).
Proof.
  unfold is_supported, supported_gestures. split.
  - destruct k; try discriminate. intros H.
    apply existsb_exists in H. destruct H as (x & Hx & E).
    apply String.eqb_eq in E. subst x.
    apply in_flat_map in Hx. destruct Hx as (fing & Hf & Hx).
    apply in_map_iff in Hx. destruct Hx as (d & <- & Hd).
    exists fing, (fst d). repeat split; [exact Hf|]. now apply in_map.
  - intros (fing & dir & Hf & Hd & ->).
    apply existsb_exists. exists (gesture_key fing dir).
    split; [|apply String.eqb_refl].
    apply in_flat_map. exists fing. split; [exact Hf|].
    apply in_map_iff in Hd. destruct Hd as (d & <- & Hd).
    apply in_map_iff. now exists d.
Qed.

Lemma supported_not_settings directions (k : pyval) :
  is_supported directions k = true -> key_eqb k (PStr "settings") = false.
Proof.
  intros H. apply is_supported_iff in H.
  destruct H as (fing & dir & Hf & _ & ->).
  simpl in Hf. destruct Hf as [<-|[<-|[<-|[<-|[]]]]]; reflexivity.
Qed.

(** C8: with the direction [up] registered and no gestures in the embedded
    data, the input [{"3f-up": "spawn terminal", "settings":
    {"commit-distance": 400}}] gives a mapping with the one key [3f-up],
    whose record has the built-in detect-distance 50, the commit-distance
    400, the action [["spawn", "terminal"]] and, as its condition, the
    predicate registered for [up]; nothing is logged. *)
Theorem gestures_scenario directions (up : pyval) (data : dict) (l : logs) :
  assoc "up" directions = Some up ->
  dict_get_default (PStr "gestures") (PDict []) data = PDict [] ->
  gestures directions Examples.scenario_gestures data l
  = (Ok [ (PStr "3f-up",
           PDict [ (PStr "detect-distance", PInt 50);
                   (PStr "commit-distance", PInt 400);
                   (PStr "char", PStr "▲");
                   (PStr "action", PList [PStr "spawn"; PStr "terminal"]);
                   (PStr "condition", up) ]) ],
     l).
Proof.
  intros Hup Hdata.
  assert (Hs : is_supported directions (PStr "3f-up") = true).
  { apply is_supported_iff. exists "3", "up". repeat split.
    - simpl. tauto.
    - exact (in_map fst _ _ (assoc_In _ _ _ Hup)). }
  unfold gestures, Examples.scenario_gestures. rewrite Hdata.
  unfold bind, lift, ret. simpl dict_update. cbv iota beta.
  simpl dict_get. cbv iota beta. simpl dict_update. cbv iota beta.
  unfold gestures_loop. rewrite Hs.
  change (key_eqb (PStr "3f-up") (PStr "settings")) with false.
  change (key_eqb (PStr "settings") (PStr "settings")) with true.
  cbv iota.
  unfold gesture_record.
  change (split_gesture (PStr "3f-up")) with (Ok ("3f", "up")).
  unfold rbind at 1. simpl snd. rewrite Hup.
  reflexivity.
Qed.

(** The theorem at work: the sample directions and an empty [self.data]. *)
Lemma gestures_scenario_witness :
  gestures Examples.sample_directions Examples.scenario_gestures [] []
  = (Ok [ (PStr "3f-up",
           PDict [ (PStr "detect-distance", PInt 50);
                   (PStr "commit-distance", PInt 400);
                   (PStr "char", PStr "▲");
                   (PStr "action", PList [PStr "spawn"; PStr "terminal"]);
                   (PStr "condition", PObj "up") ]) ],
     []).
Proof.
  exact (gestures_scenario Examples.sample_directions (PObj "up") [] []
           eq_refl eq_refl).
Defined.

(** *** Keys that are no gestures *)

Lemma key_eqb_sym (a b : pyval) : key_eqb a b = key_eqb b a.
Proof.
  destruct a, b; simpl; try reflexivity;
    try apply String.eqb_sym; apply Z.eqb_sym.
Qed.

Lemma key_eqb_trans (a b c : pyval) :
  key_eqb a b = true -> key_eqb b c = true -> key_eqb a c = true.
Proof.
  destruct a, b, c; simpl; try discriminate; intros H1 H2;
    try (apply Z.eqb_eq in H1; apply Z.eqb_eq in H2; apply Z.eqb_eq;
         congruence);
    try (apply String.eqb_eq in H1; apply String.eqb_eq in H2;
         apply String.eqb_eq; congruence);
    reflexivity.
Qed.

(** After [d[k'] = v], the keys of [d] are the old ones and [k']. *)
Lemma dict_mem_set (k k' v : pyval) (d : dict) :
  dict_mem k (dict_set k' v d) = (key_eqb k k' || dict_mem k d)%bool.
Proof.
  unfold dict_mem. induction d as [|[k2 v2] d IH]; simpl.
  - now destruct (key_eqb k k').
  - destruct (key_eqb k' k2) eqn:E2; simpl.
    + destruct (key_eqb k k2) eqn:E; [now rewrite orb_true_r|].
      destruct (key_eqb k k') eqn:E'; [|reflexivity].
      now rewrite (key_eqb_trans _ _ _ E' E2) in E.
    + destruct (key_eqb k k2); [now rewrite orb_true_r | exact IH].
Qed.

Lemma gestures_loop_spec directions (settings items : dict) :
  (forall k v, In (k, v) items -> is_supported directions k = true ->
               exists val, gesture_record directions settings k v = Ok val) ->
  forall (res : dict) (l : logs),
  exists res',
    gestures_loop directions settings items res l
    = (Ok res', l ++ map not_supported (filter (is_dropped directions) items))
    /\ forall k,
         dict_mem k res'
         = (dict_mem k res
            || existsb (fun kv => is_supported directions (fst kv)
                                  && key_eqb k (fst kv)) items)%bool.
Proof.
  induction items as [|[k v] items IH]; intros H res l.
  - exists res. simpl. rewrite app_nil_r. split; [reflexivity|].
    intros k. now rewrite orb_false_r.
  - assert (H' : forall k0 v0, In (k0, v0) items ->
                 is_supported directions k0 = true ->
                 exists val, gesture_record directions settings k0 v0 = Ok val)
      by (intros k0 v0 Hin; apply H; now right).
    specialize (IH H'). cbn [gestures_loop filter].
    unfold is_dropped at 1. cbn [fst].
    destruct (key_eqb k (PStr "settings")) eqn:Eset.
    + destruct (IH res l) as (res' & E & Hmem). exists res'.
      split; [exact E|]. intros k0. rewrite Hmem. simpl.
      destruct (is_supported directions k) eqn:Es; [|reflexivity].
      now rewrite (supported_not_settings _ _ Es) in Eset.
    + destruct (is_supported directions k) eqn:Es.
      * destruct (H k v (or_introl eq_refl) Es) as [val Eval].
        unfold bind, lift. rewrite Eval.
        destruct (IH (dict_set k (PDict val) res) l) as (res' & E & Hmem).
        exists res'. split; [exact E|]. intros k0. rewrite Hmem.
        rewrite dict_mem_set. simpl. rewrite Es.
        destruct (key_eqb k0 k), (dict_mem k0 res); reflexivity.
      * unfold bind, log_warning.
        destruct (IH res (l ++ [Warning "Gesture %r is not supported" [k]]))
          as (res' & E & Hmem).
        exists res'. split.
        -- rewrite E. simpl. now rewrite <- app_assoc.
        -- intros k0. rewrite Hmem. simpl. now rewrite Es.
Qed.


(** A declaration that compiles: a command string for a supported key,
    when the string has neither [action] nor [=] in it and [shlex.split]
    takes it, and the name of the direction has no [-]. *)
Lemma split_gesture_key (fing dir : string) :
  In fing fingers -> split_on "-" dir = [dir] ->
  split_gesture (PStr (gesture_key fing dir)) = Ok ((fing ++ "f")%string, dir).
Proof.
  intros Hf Hd. unfold split_gesture, gesture_key. simpl in Hf.
  destruct Hf as [<-|[<-|[<-|[<-|[]]]]]; simpl; now rewrite Hd.
Qed.


(** A declaration that does not compile: in a command string, [in] looks
    for [=] among its characters, so a command with an [=] in it is taken
    for a mapping, and [dict.update] raises. *)
Lemma gestures_command_with_equals_raises :
  gestures Examples.sample_directions
    (PDict [(PStr "3f-up", PStr "xterm --title=x")]) [] []
  = (Raise ValueError, []).
Proof. reflexivity. Qed.

End GesturesFacts.

(** ** [Config.rules] *)

Module RulesFacts.
Import Py Rules.

Section Compiler.

Variable all_conditions : list string.
Variable all_actions : list string.

Let compile_items := compile_items all_conditions all_actions.
Let compile_rule := compile_rule all_conditions all_actions.
Let compile_rules := compile_rules all_conditions all_actions.
Let compile_subject := compile_subject all_conditions all_actions.
Let compile_chain := compile_chain all_conditions all_actions.
Let rules := rules all_conditions all_actions.
Let is_unknown := is_unknown all_conditions all_actions.
Let makes_action := makes_action all_conditions all_actions.
Let is_invalid := is_invalid all_conditions all_actions.

Lemma compile_items_unknown (items : dict) (cond act : list instance) :
  existsb is_unknown (map fst items) = true ->
  exists e, compile_items items cond act = Raise e.
Proof.
  revert cond act. induction items as [|[k v] items IH]; intros cond act H;
    [discriminate|].
  simpl in H. unfold compile_items. simpl.
  unfold is_unknown, Rules.is_unknown in H.
  destruct (registered all_conditions k) as [c|].
  - destruct (call_args v) as [a|e]; simpl; [|now exists e].
    apply IH. exact H.
  - destruct (registered all_actions k) as [c|].
    + destruct (call_args v) as [a|e]; simpl; [|now exists e].
      apply IH. exact H.
    + eauto.
Qed.

Lemma compile_items_no_action (items : dict) (cond act c a : list instance) :
  existsb makes_action (map fst items) = false ->
  compile_items items cond act = Ok (c, a) -> a = act.
Proof.
  revert cond act. induction items as [|[k v] items IH]; intros cond act H E.
  - now injection E as _ <-.
  - simpl in H. apply orb_false_elim in H. destruct H as [Hk H].
    unfold compile_items in E. simpl in E. unfold makes_action, Rules.makes_action in Hk.
    destruct (registered all_conditions k) as [kc|].
    + destruct (call_args v) as [x|e]; [|discriminate].
      exact (IH _ _ H E).
    + destruct (registered all_actions k) as [ka|]; discriminate.
Qed.

Lemma compile_rule_invalid (items : dict) :
  is_invalid items = true ->
  exists e, compile_rule (PDict items) = Raise e.
Proof.
  unfold is_invalid, Rules.is_invalid, compile_rule, Rules.compile_rule.
  fold is_unknown makes_action. intros H.
  destruct (existsb is_unknown (map fst items)) eqn:Hu.
  - destruct (compile_items_unknown items [] [] Hu) as [e E].
    unfold compile_items in E. rewrite E. now exists e.
  - simpl in H. apply negb_true_iff in H.
    destruct (Rules.compile_items all_conditions all_actions items [] [])
      as [[c a]|e] eqn:E; [|now exists e].
    rewrite (compile_items_no_action _ _ _ _ _ H E). simpl. eauto.
Qed.

(** A rule that is yielded has an action. *)
Lemma compile_rule_has_action (r : pyval) (c a : list instance) :
  compile_rule r = Ok (c, a) -> a <> [].
Proof.
  unfold compile_rule, Rules.compile_rule. destruct r; try discriminate.
  destruct (Rules.compile_items _ _ d [] []) as [[c' a']|e]; [|discriminate].
  simpl. destruct a'; [discriminate|]. now intros [= _ <-].
Qed.

Lemma compile_rules_app (cls : pyval) (rs1 rs2 : list pyval) :
  compile_rules cls (rs1 ++ rs2)
  = match compile_rules cls rs1 with
    | (ys, None) => (ys ++ fst (compile_rules cls rs2),
                     snd (compile_rules cls rs2))
    | (ys, Some e) => (ys, Some e)
    end.
Proof.
  induction rs1 as [|r rs1 IH]; simpl.
  - now destruct (compile_rules cls rs2).
  - unfold compile_rules in *. simpl.
    destruct (Rules.compile_rule _ _ r) as [ca|e]; [|reflexivity].
    rewrite IH. unfold yield_then.
    now destruct (Rules.compile_rules _ _ cls rs1) as [ys [e|]].
Qed.

Lemma compile_chain_app (xs1 xs2 : list pyval) :
  compile_chain (xs1 ++ xs2)
  = match compile_chain xs1 with
    | (ys, None) => (ys ++ fst (compile_chain xs2), snd (compile_chain xs2))
    | (ys, Some e) => (ys, Some e)
    end.
Proof.
  induction xs1 as [|x xs1 IH]; simpl.
  - now destruct (compile_chain xs2).
  - unfold compile_chain in *. simpl.
    destruct (unpack2 x) as [[cls rs]|e]; [|reflexivity].
    destruct (Rules.compile_subject _ _ cls rs) as [ys [e|]]; [reflexivity|].
    rewrite IH.
    destruct (Rules.compile_chain _ _ xs1) as [ys1 [e|]]; simpl;
      now rewrite ?app_assoc.
Qed.

(** What was yielded has an action, however the run ended. *)
Lemma compile_rules_yields (cls : pyval) (rs : list pyval) (y : rule) :
  In y (fst (compile_rules cls rs)) -> snd y <> [].
Proof.
  induction rs as [|r rs IH]; [intros []|].
  unfold compile_rules in *. simpl.
  destruct (Rules.compile_rule _ _ r) as [[c a]|e] eqn:E; [|intros []].
  simpl. intros [<- | H]; [|now apply IH].
  exact (compile_rule_has_action _ _ _ E).
Qed.

Lemma compile_chain_yields (xs : list pyval) (y : rule) :
  In y (fst (compile_chain xs)) -> snd y <> [].
Proof.
  induction xs as [|x xs IH]; [intros []|].
  unfold compile_chain in *. simpl.
  destruct (unpack2 x) as [[cls v]|e]; [|intros []].
  pose proof (fun rs => compile_rules_yields (normalize_subject cls) rs y)
    as Hr.
  unfold Rules.compile_subject.
  destruct (py_iter v) as [rs|e]; [|intros []].
  specialize (Hr rs). unfold compile_rules in Hr.
  destruct (Rules.compile_rules _ _ _ rs) as [ys [e|]]; simpl in *;
    [exact Hr|].
  intros H. apply in_app_or in H. tauto.
Qed.

Lemma compile_rules_fails (cls : pyval) (rs : list pyval) (r : pyval) (e : exn) :
  In r rs -> compile_rule r = Raise e ->
  exists e', snd (compile_rules cls rs) = Some e'.
Proof.
  intros Hin E. apply in_split in Hin. destruct Hin as (rs1 & rs2 & ->).
  rewrite compile_rules_app.
  destruct (compile_rules cls rs1) as [ys [e1|]]; [now exists e1|].
  unfold compile_rules, compile_rule in *. simpl. rewrite E. now exists e.
Qed.

Lemma compile_chain_fails (xs : list pyval) (x cls v r : pyval)
  (rs : list pyval) (e : exn) :
  In x xs -> unpack2 x = Ok (cls, v) -> py_iter v = Ok rs -> In r rs ->
  compile_rule r = Raise e ->
  exists e', snd (compile_chain xs) = Some e'.
Proof.
  intros Hin Hx Hv Hr E. apply in_split in Hin.
  destruct Hin as (xs1 & xs2 & ->). rewrite compile_chain_app.
  destruct (compile_chain xs1) as [ys [e1|]]; [now exists e1|].
  unfold compile_chain. simpl. rewrite Hx.
  unfold Rules.compile_subject. rewrite Hv.
  destruct (compile_rules_fails (normalize_subject cls) rs r e Hr E)
    as [e' E'].
  unfold compile_rules in E'.
  destruct (Rules.compile_rules _ _ _ rs) as [ys' [e2|]]; [|discriminate].
  now exists e2.
Qed.

Lemma unpack2_items_of (primary : dict) (x : pyval) :
  In x (items_of primary) ->
  exists k v, In (k, v) primary /\ x = PList [k; v]
              /\ unpack2 x = Ok (k, v).
Proof.
  unfold items_of. intros H. apply in_map_iff in H.
  destruct H as ([k v] & <- & H). now exists k, v.
Qed.

Lemma compile_chain_items_of (p1 p2 : dict) (cls v : pyval) :
  compile_chain (items_of (p1 ++ (cls, v) :: p2))
  = match compile_chain (items_of p1) with
    | (ys, None) =>
        match compile_subject cls v with
        | (ys', None) =>
            (ys ++ ys' ++ fst (compile_chain (items_of p2)),
             snd (compile_chain (items_of p2)))
        | (ys', Some e) => (ys ++ ys', Some e)
        end
    | (ys, Some e) => (ys, Some e)
    end.
Proof.
  unfold items_of. rewrite map_app, compile_chain_app. simpl map.
  destruct (compile_chain (map _ p1)) as [ys [e|]]; [reflexivity|].
  unfold compile_chain, compile_subject. simpl.
  now destruct (Rules.compile_subject _ _ cls v) as [ys' [e|]].
Qed.

(** C2: take a rule that has a key registered neither as a condition kind
    nor as an action kind, or that has no key that makes an action
    (whatever conditions it has).  Compiling it raises an exception [e],
    and: (1) wherever it stands among the rules that [rules] comes to, in
    the file's section or in the embedded data's, the run of [rules] ends
    with an exception, and everything yielded before has an action; (2)
    when the rules before it compiled, [rules] raises [e] as soon as it
    comes to this rule: it has yielded the rules before and nothing of this
    rule or of those after it. *)
Theorem rules_reject_invalid_rule (items : dict) :
  is_invalid items = true ->
  exists e,
    compile_rule (PDict items) = Raise e
    /\ (forall primary data x cls v rs,
          In x (chained primary data) ->
          unpack2 x = Ok (cls, v) ->
          py_iter v = Ok rs ->
          In (PDict items) rs ->
          exists ys e',
            rules (PDict primary) data = (ys, Some e')
            /\ forall y, In y ys -> snd y <> [])
    /\ (forall p1 p2 data cls v rs1 rs2 ys1 ys2,
          compile_chain (items_of p1) = (ys1, None) ->
          py_iter v = Ok (rs1 ++ PDict items :: rs2) ->
          compile_rules (normalize_subject cls) rs1 = (ys2, None) ->
          rules (PDict (p1 ++ (cls, v) :: p2)) data
          = (ys1 ++ ys2, Some e)).
Proof.
  intros Hinv. destruct (compile_rule_invalid items Hinv) as [e E].
  exists e. split; [exact E|]. split.
  - intros primary data x cls v rs Hx Hu Hv Hr.
    unfold chained in Hx. unfold rules, Rules.rules.
    destruct (py_iter (dict_get_default (PStr "rules") (PDict []) data))
      as [second|e0].
    + destruct (compile_chain_fails _ _ _ _ _ _ _ Hx Hu Hv Hr E) as [e' E'].
      pose proof (compile_chain_yields (items_of primary ++ second)) as Hy.
      unfold compile_chain in *.
      destruct (Rules.compile_chain _ _ (items_of primary ++ second))
        as [ys r]. simpl in E'. subst r. now exists ys, e'.
    + rewrite app_nil_r in Hx.
      destruct (compile_chain_fails _ _ _ _ _ _ _ Hx Hu Hv Hr E) as [e' E'].
      pose proof (compile_chain_yields (items_of primary)) as Hy.
      unfold compile_chain in *.
      destruct (Rules.compile_chain _ _ (items_of primary)) as [ys r].
      simpl in E'. subst r. now exists ys, e'.
  - intros p1 p2 data cls v rs1 rs2 ys1 ys2 H1 Hv H2.
    assert (Es : compile_subject cls v = (ys2, Some e)).
    { unfold compile_subject, Rules.compile_subject. rewrite Hv.
      fold compile_rules. rewrite compile_rules_app, H2.
      unfold compile_rules, compile_rule in *.
      cbn [Rules.compile_rules]. rewrite E.
      simpl. now rewrite app_nil_r. }
    assert (Ec : forall xs,
               compile_chain (items_of (p1 ++ (cls, v) :: p2) ++ xs)
               = (ys1 ++ ys2, Some e)).
    { intros xs. rewrite compile_chain_app, compile_chain_items_of.
      now rewrite H1, Es. }
    unfold rules, Rules.rules.
    destruct (py_iter (dict_get_default (PStr "rules") (PDict []) data))
      as [second|e0].
    + apply Ec.
    + specialize (Ec []). rewrite app_nil_r in Ec.
      unfold compile_chain in Ec. now rewrite Ec.
Qed.

End Compiler.

(** The theorem at work: in the sample section the second rule for [Gimp]
    has the key [colour]; [rules] yields the global rule and the first rule
    for [Gimp], then raises [NotImplementedError('colour')]. *)
Lemma rules_reject_invalid_rule_witness :
  Rules.rules Examples.sample_conditions Examples.sample_actions
    (PDict Examples.rules_with_unknown_key) []
  = ([ (PNone, [], [Instance "layout" [PStr "Float"] []]);
       (PStr "Gimp", [Instance "has-type" [PStr "utility"] []],
        [Instance "ignore-hints" [PBool true] []]) ],
     Some (NotImplementedError (UnknownKey (PStr "colour")))).
Proof.
  destruct (rules_reject_invalid_rule Examples.sample_conditions
              Examples.sample_actions
              [ (PStr "has-type", PStr "toolbox"); (PStr "colour", PStr "red");
                (PStr "layout", PStr "Float") ] eq_refl)
    as (e & E & _ & H).
  assert (Ee : e = NotImplementedError (UnknownKey (PStr "colour")))
    by (vm_compute in E; now injection E as <-).
  subst e.
  exact (H Examples.global_rules [] [] (PStr "Gimp")
           (PList [ PDict [(PStr "has-type", PStr "utility");
                           (PStr "ignore-hints", PBool true)];
                    PDict [(PStr "has-type", PStr "toolbox");
                           (PStr "colour", PStr "red");
                           (PStr "layout", PStr "Float")];
                    PDict [(PStr "layout", PStr "Tile")] ])
           [ PDict [(PStr "has-type", PStr "utility");
                    (PStr "ignore-hints", PBool true)] ]
           [ PDict [(PStr "layout", PStr "Tile")] ]
           [ (PNone, [], [Instance "layout" [PStr "Float"] []]) ]
           [ (PStr "Gimp", [Instance "has-type" [PStr "utility"] []],
              [Instance "ignore-hints" [PBool true] []]) ]
           eq_refl eq_refl eq_refl).
Defined.

(** A rule with a condition and no action is refused as well. *)
Lemma rules_empty_actions_example :
  Rules.rules Examples.sample_conditions Examples.sample_actions
    (PDict [ (PStr "Gimp",
              PList [PDict [(PStr "has-type", PStr "utility")]]) ]) []
  = ([], Some (NotImplementedError
                 (EmptyActions (PDict [(PStr "has-type", PStr "utility")])))).
Proof. reflexivity. Qed.

(** The rules of the file's section come out in the order of the section
    when they all compile and the embedded data has no rules. *)
Lemma rules_file_order_example :
  Rules.rules Examples.sample_conditions Examples.sample_actions
    (PDict [ (PStr "global", PList [PDict [(PStr "layout", PStr "Float")]]);
             (PStr "Gimp",
              PList [ PDict [(PStr "has-type", PStr "utility");
                             (PStr "ignore-hints", PBool true)];
                      PDict [(PStr "layout", PStr "Tile")] ]) ]) []
  = ([ (PNone, [], [Instance "layout" [PStr "Float"] []]);
       (PStr "Gimp", [Instance "has-type" [PStr "utility"] []],
        [Instance "ignore-hints" [PBool true] []]);
       (PStr "Gimp", [], [Instance "layout" [PStr "Tile"] []]) ],
     None).
Proof. reflexivity. Qed.

(** C7 fails on the code: the second argument of [chain] is the mapping
    [self.data.get('rules', {})] itself, not its [items()], so the loop
    gets its keys.  With the one global rule in the embedded data and an
    empty file section, [for cls, rules in] unpacks the key ['global'] and
    raises [ValueError]; nothing is yielded.  The same section in the file
    gives the rule, with the subject [None]. *)
Lemma rules_embedded_mapping_raises :
  Rules.rules Examples.sample_conditions Examples.sample_actions
    (PDict []) [(PStr "rules", PDict Examples.global_rules)]
  = ([], Some ValueError)
  /\ Rules.rules Examples.sample_conditions Examples.sample_actions
       (PDict Examples.global_rules) []
     = ([(PNone, [], [Instance "layout" [PStr "Float"] []])], None).
Proof. split; reflexivity. Qed.

End RulesFacts.

(** ** [Config.bars] *)

Module BarsFacts.
Import Py Extensions Bars.

Lemma keywords_assoc (d : dict) (kw : list (string * pyval)) (k : string) :
  Rules.keywords d = Ok kw -> assoc k kw = dict_get (PStr k) d.
Proof.
  revert kw. induction d as [|[k' v] d IH]; intros kw H; simpl in H.
  - now injection H as <-.
  - destruct k'; try discriminate.
    destruct (Rules.keywords d) as [r|e]; [|discriminate].
    injection H as <-. simpl. destruct (String.eqb k s); [reflexivity|].
    now apply IH.
Qed.

Lemma dict_get_set_str (k : string) (v : pyval) (d : dict) :
  dict_get (PStr k) (dict_set (PStr k) v d) = Some v.
Proof.
  induction d as [|[k' v'] d IH]; cbn [dict_get dict_set].
  - simpl. now rewrite String.eqb_refl.
  - destruct (key_eqb (PStr k) k') eqn:E; cbn [dict_get]; rewrite E;
      [reflexivity | exact IH].
Qed.

(** A type name that is one or more of [-] and [_] matches [separator]. *)
Lemma separator_match_all (s : string) :
  s <> EmptyString -> all_separator_chars s = true ->
  separator_match s = true.
Proof.
  assert (H : forall s seen, all_separator_chars s = true ->
                             separator_from s seen = (seen || negb (String.eqb s EmptyString))%bool).
  { clear s. induction s as [|c s IH]; intros seen Hs; simpl.
    - now rewrite orb_false_r.
    - simpl in Hs. apply andb_prop in Hs. destruct Hs as [Hc Hs].
      unfold is_separator_char in Hc. rewrite Hc. rewrite (IH true Hs).
      now rewrite orb_true_r. }
  intros Hne Hs. unfold separator_match. rewrite (H s false Hs).
  destruct s; [congruence | reflexivity].
Qed.

Section Builder.

Variable env : ext_env.
Variable widgets : module.
Variable Widget_base : string.
Variable int_of_string : string -> option Z.

Let add_widget := add_widget env widgets Widget_base.
Let add_widgets := add_widgets env widgets Widget_base.
Let build_bar := build_bar env widgets Widget_base int_of_string.
Let resolve := resolve env widgets Widget_base.
Let built := built env widgets Widget_base.
Let buildable := buildable env widgets Widget_base.
Let resolver_log := resolver_log env widgets Widget_base.

Lemma add_widget_spec (right : bool) (winfo : pyval) (loc : locals)
  (w : list widget) (l : logs) :
  buildable right winfo = true ->
  exists loc',
    add_widget right winfo (loc, w) l
    = (Ok (loc', w ++ built right winfo), l ++ resolver_log winfo).
Proof.
  unfold buildable, built, resolver_log, resolve, Bars.buildable, Bars.built,
    Bars.resolver_log, Bars.resolve.
  destruct (declaration winfo) as [[s p]|] eqn:Ed; [|discriminate].
  intros Hb.
  assert (Hloc : bind_winfo winfo loc = Locals (Some (PStr s)) (Some (PDict p))).
  { destruct winfo as [| | |s0|?|d|?|?]; try discriminate.
    - now injection Ed as <- <-.
    - destruct d as [|[[| | |s0|?|?|?|?] [| | | |?|p0|?|?]] d];
        try discriminate.
      now injection Ed as <- <-. }
  unfold add_widget, Bars.add_widget. simpl fst. simpl snd. rewrite Hloc.
  unfold normalize_typ. simpl typ. simpl params.
  fold (normalized s). unfold bind at 1. unfold lift at 1.
  assert (Hp : exists q,
             (if right then lift (set_right (Some (PDict p)))
              else ret (PDict p)) l = (Ok q, l)
             /\ (if right then Some q else Some (PDict p))
                = Some (PDict (final_params right p))).
  { destruct right; simpl; eexists; split; reflexivity. }
  destruct Hp as (q & Eq & Eloc). unfold bind at 1. rewrite Eq, Eloc.
  fold (normalized s). unfold bind at 1.
  rewrite (ResolverFacts.get_extension_class_log env (normalized s) "widgets"
             widgets Widget_base PNone l).
  destruct (get_extension_class env (normalized s) "widgets" widgets
              Widget_base PNone []) as [r ws]. simpl fst in *. simpl snd.
  destruct r as [[| | | | | |c|]|e]; try discriminate.
  - unfold ret. rewrite app_nil_r. eauto.
  - simpl params. unfold keyword_args, bind, lift, ret.
    destruct (Rules.keywords (final_params right p)) as [kw|e];
      [|discriminate].
    eauto.
Qed.

Lemma add_widgets_spec (right : bool) (winfos : list pyval) :
  forallb (buildable right) winfos = true ->
  forall (loc : locals) (w : list widget) (l : logs),
  exists loc',
    add_widgets right winfos (loc, w) l
    = (Ok (loc', w ++ flat_map (built right) winfos),
       l ++ flat_map resolver_log winfos).
Proof.
  induction winfos as [|winfo winfos IH]; intros H loc w l.
  - exists loc. simpl. now rewrite !app_nil_r.
  - simpl in H. apply andb_prop in H. destruct H as [Hb H].
    destruct (add_widget_spec right winfo loc w l Hb) as [loc1 E1].
    destruct (IH H loc1 (w ++ built right winfo)
                (l ++ resolver_log winfo)) as [loc2 E2].
    exists loc2. unfold add_widgets, add_widget in *. simpl.
    unfold bind at 1. rewrite E1, E2.
    now rewrite <- !app_assoc.
Qed.

(** Every widget of the right side has the parameter [right=True]. *)
Lemma built_right (winfo : pyval) (x : widget) :
  In x (built true winfo) ->
  assoc "right" (widget_params x) = Some (PBool true).
Proof.
  unfold built, Bars.built. destruct (declaration winfo) as [[s p]|]; [|intros []].
  fold (resolve (normalized s)).
  destruct (fst (resolve (normalized s))) as [[| | | | | |c|]|e];
    try (intros []).
  destruct (Rules.keywords (final_params true p)) as [kw|e] eqn:E;
    [|intros []].
  intros [<- | []]. simpl. rewrite (keywords_assoc _ _ _ E).
  apply dict_get_set_str.
Qed.

(** C10: take a bar whose widget declarations, [rs] on the right and [ls]
    on the left, are type names or mappings from a type name to the
    parameters, and let the resolver return for each of them.  Then
    [bars] builds the bar: its widgets are those of [rs], from the last to
    the first, then those of [ls], each of the class the resolver gives for
    its type name, and a declaration for which the resolver gives [None]
    adds no widget and nothing to the log (the log gets what the resolver
    writes and no more).  Every widget of the right side has the parameter
    [right=True].  A type name made of [-] and [_] only is treated as the
    type name [Sep]. *)
Theorem bars_widgets (b0 b1 b2 b3 : dict) (rs ls : list pyval)
  (screen : pyval) (sno : Z) (opts : list (string * pyval))
  (loc : locals) (l : logs) :
  pop_list "right" b0 = (PList rs, b1) ->
  pop_list "left" b1 = (PList ls, b2) ->
  dict_pop (PStr "screen") (PInt 0) b2 = (screen, b3) ->
  py_int int_of_string screen = Ok sno ->
  Rules.keywords b3 = Ok opts ->
  forallb (buildable true) rs = true ->
  forallb (buildable false) ls = true ->
  (exists loc',
     build_bar (PDict b0) loc l
     = (Ok (loc', (sno, Bar (flat_map (built true) (rev rs)
                             ++ flat_map (built false) ls) opts)),
        l ++ flat_map resolver_log (rev rs) ++ flat_map resolver_log ls))
  /\ (forall winfo x, In winfo rs -> In x (built true winfo) ->
        assoc "right" (widget_params x) = Some (PBool true))
  /\ (forall right winfo,
        fst (resolve (match declaration winfo with
                      | Some (s, _) => normalized s
                      | None => EmptyString
                      end)) = Ok PNone ->
        built right winfo = [])
  /\ (forall s, s <> EmptyString -> all_separator_chars s = true ->
        normalized s = "Sep"
        /\ forall right p st l0,
             add_widget right (PDict [(PStr s, p)]) st l0
             = add_widget right (PDict [(PStr "Sep", p)]) st l0
             /\ add_widget right (PStr s) st l0
                = add_widget right (PStr "Sep") st l0).
Proof.
  intros Hr Hl Hs Hsno Hopts Hbr Hbl.
  split; [|split; [|split]].
  - assert (Hbr' : forallb (buildable true) (rev rs) = true).
    { apply forallb_forall. intros x Hx. apply in_rev in Hx.
      revert x Hx. now apply forallb_forall. }
    destruct (add_widgets_spec true (rev rs) Hbr' loc [] l) as [loc1 E1].
    destruct (add_widgets_spec false ls Hbl loc1
                ([] ++ flat_map (built true) (rev rs))
                (l ++ flat_map resolver_log (rev rs))) as [loc2 E2].
    exists loc2. unfold build_bar, Bars.build_bar. rewrite Hr.
    unfold py_reversed, py_iter, rbind, bind at 1, lift at 1.
    unfold bind at 1. fold add_widgets. rewrite E1. rewrite Hl.
    unfold bind at 1, lift at 1. unfold bind at 1. rewrite E2. rewrite Hs.
    unfold bind, lift, ret. rewrite Hsno, Hopts. simpl.
    now rewrite <- app_assoc.
  - intros winfo x _. apply built_right.
  - intros right winfo H. unfold built, Bars.built.
    destruct (declaration winfo) as [[s p]|]; [|reflexivity].
    fold (resolve (normalized s)). now rewrite H.
  - intros s Hne Hsep.
    assert (En : normalized s = "Sep")
      by (unfold normalized; now rewrite (separator_match_all s Hne Hsep)).
    split; [exact En|]. intros right p st l0.
    unfold add_widget, Bars.add_widget. cbn [bind_winfo].
    change (normalize_typ (Locals (Some (PStr s)) (Some p)))
      with (Ok (normalized s)).
    change (normalize_typ (Locals (Some (PStr s)) (Some (PDict []))))
      with (Ok (normalized s)).
    rewrite En. split; reflexivity.
Qed.

End Builder.

(** The theorem at work: the sample bar on the sample installation.  The
    widget [Nope] is left out without a word, [---] becomes a [Sep], the
    widgets of the right side have [right=True], and the dotted name
    [examples.Missing] is left out with the resolver's warning. *)
Lemma bars_widgets_witness :
  exists loc',
    build_bar Examples.sample_env Examples.widgets_module "Widget"
      (fun _ => None) (PDict Examples.sample_bar) (Locals None None) []
    = (Ok (loc',
           (0%Z,
            Bar [ Widget (PClass "Sep") [("right", PBool true)];
                  Widget (PClass "Clock") [("right", PBool true)];
                  Widget (PClass "Clock") [("format", PStr "%H:%M")] ]
                [("position", PStr "top")])),
       [Warning "Class %r is not available" [PStr "examples.Missing"]]).
Proof.
  destruct (bars_widgets Examples.sample_env Examples.widgets_module "Widget"
              (fun _ => None) Examples.sample_bar
              (tl Examples.sample_bar) (tl (tl Examples.sample_bar))
              [(PStr "position", PStr "top")]
              [ PStr "Clock"; PStr "---"; PDict [(PStr "Nope", PDict [])] ]
              [ PDict [(PStr "Clock", PDict [(PStr "format", PStr "%H:%M")])];
                PStr "examples.Missing" ]
              (PInt 0) 0%Z [("position", PStr "top")] (Locals None None) []
              eq_refl eq_refl eq_refl eq_refl eq_refl eq_refl eq_refl)
    as [[loc' E] _].
  exists loc'. exact E.
Defined.

(** The same bar through [bars], as the one item of the [bars] section. *)
Lemma bars_example :
  bars Examples.sample_env Examples.widgets_module "Widget" (fun _ => None)
    [(PStr "bars", PList [PDict Examples.sample_bar])] (PDict []) []
  = (([ (0%Z,
         Bar [ Widget (PClass "Sep") [("right", PBool true)];
               Widget (PClass "Clock") [("right", PBool true)];
               Widget (PClass "Clock") [("format", PStr "%H:%M")] ]
             [("position", PStr "top")]) ], None),
     [Warning "Class %r is not available" [PStr "examples.Missing"]]).
Proof. reflexivity. Qed.

End BarsFacts.

(** ** [PathGen] *)

Module PathsFacts.
Import Py Extensions Paths.

Lemma append_assoc (a b c : string) : ((a ++ b) ++ c = a ++ b ++ c)%string.
Proof. induction a as [|x a IH]; simpl; [reflexivity | now rewrite IH]. Qed.

Lemma has_char_append (c : ascii) (a b : string) :
  has_char c (a ++ b) = (has_char c a || has_char c b)%bool.
Proof.
  induction a as [|x a IH]; simpl; [reflexivity|].
  rewrite IH. now rewrite orb_assoc.
Qed.

(** Splitting and the separator *)
Lemma split_on_nonnil (c : ascii) (s : string) : split_on c s <> [].
Proof.
  induction s as [|x s IH]; simpl; [discriminate|].
  destruct (Ascii.eqb x c); [discriminate|].
  destruct (split_on c s); [congruence | discriminate].
Qed.

Lemma split_on_plain (c : ascii) (s : string) :
  has_char c s = false -> split_on c s = [s].
Proof.
  induction s as [|x s IH]; simpl; [reflexivity|].
  intros H. apply orb_false_elim in H. destruct H as [Hx Hs].
  rewrite Hx, (IH Hs). reflexivity.
Qed.

Lemma split_on_append (c : ascii) (a rest : string) :
  has_char c a = false ->
  split_on c (a ++ String c rest) = a :: split_on c rest.
Proof.
  induction a as [|x a IH]; simpl.
  - intros _. now rewrite Ascii.eqb_refl.
  - intros H. apply orb_false_elim in H. destruct H as [Hx Ha].
    rewrite Hx, (IH Ha). reflexivity.
Qed.

Lemma split_on_parts (c : ascii) (s w : string) :
  In w (split_on c s) -> has_char c w = false.
Proof.
  revert w. induction s as [|x s IH]; simpl; intros w H.
  - destruct H as [<-|[]]. reflexivity.
  - destruct (Ascii.eqb x c) eqn:E.
    + destruct H as [<-|H]; [reflexivity | now apply IH].
    + destruct (split_on c s) as [|w0 ws] eqn:Es.
      * destruct H as [<-|[]]. simpl. now rewrite E.
      * destruct H as [<-|H].
        -- simpl. rewrite E. apply IH. now left.
        -- apply IH. now right.
Qed.

Lemma split_on_concat (c : ascii) (parts : list string) :
  parts <> [] ->
  (forall p, In p parts -> has_char c p = false) ->
  split_on c (String.concat (String c EmptyString) parts) = parts.
Proof.
  induction parts as [|p parts IH]; [congruence|]. intros _ H.
  destruct parts as [|q parts].
  - simpl. apply split_on_plain. apply H. now left.
  - change (String.concat (String c EmptyString) (p :: q :: parts))
      with (p ++ String c EmptyString
              ++ String.concat (String c EmptyString) (q :: parts))%string.
    change (String c EmptyString ++ ?x)%string with (String c x).
    rewrite split_on_append by (apply H; now left).
    rewrite IH; [reflexivity | discriminate |].
    intros r Hr. apply H. now right.
Qed.

Section FileSystem.

Variable environ : string -> option string.
Variable expanduser : string -> string.
Variable path_exists : string -> bool.
Variable json_load : string -> result pyval.
Variable yaml_load : string -> result pyval.

Let PathGen_dirs := PathGen_dirs environ expanduser.
Let find_ext := find_ext path_exists.
Let find_dir := find_dir path_exists.
Let find_file := find_file path_exists.
Let get_config := get_config path_exists json_load yaml_load.
Let Config_init := Config_init environ expanduser path_exists json_load yaml_load.

(** X1: with a variable for the list of directories and a default for
    it, as [Config] makes its [PathGen]s, [self.dirs] is the expanded home
    directory ([dir_env], or its default) followed by the parts of the list
    between the colons, in order, without the empty ones.  That is: when
    the list is the parts [parts], none of which holds a colon, joined with
    colons, the entries after the first are the parts that are not empty,
    in their order (a list that begins or ends with a colon, or has two in
    a row, loses these empty parts and no other); and in any case no entry
    after the first is empty or holds a colon. *)
Theorem PathGen_dirs_entries (dir_env dir_default key dflt : string) :
  let home := expanduser (match environ dir_env with
                          | Some v => v
                          | None => dir_default
                          end) in
  let v := match environ key with
           | Some v => v
           | None => dflt
           end in
  exists rest,
    PathGen_dirs dir_env dir_default (Some key) (Some dflt)
    = Ok (home :: rest)
    /\ (forall d, In d rest -> d <> EmptyString /\ has_char ":" d = false)
    /\ (forall parts,
          (forall p, In p parts -> has_char ":" p = false) ->
          v = String.concat ":" parts ->
          rest = filter (fun p => negb (String.eqb p EmptyString)) parts).
Proof.
  intros home v. exists (filter nonempty (split_on ":" v)).
  split; [|split].
  - unfold PathGen_dirs, Paths.PathGen_dirs, environ_get, v, home.
    now destruct (environ key).
  - intros d Hd. apply filter_In in Hd. destruct Hd as [Hd Hn]. split.
    + unfold nonempty in Hn. apply negb_true_iff in Hn.
      now apply String.eqb_neq.
    + exact (split_on_parts _ _ _ Hd).
  - intros parts Hp ->. destruct parts as [|p parts]; [reflexivity|].
    rewrite (split_on_concat ":" (p :: parts)); [reflexivity|discriminate|].
    intros q Hq. apply Hp, Hq.
Qed.

Lemma find_ext_find (dir name : string) (exts : list string) :
  find_ext dir name exts
  = find path_exists (map (fun ext => path_join dir (name ++ ext)) exts).
Proof.
  induction exts as [|ext exts IH]; simpl; [reflexivity|].
  unfold find_ext in *. simpl.
  destruct (path_exists (path_join dir (name ++ ext))); [reflexivity|].
  exact IH.
Qed.

Lemma find_app {A} (p : A -> bool) (l1 l2 : list A) :
  find p (l1 ++ l2)
  = match find p l1 with
    | Some x => Some x
    | None => find p l2
    end.
Proof.
  induction l1 as [|x l1 IH]; simpl; [reflexivity|].
  destruct (p x); [reflexivity | exact IH].
Qed.

Lemma find_dir_find (dirs exts : list string) (name : string) :
  find_dir dirs exts name = find path_exists (candidates dirs exts name).
Proof.
  induction dirs as [|dir dirs IH]; simpl; [reflexivity|].
  unfold find_dir in *. simpl. fold find_ext.
  rewrite find_app, <- find_ext_find.
  destruct (find_ext dir name exts); [reflexivity | exact IH].
Qed.

Lemma find_first {A} (p : A -> bool) (l : list A) (x : A) :
  find p l = Some x <->
  exists l1 l2, l = l1 ++ x :: l2 /\ p x = true
                /\ forall y, In y l1 -> p y = false.
Proof.
  split.
  - induction l as [|y l IH]; simpl; [discriminate|].
    destruct (p y) eqn:E.
    + intros [= ->]. exists [], l. repeat split; [exact E | intros ? []].
    + intros H. destruct (IH H) as (l1 & l2 & -> & Hx & Hl1).
      exists (y :: l1), l2. repeat split; [exact Hx|].
      intros z [<-|Hz]; [exact E | now apply Hl1].
  - intros (l1 & l2 & -> & Hx & Hl1). rewrite find_app.
    assert (E : find p l1 = None).
    { clear -Hl1. induction l1 as [|y l1 IH]; simpl; [reflexivity|].
      rewrite (Hl1 y (or_introl eq_refl)). apply IH.
      intros z Hz. apply Hl1. now right. }
    rewrite E. simpl. now rewrite Hx.
Qed.

(** X2: [find_file] tries the file names directory by directory, and in a
    directory extension by extension, and returns the first that exists:
    it returns [f] exactly when [f] exists and stands, among the names it
    tries, after names that do not exist.  When none exists it returns
    [None] if the file is not required, and raises if it is. *)
Theorem find_file_first_match (dirs exts : list string) (name : string)
  (required : bool) :
  (forall f,
     find_file dirs exts name required = Ok (Some f) <->
     exists l1 l2,
       candidates dirs exts name = l1 ++ f :: l2
       /\ path_exists f = true
       /\ forall g, In g l1 -> path_exists g = false)
  /\ ((forall g, In g (candidates dirs exts name) -> path_exists g = false) ->
      find_file dirs exts name false = Ok None
      /\ exists e, find_file dirs exts name true = Raise e).
Proof.
  unfold find_file, Paths.find_file. fold find_dir.
  rewrite find_dir_find. split.
  - intros f. rewrite <- find_first.
    destruct (find path_exists (candidates dirs exts name)) as [g|].
    + split; intros [= ->]; reflexivity.
    + split; [|discriminate].
      destruct required; [destruct dirs|]; discriminate.
  - intros H.
    assert (E : find path_exists (candidates dirs exts name) = None).
    { destruct (find path_exists (candidates dirs exts name)) as [g|] eqn:E;
        [|reflexivity].
      apply find_some in E. destruct E as [Hin Hg].
      now rewrite (H g Hin) in Hg. }
    rewrite E. split; [reflexivity|]. destruct dirs; eauto.
Qed.

Lemma ends_with_append (suffix a : string) :
  ends_with suffix (a ++ suffix) = true.
Proof.
  induction a as [|x a IH]; cbn [ends_with append].
  - destruct suffix; cbn [ends_with]; now rewrite String.eqb_refl.
  - rewrite IH. apply orb_true_r.
Qed.

Lemma ends_with_elim (suffix s : string) :
  ends_with suffix s = true -> exists a, s = (a ++ suffix)%string.
Proof.
  induction s as [|x s IH]; cbn [ends_with].
  - rewrite orb_false_r. intros H. apply String.eqb_eq in H.
    exists EmptyString. exact H.
  - intros H. apply orb_prop in H. destruct H as [H|H].
    + apply String.eqb_eq in H. exists EmptyString. exact H.
    + destruct (IH H) as [a ->]. now exists (String x a).
Qed.

Lemma length_append (a b : string) :
  String.length (a ++ b) = String.length a + String.length b.
Proof. induction a as [|x a IH]; simpl; [reflexivity | now rewrite IH]. Qed.

Lemma append_same_length_tail (a b s1 s2 : string) :
  String.length s1 = String.length s2 ->
  (a ++ s1 = b ++ s2)%string -> s1 = s2.
Proof.
  revert b. induction a as [|x a IH]; intros [|y b] Hl H; simpl in H.
  - exact H.
  - subst s1. simpl in Hl. rewrite length_append in Hl. lia.
  - subst s2. simpl in Hl. rewrite length_append in Hl. lia.
  - injection H as _ H. exact (IH b Hl H).
Qed.

Lemma path_join_suffix (a b : string) :
  exists x, path_join a b = (x ++ b)%string.
Proof.
  unfold path_join. destruct (String.prefix "/" b).
  - now exists EmptyString.
  - destruct (String.eqb a EmptyString || ends_with_sep a)%bool.
    + now exists a.
    + exists (a ++ "/")%string. now rewrite append_assoc.
Qed.

Lemma candidate_json (dir name : string) :
  ends_with ".json" (path_join dir (name ++ ".json")) = true.
Proof.
  destruct (path_join_suffix dir (name ++ ".json")) as [x ->].
  rewrite <- append_assoc. apply ends_with_append.
Qed.

Lemma candidate_yaml (dir name : string) :
  ends_with ".json" (path_join dir (name ++ ".yaml")) = false
  /\ ends_with ".yaml" (path_join dir (name ++ ".yaml")) = true.
Proof.
  destruct (path_join_suffix dir (name ++ ".yaml")) as [x ->].
  rewrite <- append_assoc. split; [|apply ends_with_append].
  destruct (ends_with ".json" ((x ++ name) ++ ".yaml")) eqn:E;
    [|reflexivity].
  apply ends_with_elim in E. destruct E as [a E].
  apply append_same_length_tail in E; [discriminate | reflexivity].
Qed.

(** X3: [get_config] reads the first file [find_file] finds and nothing
    else.  Let no file of the name exist in the directories [d1].  If in
    the next directory the [.json] file exists, what [json.load] makes of
    it is returned, whether or not a [.yaml] file is beside it; if only the
    [.yaml] file exists, what [yaml.load] makes of it is returned: the
    directories after it and the default [data] play no part.  If no file
    exists in any directory, the default is returned when there is one, and
    the call raises when there is none. *)
Theorem get_config_precedence (d1 d2 : list string) (dir name : string)
  (data : option pyval) :
  (forall g, In g (candidates d1 default_extensions ("tilenol/" ++ name)) ->
             path_exists g = false) ->
  let json := path_join dir (("tilenol/" ++ name) ++ ".json") in
  let yaml := path_join dir (("tilenol/" ++ name) ++ ".yaml") in
  (path_exists json = true ->
   get_config (d1 ++ dir :: d2) default_extensions name data
   = json_load json)
  /\ (path_exists json = false -> path_exists yaml = true ->
      get_config (d1 ++ dir :: d2) default_extensions name data
      = yaml_load yaml)
  /\ ((forall g,
         In g (candidates (dir :: d2) default_extensions
                 ("tilenol/" ++ name)) -> path_exists g = false) ->
      (forall d,
         get_config (d1 ++ dir :: d2) default_extensions name (Some d)
         = Ok d)
      /\ exists e,
           get_config (d1 ++ dir :: d2) default_extensions name None
           = Raise e).
Proof.
  unfold get_config, Paths.get_config. fold find_file.
  generalize ("tilenol/" ++ name)%string. intros n H1.
  set (json := path_join dir (n ++ ".json")).
  set (yaml := path_join dir (n ++ ".yaml")).
  assert (E1 : find path_exists (candidates d1 default_extensions n) = None).
  { destruct (find path_exists _) as [g|] eqn:E; [|reflexivity].
    apply find_some in E. destruct E as [Hin Hg].
    now rewrite (H1 g Hin) in Hg. }
  assert (Ef : forall required,
             find_file (d1 ++ dir :: d2) default_extensions n required
             = match find path_exists
                       (candidates (dir :: d2) default_extensions n) with
               | Some f => Ok (Some f)
               | None => if required
                         then Raise (OtherException "RuntimeError")
                         else Ok None
               end).
  { intros required. unfold find_file, Paths.find_file. fold find_dir.
    rewrite find_dir_find.
    assert (Ec : candidates (d1 ++ dir :: d2) default_extensions n
                 = candidates d1 default_extensions n
                   ++ candidates (dir :: d2) default_extensions n)
      by apply flat_map_app.
    rewrite Ec, find_app, E1.
    destruct (find path_exists (candidates (dir :: d2) default_extensions n));
      [reflexivity|].
    destruct required; [|reflexivity]. now destruct d1. }
  assert (Ed : candidates (dir :: d2) default_extensions n
               = json :: yaml :: candidates d2 default_extensions n)
    by reflexivity.
  split; [|split].
  - intros Hj. rewrite Ef, Ed. cbn [find]. rewrite Hj. cbn [rbind].
    unfold json. now rewrite candidate_json.
  - intros Hj Hy. rewrite Ef, Ed. cbn [find]. rewrite Hj, Hy. cbn [rbind].
    unfold yaml. destruct (candidate_yaml dir n) as [-> ->]. reflexivity.
  - intros H2.
    assert (E2 : find path_exists
                   (candidates (dir :: d2) default_extensions n) = None).
    { destruct (find path_exists
                  (candidates (dir :: d2) default_extensions n))
        as [g|] eqn:E; [|reflexivity].
      apply find_some in E. destruct E as [Hin Hg].
      now rewrite (H2 g Hin) in Hg. }
    split.
    + intros d. rewrite Ef, E2. reflexivity.
    + rewrite Ef, E2. cbn [rbind]. eauto.
Qed.

Lemma dict_get_set (k k' v : pyval) (d : dict) :
  dict_get k (dict_set k' v d)
  = if key_eqb k k' then Some v else dict_get k d.
Proof.
  induction d as [|[k2 v2] d IH]; cbn [dict_get dict_set].
  - reflexivity.
  - destruct (key_eqb k' k2) eqn:E2; cbn [dict_get].
    + destruct (key_eqb k k') eqn:E.
      * now rewrite (GesturesFacts.key_eqb_trans _ _ _ E E2).
      * destruct (key_eqb k k2) eqn:E'; [|reflexivity].
        rewrite GesturesFacts.key_eqb_sym in E2.
        now rewrite (GesturesFacts.key_eqb_trans _ _ _ E' E2) in E.
    + rewrite IH. destruct (key_eqb k k2) eqn:E'; [|reflexivity].
      destruct (key_eqb k k') eqn:E; [|reflexivity].
      rewrite GesturesFacts.key_eqb_sym in E.
      now rewrite (GesturesFacts.key_eqb_trans _ _ _ E E') in E2.
Qed.

Lemma dict_get_setdefault (k k' v : pyval) (d : dict) :
  dict_get k (dict_setdefault k' v d)
  = match dict_get k d with
    | Some x => Some x
    | None => if key_eqb k k' then Some v else None
    end.
Proof.
  unfold dict_setdefault. destruct (dict_get k' d) as [x|] eqn:E'.
  - destruct (dict_get k d) as [y|] eqn:E; [reflexivity|].
    destruct (key_eqb k k') eqn:Ek; [|reflexivity].
    assert (dict_get k d = dict_get k' d) as Hk.
    { clear -Ek. induction d as [|[k2 v2] d IH]; simpl; [reflexivity|].
      destruct (key_eqb k k2) eqn:E1, (key_eqb k' k2) eqn:E2;
        try reflexivity; try exact IH.
      - rewrite GesturesFacts.key_eqb_sym in Ek.
        now rewrite (GesturesFacts.key_eqb_trans _ _ _ Ek E1) in E2.
      - now rewrite (GesturesFacts.key_eqb_trans _ _ _ Ek E2) in E1. }
    congruence.
  - rewrite dict_get_set. destruct (key_eqb k k') eqn:Ek.
    + assert (dict_get k d = dict_get k' d) as Hk.
      { clear -Ek. induction d as [|[k2 v2] d IH]; simpl; [reflexivity|].
        destruct (key_eqb k k2) eqn:E1, (key_eqb k' k2) eqn:E2;
          try reflexivity; try exact IH.
        - rewrite GesturesFacts.key_eqb_sym in Ek.
          now rewrite (GesturesFacts.key_eqb_trans _ _ _ Ek E1) in E2.
        - now rewrite (GesturesFacts.key_eqb_trans _ _ _ Ek E2) in E1. }
      now rewrite Hk, E'.
    + now destruct (dict_get k d).
Qed.

(** X4: when the configuration file is a mapping [d] (or there is none,
    and [d] is empty), [Config()] leaves in [self.data] the mapping [d]
    with the two defaults filled in: [screen-dpi] is the file's value, or
    96 if the file has none; [auto-screen-configuration] is the file's
    value, or [True]; every other key is as in the file. *)
Theorem Config_init_defaults (d : dict) :
  let config_dirs :=
    expanduser (match environ "XDG_CONFIG_HOME" with
                | Some v => v
                | None => "~/.config"
                end)
    :: filter nonempty
         (split_on ":" (match environ "XDG_CONFIG_DIRS" with
                        | Some v => v
                        | None => "/etc/xdg"
                        end)) in
  get_config config_dirs default_extensions "config" (Some (PDict []))
  = Ok (PDict d) ->
  exists data,
    Config_init = Ok (config_dirs, data)
    /\ dict_get (PStr "screen-dpi") data
       = Some (dict_get_default (PStr "screen-dpi") (PInt 96) d)
    /\ dict_get (PStr "auto-screen-configuration") data
       = Some (dict_get_default (PStr "auto-screen-configuration")
                 (PBool true) d)
    /\ forall k,
         key_eqb k (PStr "screen-dpi") = false ->
         key_eqb k (PStr "auto-screen-configuration") = false ->
         dict_get k data = dict_get k d.
Proof.
  intros config_dirs Hc.
  exists (dict_setdefault (PStr "screen-dpi") (PInt 96)
            (dict_setdefault (PStr "auto-screen-configuration")
               (PBool true) d)).
  split; [|split; [|split]].
  - unfold Config_init, Paths.Config_init, Paths.PathGen_dirs, environ_get.
    destruct (environ "XDG_CONFIG_DIRS"), (environ "XDG_DATA_DIRS");
      cbn [rbind app]; fold config_dirs; fold get_config; rewrite Hc;
      reflexivity.
  - rewrite !dict_get_setdefault. unfold dict_get_default.
    now destruct (dict_get (PStr "screen-dpi") d).
  - rewrite !dict_get_setdefault. unfold dict_get_default.
    now destruct (dict_get (PStr "auto-screen-configuration") d).
  - intros k H1 H2. rewrite !dict_get_setdefault, H1, H2.
    now destruct (dict_get k d).
Qed.

End FileSystem.

(** X3 at work: the file [tilenol/bars.yaml] in [/etc/xdg] and nothing in
    the home directory. *)
Lemma get_config_precedence_witness :
  Paths.get_config
    (fun f => String.eqb f "/etc/xdg/tilenol/bars.yaml")
    (fun f => Ok (PStr f)) (fun f => Ok (PList [PStr f]))
    ["/home/u/.config"; "/etc/xdg"; "/usr/share"] default_extensions "bars"
    (Some (PDict []))
  = Ok (PList [PStr "/etc/xdg/tilenol/bars.yaml"]).
Proof.
  refine (proj1 (proj2
            (get_config_precedence
               (fun f => String.eqb f "/etc/xdg/tilenol/bars.yaml")
               (fun f => Ok (PStr f)) (fun f => Ok (PList [PStr f]))
               ["/home/u/.config"] ["/usr/share"] "/etc/xdg" "bars"
               (Some (PDict [])) _))
            eq_refl eq_refl).
  intros g [<-|[<-|[]]]; reflexivity.
Defined.

(** X4 at work: no configuration file at all. *)
Lemma Config_init_defaults_witness :
  exists data,
    Paths.Config_init (fun _ => None) (fun s => s) (fun _ => false)
      (fun f => Ok PNone) (fun f => Ok PNone)
    = Ok (["~/.config"; "/etc/xdg"], data)
    /\ dict_get (PStr "screen-dpi") data = Some (PInt 96)
    /\ dict_get (PStr "auto-screen-configuration") data = Some (PBool true).
Proof.
  destruct (Config_init_defaults (fun _ => None) (fun s => s)
              (fun _ => false) (fun f => Ok PNone) (fun f => Ok PNone) []
              eq_refl) as (data & E & H1 & H2 & _).
  exists data. repeat split; assumption.
Defined.

End PathsFacts.

(** ** [Config._pairs], [Config._command], [Config.groups],
    [Config.all_layouts] *)

Module LayoutsFacts.
Import Py Extensions Layouts Notions.

Lemma pairs_of_items_dicts (ds : list dict) :
  pairs_of_items (map PDict ds) = (concat ds, None).
Proof.
  induction ds as [|d ds IH]; simpl; [reflexivity|]. now rewrite IH.
Qed.

(** X5: [_pairs] on a list of mappings yields their pairs one mapping
    after the other; so a list of one-pair mappings, the way an ordered
    mapping is written, comes back as its pairs in the order written, a key
    that stands twice included.  An item that is no mapping stops it with
    [AttributeError] after the pairs of the items before. *)
Theorem pairs_ordered_mapping (ds : list dict) (x : pyval)
  (rest : list pyval) :
  _pairs (PList (map PDict ds)) = (concat ds, None)
  /\ (forall kvs : list (pyval * pyval),
        _pairs (PList (map (fun kv => PDict [kv]) kvs)) = (kvs, None))
  /\ (match x with PDict _ => False | _ => True end ->
      _pairs (PList (map PDict ds ++ x :: rest))
      = (concat ds, Some AttributeError)).
Proof.
  split; [|split].
  - apply pairs_of_items_dicts.
  - intros kvs. unfold _pairs.
    induction kvs as [|kv kvs IH]; simpl; [reflexivity|]. now rewrite IH.
  - intros Hx. unfold _pairs.
    induction ds as [|d ds IH]; simpl.
    + destruct x; try reflexivity. destruct Hx.
    + now rewrite IH.
Qed.

(** *** Commands *)

Lemma shlex_plain_chars (w rest tok : string) (quoted : bool)
  (out : list string) :
  plain_chars w = true ->
  shlex_tokens (w ++ rest) LWord tok quoted out
  = shlex_tokens rest LWord (tok ++ w) quoted out.
Proof.
  revert tok. induction w as [|c w IH]; intros tok H.
  - simpl. assert (E : (tok ++ EmptyString)%string = tok)
      by (clear; induction tok as [|x t IHt]; simpl; congruence).
    now rewrite E.
  - simpl in H. apply andb_prop in H. destruct H as [Hc Hw].
    unfold plain_char in Hc. apply andb_prop in Hc. destruct Hc as [Hc He].
    apply andb_prop in Hc. destruct Hc as [Hs Hq].
    apply negb_true_iff in Hs, Hq, He.
    cbn [append shlex_tokens]. rewrite Hs, Hq, He. rewrite (IH _ Hw).
    unfold snoc. now rewrite PathsFacts.append_assoc.
Qed.

Lemma shlex_plain_word (w rest : string) (out : list string) :
  plain_word w = true ->
  shlex_tokens (w ++ rest) LSpace EmptyString false out
  = shlex_tokens rest LWord w false out.
Proof.
  unfold plain_word. intros H. apply andb_prop in H. destruct H as [Hn Hw].
  destruct w as [|c w]; [discriminate|]. clear Hn.
  simpl in Hw. apply andb_prop in Hw. destruct Hw as [Hc Hw].
  unfold plain_char in Hc. apply andb_prop in Hc. destruct Hc as [Hc He].
  apply andb_prop in Hc. destruct Hc as [Hs Hq].
  apply negb_true_iff in Hs, Hq, He.
  cbn [append shlex_tokens]. rewrite Hs, Hq, He.
  now rewrite shlex_plain_chars.
Qed.

Lemma shlex_words (ws : list string) (out : list string) :
  forallb plain_word ws = true ->
  shlex_tokens (String.concat " " ws) LSpace EmptyString false out
  = Ok (out ++ ws).
Proof.
  revert out. induction ws as [|w ws IH]; intros out H.
  - simpl. now rewrite app_nil_r.
  - simpl in H. apply andb_prop in H. destruct H as [Hw H].
    assert (Hne : negb (String.eqb w EmptyString) = true)
      by (unfold plain_word in Hw; now apply andb_prop in Hw).
    destruct ws as [|w2 ws].
    + cbn [String.concat].
      assert (E : w = (w ++ EmptyString)%string)
        by (clear; induction w as [|x t IHt]; simpl; congruence).
      rewrite E, (shlex_plain_word w EmptyString out Hw).
      cbn [shlex_tokens]. rewrite Hne. cbn [orb]. now rewrite <- E.
    + change (String.concat " " (w :: w2 :: ws))
        with (w ++ String " " (String.concat " " (w2 :: ws)))%string.
      rewrite (shlex_plain_word w _ out Hw).
      cbn [shlex_tokens]. change (is_whitespace " ") with true.
      cbv iota. rewrite Hne. cbn [orb]. rewrite (IH (out ++ [w]) H).
      now rewrite <- app_assoc.
Qed.

(** X6: a command written as words with one space between them, the words
    not empty and free of white space, quotes and backslashes, is taken
    apart by [_command] into just these words; and [_command] leaves what
    it made as it is when given it again. *)
Theorem command_of_words (ws : list string) :
  forallb plain_word ws = true ->
  Gestures._command (PStr (String.concat " " ws)) = Ok (PList (map PStr ws))
  /\ Gestures._command (PList (map PStr ws)) = Ok (PList (map PStr ws)).
Proof.
  intros H. split; [|reflexivity].
  unfold Gestures._command, shlex_split. now rewrite (shlex_words ws [] H).
Qed.

Lemma command_of_words_witness :
  Gestures._command (PStr "spawn xterm -e top")
  = Ok (PList [PStr "spawn"; PStr "xterm"; PStr "-e"; PStr "top"])
  /\ Gestures._command (PList [PStr "spawn"; PStr "xterm"; PStr "-e";
                               PStr "top"])
     = Ok (PList [PStr "spawn"; PStr "xterm"; PStr "-e"; PStr "top"]).
Proof.
  exact (command_of_words ["spawn"; "xterm"; "-e"; "top"] eq_refl).
Defined.

Section Resolver.

Variable env : ext_env.
Variable examples : module.
Variable Layout : string.
Variable layout_Tile : pyval.
Variable py_str : pyval -> string.

Let resolve_layout := resolve_layout env examples Layout.
Let groups_loop := groups_loop env examples Layout py_str.
Let groups := groups env examples Layout layout_Tile py_str.
Let layouts_loop := layouts_loop env examples Layout.
Let all_layouts := all_layouts env examples Layout.
Let resolvable := resolvable env examples.
Let layout_ok := layout_ok env Layout.

Lemma resolve_layout_resolvable (tile lname : pyval) (l : logs) :
  getattr examples "Tile" = Some tile ->
  resolvable lname = true ->
  exists lay l', resolve_layout lname l = (Ok lay, l') /\ layout_ok tile lay.
Proof.
  intros Ht H. unfold resolve_layout, Layouts.resolve_layout. rewrite Ht.
  unfold resolvable, Layouts.resolvable in H.
  destruct lname as [| | |s| | | |]; try discriminate.
  unfold get_extension_class_any, get_extension_class, layout_ok,
    Layouts.layout_ok.
  destruct (locate env s "layouts" examples) as [res| | |e];
    [| | |discriminate].
  - destruct res; try discriminate.
    unfold bind, lift, ret, log_warning, py_issubclass.
    destruct (issubclass_of env n Layout) eqn:E; eauto 8.
  - unfold bind, ret, log_warning. eauto.
  - unfold ret. eauto.
Qed.

Lemma groups_loop_spec (tile : pyval) (pairs : list (pyval * pyval)) :
  getattr examples "Tile" = Some tile ->
  forallb resolvable (map snd pairs) = true ->
  forall (gs : list group) (l : logs),
  exists gs' l',
    groups_loop pairs gs l = (Ok (gs ++ gs'), l')
    /\ map group_name gs' = map (fun p => py_str (fst p)) pairs
    /\ forall g, In g gs' -> layout_ok tile (group_layout g).
Proof.
  intros Ht. induction pairs as [|[name lname] pairs IH]; intros H gs l.
  - exists [], l. simpl. rewrite app_nil_r. repeat split. intros g [].
  - simpl in H. apply andb_prop in H. destruct H as [Hr H].
    destruct (resolve_layout_resolvable tile lname l Ht Hr)
      as (lay & l1 & E1 & Hlay).
    destruct (IH H (gs ++ [Group (py_str name) lay]) l1)
      as (gs' & l' & E & Hn & Hl).
    exists (Group (py_str name) lay :: gs'), l'.
    unfold groups_loop, resolve_layout in *. cbn [Layouts.groups_loop].
    unfold bind at 1. rewrite E1, E. rewrite <- app_assoc.
    repeat split.
    + simpl. now rewrite Hn.
    + intros g [<-|Hg]; [exact Hlay | now apply Hl].
Qed.

(** X7: [groups].  Without a [groups] section there are the ten groups
    ["0"] to ["9"] with the layout [Tile], and nothing is logged.  With one
    whose layout names are strings that the lookups resolve to classes or
    not at all, there is one group per pair of the section, in its order,
    named [str(name)], and each has a layout: a class that passed the check
    against [Layout], or the fallback [examples.Tile]; never [None]. *)
Theorem groups_declared (data : dict) (l : logs) :
  (dict_get (PStr "groups") data = None ->
   groups data l
   = (Ok (map (fun i => Group (py_str (PInt i)) layout_Tile)
            [0; 1; 2; 3; 4; 5; 6; 7; 8; 9]%Z), l))
  /\ (forall g tile pairs,
        dict_get (PStr "groups") data = Some g ->
        _pairs g = (pairs, None) ->
        getattr examples "Tile" = Some tile ->
        forallb resolvable (map snd pairs) = true ->
        exists gs l',
          groups data l = (Ok gs, l')
          /\ map group_name gs = map (fun p => py_str (fst p)) pairs
          /\ forall x, In x gs -> layout_ok tile (group_layout x)).
Proof.
  unfold groups, Layouts.groups. split.
  - intros ->. reflexivity.
  - intros g tile pairs -> Hp Ht Hr.
    destruct (groups_loop_spec tile pairs Ht Hr [] l)
      as (gs & l' & E & Hn & Hl).
    exists gs, l'. rewrite Hp. cbn [fst snd]. unfold bind.
    unfold groups_loop in E. rewrite E. repeat split; assumption.
Qed.

(** X8: [all_layouts] makes its mapping once.  Whatever the first call
    does, return or raise, it leaves [self._all_layouts] set to the mapping
    as far as it got; and every later call returns that mapping as it is,
    without a look at the configuration and without a record in the log,
    also after a first call that raised. *)
Theorem all_layouts_once (data : dict) (l : logs) :
  exists m,
    snd (fst (all_layouts data None l)) = Some m
    /\ (fst (fst (all_layouts data None l)) = Ok m
        \/ exists e, fst (fst (all_layouts data None l)) = Raise e)
    /\ forall data' l',
         all_layouts data' (Some m) l' = ((Ok m, Some m), l').
Proof.
  unfold all_layouts, Layouts.all_layouts.
  set (r1 := match dict_get (PStr "groups") data with
             | Some g => _
             | None => _
             end).
  destruct (snd (fst r1)) as [e|].
  - exists (fst (fst r1)). cbn [fst snd]. eauto.
  - destruct (dict_get (PStr "extra_layouts") data) as [x|].
    + destruct (py_iter x) as [lnames|e].
      * set (r2 := Layouts.layouts_loop _ _ _ _ _ _).
        exists (fst (fst r2)). cbn [fst snd].
        destruct (snd (fst r2)); eauto.
      * exists (fst (fst r1)). cbn [fst snd]. eauto.
    + exists (fst (fst r1)). cbn [fst snd]. eauto.
Qed.

End Resolver.

(** X7 at work: the sample groups on the sample installation; [tile] is
    no layout anybody provides, [examples.Stack] is one. *)
Lemma groups_declared_witness :
  exists gs,
    Layouts.groups Examples.sample_env Examples2.examples_module "Layout"
      (PClass "Tile") Examples2.sample_str Examples2.sample_groups []
    = (Ok gs, [])
    /\ map group_name gs = ["main"; "web"].
Proof.
  destruct (proj2 (groups_declared Examples.sample_env
                     Examples2.examples_module "Layout" (PClass "Tile")
                     Examples2.sample_str Examples2.sample_groups [])
              _ (PClass "Tile")
              [ (PStr "main", PStr "tile");
                (PStr "web", PStr "examples.Stack") ]
              eq_refl eq_refl eq_refl eq_refl)
    as (gs & l' & E & Hn & _).
  exists gs. split; [|exact Hn].
  assert (El : l' = []) by (vm_compute in E; now injection E).
  now rewrite El in E.
Defined.

(** A first call that raises on an extra layout whose name is a number
    leaves the layouts of the groups behind, and the second call returns
    them. *)
Lemma all_layouts_partial_example :
  let data := (PStr "extra_layouts", PList [PInt 5])
              :: Examples2.sample_groups in
  let first := Layouts.all_layouts Examples.sample_env
                 Examples2.examples_module "Layout" data None [] in
  fst (fst first) = Raise TypeError
  /\ Layouts.all_layouts Examples.sample_env Examples2.examples_module
       "Layout" data (snd (fst first)) []
     = ((Ok [ (PStr "tile", PClass "Tile");
              (PStr "examples.Stack", PClass "Stack") ],
         Some [ (PStr "tile", PClass "Tile");
                (PStr "examples.Stack", PClass "Stack") ]), []).
Proof. split; reflexivity. Qed.

End LayoutsFacts.

(** ** More on [Tilenol.loop] and [Tilenol.catch_windows];
    [child_handler] *)

Module MainFacts.
Import Py Main Process.

Section EventLoop.

Variable event : Type.
Variable D : Type.
Variable dispatch : event -> D -> D * option exn.

Lemma loop_step_log (i : event) (s : loop_state event D) :
  exists entries,
    log (fst (loop_step dispatch i s)) = log s ++ entries
    /\ List.length entries <= 1
    /\ (forall x, In x entries ->
          exists e, x = LoggedException "Error handling event %r" [i] e
                    /\ snd (dispatch i (dispatcher s)) = Some e)
    /\ (snd (dispatch i (dispatcher s)) = None -> entries = []).
Proof.
  unfold loop_step. destruct (dispatch i (dispatcher s)) as [d' [e|]].
  - destruct (is_Exception e).
    + exists [LoggedException "Error handling event %r" [i] e]. cbn.
      repeat split; [lia | | discriminate].
      intros x [<-|[]]. now exists e.
    + exists []. cbn. rewrite app_nil_r.
      repeat split; [lia | intros x []].
  - exists []. cbn. rewrite app_nil_r. repeat split; [lia | intros x []].
Qed.

(** X9: when the exceptions the handlers raise are instances of
    [Exception], the loop comes through any events: it stops with no
    exception, it has handed every event to [dispatch] once, in the order
    of arrival, and the log has grown by at most one record per event, each
    of them a record of [log.exception] for one of the events; handlers
    that raise nothing leave the log as it was. *)
Theorem loop_runs_through (events : list event) (s : loop_state event D) :
  (forall i d d' e, dispatch i d = (d', Some e) -> is_Exception e = true) ->
  exists s' entries,
    loop dispatch events s = (s', None)
    /\ dispatched s' = dispatched s ++ events
    /\ log s' = log s ++ entries
    /\ List.length entries <= List.length events
    /\ (forall x, In x entries ->
          exists i e, x = LoggedException "Error handling event %r" [i] e
                      /\ In i events)
    /\ ((forall i d, snd (dispatch i d) = None) -> entries = []).
Proof.
  intros H. revert s. induction events as [|i events IH]; intros s.
  - exists s, []. cbn. rewrite !app_nil_r.
    repeat split; [lia | intros x []].
  - assert (Es : snd (loop_step dispatch i s) = None).
    { unfold loop_step.
      destruct (dispatch i (dispatcher s)) as [d' [e|]] eqn:E;
        [|reflexivity].
      now rewrite (H _ _ _ _ E). }
    destruct (loop_step_log i s) as (e1 & Hl1 & Hn1 & Hx1 & Hno1).
    destruct (LoopFacts.loop_step_dispatched event D dispatch i s)
      as [Hd1 _].
    destruct (loop_step dispatch i s) as [s1 r] eqn:E1.
    cbn [fst snd] in *. subst r.
    destruct (IH s1) as (s' & e2 & El & Hd & Hl & Hn & Hx & Hno).
    exists s', (e1 ++ e2). cbn [loop]. rewrite E1.
    split; [exact El|]. split; [|split; [|split; [|split]]].
    + rewrite Hd, Hd1. now rewrite <- app_assoc.
    + rewrite Hl, Hl1. now rewrite <- app_assoc.
    + rewrite length_app. cbn [List.length]. lia.
    + intros x Hin. apply in_app_or in Hin. destruct Hin as [Hin|Hin].
      * destruct (Hx1 x Hin) as (e & -> & _). exists i, e.
        split; [reflexivity | now left].
      * destruct (Hx x Hin) as (j & e & -> & Hj). exists j, e.
        split; [reflexivity | now right].
    + intros Hnone. rewrite (Hno1 (Hnone _ _)), (Hno Hnone). reflexivity.
Qed.

(** X10: an exception that is no instance of [Exception] (a
    [KeyboardInterrupt], a [SystemExit]) ends the loop: it leaves [loop],
    nothing is logged for it, and the events after the one that raised it
    are not handed to [dispatch]. *)
Theorem loop_stops_outside_Exception (pre post : list event) (i : event)
  (s s1 : loop_state event D) (d' : D) (e : exn) :
  loop dispatch pre s = (s1, None) ->
  dispatch i (dispatcher s1) = (d', Some e) ->
  is_Exception e = false ->
  loop dispatch (pre ++ i :: post) s
  = (LoopState d' (log s1) (dispatched s1 ++ [i]), Some e).
Proof.
  intros Hpre Hd He. rewrite LoopFacts.loop_app, Hpre. cbn [loop].
  unfold loop_step. now rewrite Hd, He.
Qed.

End EventLoop.

Lemma loop_runs_through_witness :
  exists s' entries,
    loop Examples.sample_dispatch [1; 2; 3] (LoopState 0 [] [])
    = (s', None)
    /\ dispatched s' = [1; 2; 3]
    /\ log s' = entries
    /\ List.length entries <= 3.
Proof.
  destruct (loop_runs_through nat nat Examples.sample_dispatch [1; 2; 3]
              (LoopState 0 [] [])) as (s' & entries & E & Hd & Hl & Hn & _).
  - intros i d d' e H. unfold Examples.sample_dispatch in H.
    destruct (Nat.eqb i 2); now inversion H.
  - exists s', entries. repeat split; assumption.
Defined.

Lemma loop_stops_outside_Exception_witness :
  loop (fun (i : nat) (d : nat) =>
          (S d, if Nat.eqb i 2 then Some (BaseOnly "KeyboardInterrupt")
                else None))
    [1; 2; 3] (LoopState 0 [] [])
  = (LoopState 2 [] [1; 2], Some (BaseOnly "KeyboardInterrupt")).
Proof.
  exact (loop_stops_outside_Exception nat nat
           (fun (i : nat) (d : nat) =>
              (S d, if Nat.eqb i 2 then Some (BaseOnly "KeyboardInterrupt")
                    else None))
           [1] [3] 2 (LoopState 0 [] []) (LoopState 1 [] [1]) 2
           (BaseOnly "KeyboardInterrupt") eq_refl eq_refl eq_refl).
Defined.

(** X11: [child_handler] reaps the children that have ended and stops at
    the first call of [os.waitpid] that gives the process identifier 0 or
    raises [OSError]: it has then reaped the children before that call, in
    order, and makes no further call, whatever would come after. *)
Theorem child_handler_reaps (reaped : list (Z * Z)) (last : waitpid_outcome)
  (later : list waitpid_outcome) :
  forallb (fun ps => negb (fst ps =? 0)%Z) reaped = true ->
  match last with
  | WaitError => True
  | Waited pid _ => pid = 0%Z
  end ->
  child_handler (map (fun ps => Waited (fst ps) (snd ps)) reaped
                 ++ last :: later)
  = Some (map fst reaped).
Proof.
  intros Hr Hl. induction reaped as [|[pid st] reaped IH]; simpl.
  - destruct last as [pid st|]; [subst pid|]; reflexivity.
  - simpl in Hr. apply andb_prop in Hr. destruct Hr as [Hp Hr].
    apply negb_true_iff in Hp. rewrite Hp, (IH Hr). reflexivity.
Qed.

Lemma child_handler_reaps_witness :
  child_handler [Waited 4711 0; Waited 4712 256; Waited 0 0; Waited 4713 0]
  = Some [4711; 4712]%Z.
Proof.
  exact (child_handler_reaps [(4711, 0); (4712, 256)]%Z (Waited 0 0)
           [Waited 4713 0] eq_refl eq_refl).
Defined.

(** X12: the screen of a bar.  A screen number from 0 up to the number of
    screens picks that screen; a negative one counts from the last screen,
    as Python's indexing does, and raises [IndexError] beyond the first; a
    number that is too large attaches the bar to no screen, and raises
    nothing.  The screen picked, if any, is one of the screens. *)
Theorem bar_screen_bounds (n : nat) (screen_no : Z) :
  (forall i, bar_screen n screen_no = Ok (Some i) ->
             i < n
             /\ (Z.of_nat i = screen_no
                 \/ (screen_no < 0 /\ Z.of_nat i = screen_no + Z.of_nat n))%Z)
  /\ (bar_screen n screen_no = Ok None <-> (Z.of_nat n <= screen_no)%Z)
  /\ ((exists e, bar_screen n screen_no = Raise e)
      <-> (screen_no < - Z.of_nat n)%Z).
Proof.
  unfold bar_screen.
  destruct (Z.ltb_spec screen_no (Z.of_nat n)) as [H1|H1];
    [destruct (Z.leb_spec 0 screen_no) as [H2|H2];
       [|destruct (Z.leb_spec 0 (screen_no + Z.of_nat n)) as [H3|H3]]|].
  - split; [|split].
    + intros i [= <-]. split; lia.
    + split; [discriminate | lia].
    + split; [intros [e He]; discriminate | lia].
  - split; [|split].
    + intros i [= <-]. split; lia.
    + split; [discriminate | lia].
    + split; [intros [e He]; discriminate | lia].
  - split; [|split].
    + intros i H. discriminate.
    + split; [discriminate | lia].
    + split; [lia | eauto].
  - split; [|split].
    + intros i H. discriminate.
    + split; [lia | reflexivity].
    + split; [intros [e He]; discriminate | lia].
Qed.

End MainFacts.

(** ** [Tilenol.catch_windows]: a failing handler, and a second run *)

Module RediscoveryFacts.
Import Py Main.

Section Discovery.

Variable D : Type.
Variable all_windows : D -> wid -> bool.
Variable windows : D -> wid -> bool.
Variable handle_CreateNotifyEvent : xevent -> D -> D * option exn.
Variable handle_MapRequestEvent : xevent -> D -> D * option exn.
Variable root_window : wid.
Variable GetWindowAttributes : wid -> attributes.
Variable GetGeometry : wid -> geometry.

Let catch_window :=
  catch_window D all_windows windows handle_CreateNotifyEvent
    handle_MapRequestEvent root_window GetWindowAttributes GetGeometry.
Let catch_windows :=
  catch_windows D all_windows windows handle_CreateNotifyEvent
    handle_MapRequestEvent root_window GetWindowAttributes GetGeometry.
Let creation_event := creation_event root_window GetWindowAttributes GetGeometry.

(** X13: [catch_windows] has no [try] of its own.  When the handler of
    creation events raises on a child [w], or returns without having
    entered [w] in the table [windows] (the lookup [windows[w]] then raises
    [KeyError]), the exception leaves [catch_windows]: the creation event
    of [w] is the last event handed to the dispatcher, no mapping event
    follows, and the children after [w] are not looked at. *)
Theorem catch_windows_handler_failure (pre post : list wid) (w : wid)
  (d0 d d' : D) (evs : list xevent) (r : option exn) (e : exn) :
  catch_windows pre d0 = (evs, d, None) ->
  w <> root_window ->
  all_windows d w = false ->
  is_input_only (class_ (GetWindowAttributes w)) = false ->
  handle_CreateNotifyEvent (creation_event w) d = (d', r) ->
  r = Some e \/ (r = None /\ windows d' w = false /\ e = KeyError) ->
  catch_windows (pre ++ w :: post) d0
  = (evs ++ [creation_event w], d', Some e).
Proof.
  intros Hpre Hroot Hknown Hio Hc Hr.
  unfold catch_windows. rewrite DiscoveryFacts.catch_windows_app.
  unfold catch_windows in Hpre. rewrite Hpre.
  apply Z.eqb_neq in Hroot.
  cbn [Main.catch_windows]. unfold Main.catch_window.
  rewrite Hroot, Hknown, Hio. cbn [orb].
  unfold creation_event in Hc. rewrite Hc.
  destruct Hr as [->|(-> & Hw & ->)].
  - reflexivity.
  - rewrite Hw. reflexivity.
Qed.

(** The handlers of a dispatcher that keeps what it was told: neither
    raises, the one for creation events enters the window in both tables,
    and neither takes a window out of the table [all_windows]. *)
Hypothesis create_enters : forall ev d,
  snd (handle_CreateNotifyEvent ev d) = None
  /\ windows (fst (handle_CreateNotifyEvent ev d)) (ev_window ev) = true
  /\ all_windows (fst (handle_CreateNotifyEvent ev d)) (ev_window ev) = true.
Hypothesis create_keeps : forall ev d w,
  all_windows d w = true ->
  all_windows (fst (handle_CreateNotifyEvent ev d)) w = true.
Hypothesis map_keeps : forall ev d,
  snd (handle_MapRequestEvent ev d) = None
  /\ forall w, all_windows d w = true ->
               all_windows (fst (handle_MapRequestEvent ev d)) w = true.

Let passed_over (d : D) (w : wid) : bool :=
  (Z.eqb w root_window || all_windows d w
   || is_input_only (class_ (GetWindowAttributes w)))%bool.

Lemma catch_window_settles (w : wid) (d : D) :
  exists evs d',
    catch_window w d = (evs, d', None)
    /\ passed_over d' w = true
    /\ (passed_over d w = true -> evs = [] /\ d' = d)
    /\ (passed_over d w = false ->
        exists rest, evs = creation_event w :: rest
                     /\ forall ev, In ev rest -> ev = mapping_event root_window w)
    /\ (forall w', all_windows d w' = true -> all_windows d' w' = true).
Proof.
  unfold catch_window, Main.catch_window, passed_over.
  destruct (Z.eqb w root_window || all_windows d w)%bool eqn:E1; cbn [orb].
  { exists [], d. rewrite E1.
    refine (conj eq_refl (conj eq_refl (conj _ (conj _ _)))); auto.
    intros H; discriminate H. }
  destruct (is_input_only (class_ (GetWindowAttributes w))) eqn:E2.
  { exists [], d. rewrite E1.
    refine (conj eq_refl (conj eq_refl (conj _ (conj _ _)))); auto.
    intros H; discriminate H. }
  pose proof (create_enters
                (Main.creation_event root_window GetWindowAttributes
                   GetGeometry w) d) as (Hc & Hw & Ha).
  pose proof (create_keeps
                (Main.creation_event root_window GetWindowAttributes
                   GetGeometry w) d) as Hk.
  destruct (handle_CreateNotifyEvent _ d) as [d1 r]. cbn [fst snd] in *.
  cbn [ev_window Main.creation_event] in Hw, Ha.
  subst r. rewrite Hw.
  destruct (negb _ && negb _)%bool.
  - pose proof (map_keeps (Main.mapping_event root_window w) d1) as [Hm Hk2].
    destruct (handle_MapRequestEvent _ d1) as [d2 r]. cbn [fst snd] in *.
    subst r. exists [creation_event w; mapping_event root_window w], d2.
    split; [reflexivity|]. split; [|split; [discriminate|split]].
    + rewrite (Hk2 _ Ha). now rewrite orb_true_r.
    + intros _. eexists. split; [reflexivity|]. now intros ev [<-|[]].
    + intros w' H. apply Hk2, Hk, H.
  - exists [creation_event w], d1.
    split; [reflexivity|]. split; [|split; [discriminate|split]].
    + rewrite Ha. now rewrite orb_true_r.
    + intros _. eexists. split; [reflexivity|]. intros ev [].
    + intros w' H. apply Hk, H.
Qed.

Lemma passed_over_kept (d d' : D) (w : wid) :
  (forall w', all_windows d w' = true -> all_windows d' w' = true) ->
  passed_over d w = true -> passed_over d' w = true.
Proof.
  unfold passed_over. intros H Hp.
  destruct (Z.eqb w root_window); [reflexivity|].
  destruct (is_input_only _); [now rewrite orb_true_r|].
  cbn [orb] in *. rewrite orb_false_r in *. now apply H.
Qed.

Lemma catch_windows_settles (children : list wid) (d : D) :
  exists evs d',
    catch_windows children d = (evs, d', None)
    /\ (forall w, In w children -> passed_over d' w = true)
    /\ (forall w', all_windows d w' = true -> all_windows d' w' = true).
Proof.
  revert d. induction children as [|w ws IH]; intros d.
  - exists [], d. split; [reflexivity|]. split; [intros w []|auto].
  - destruct (catch_window_settles w d) as (evs1 & d1 & E1 & Hp1 & _ & _ & Hk1).
    destruct (IH d1) as (evs2 & d2 & E2 & Hp2 & Hk2).
    exists (evs1 ++ evs2), d2.
    unfold catch_windows in *. unfold catch_window in E1.
    cbn [Main.catch_windows]. rewrite E1, E2.
    split; [reflexivity|]. split.
    + intros w' [<-|Hin]; [|now apply Hp2].
      now apply (passed_over_kept d1 d2).
    + intros w' H. apply Hk2, Hk1, H.
Qed.

Lemma catch_windows_passed_over (children : list wid) (d : D) :
  (forall w, In w children -> passed_over d w = true) ->
  catch_windows children d = ([], d, None).
Proof.
  induction children as [|w ws IH]; intros H; [reflexivity|].
  destruct (catch_window_settles w d) as (evs1 & d1 & E1 & _ & Hs & _).
  destruct (Hs (H w (or_introl eq_refl))) as [-> ->].
  unfold catch_windows in *. unfold catch_window in E1.
  cbn [Main.catch_windows]. rewrite E1, IH; [reflexivity|].
  intros w' Hin. apply H. now right.
Qed.

(** Each creation event of a run is of a window that the dispatcher did not
    know before the run and knows after it. *)
Lemma catch_windows_new_only (children : list wid) (d : D) :
  forall evs d', catch_windows children d = (evs, d', None) ->
  forall w, In (creation_event w) evs ->
            all_windows d w = false /\ all_windows d' w = true.
Proof.
  revert d. induction children as [|c cs IH]; intros d evs d' E w Hin.
  - injection E as <- <-. destruct Hin.
  - destruct (catch_window_settles c d)
      as (evs1 & d1 & E1 & Hp1 & Hs & Hn & Hk1).
    destruct (catch_windows_settles cs d1) as (evs2 & d2 & E2 & _ & Hk2).
    unfold catch_windows in *. unfold catch_window in E1.
    cbn [Main.catch_windows] in E. rewrite E1, E2 in E.
    injection E as <- <-.
    apply in_app_or in Hin. destruct Hin as [Hin|Hin].
    + destruct (passed_over d c) eqn:Ep.
      * destruct (Hs eq_refl) as [-> _]. destruct Hin.
      * destruct (Hn eq_refl) as (rest & -> & Hrest).
        assert (Hw : w = c).
        { destruct Hin as [Hin|Hin].
          - unfold creation_event, Main.creation_event in Hin.
            now injection Hin.
          - apply Hrest in Hin. discriminate. }
        subst c. unfold passed_over in Ep, Hp1.
        destruct (Z.eqb w root_window); [discriminate|].
        destruct (all_windows d w); [discriminate|].
        destruct (is_input_only _); [discriminate|].
        cbn [orb] in Hp1. rewrite orb_false_r in Hp1.
        split; [reflexivity|]. now apply Hk2.
    + destruct (IH d1 evs2 d2 E2 w Hin) as [Hf Ht]. split; [|exact Ht].
      destruct (all_windows d w) eqn:Ea; [|reflexivity].
      now rewrite (Hk1 _ Ea) in Hf.
Qed.

(** No window gets two creation events in one run. *)
Lemma catch_windows_once (children : list wid) (d : D) :
  forall evs d', catch_windows children d = (evs, d', None) ->
  forall l1 l2 w, evs = l1 ++ creation_event w :: l2 ->
                  ~ In (creation_event w) l2.
Proof.
  revert d. induction children as [|c cs IH]; intros d evs d' E l1 l2 w Hev.
  - injection E as <- <-. now destruct l1.
  - destruct (catch_window_settles c d)
      as (evs1 & d1 & E1 & Hp1 & Hs & Hn & Hk1).
    destruct (catch_windows_settles cs d1) as (evs2 & d2 & E2 & _ & Hk2).
    pose proof (catch_windows_new_only cs d1 evs2 d2 E2) as Hnew.
    pose proof (IH d1 evs2 d2 E2) as IH2.
    unfold catch_windows in *. unfold catch_window in E1.
    cbn [Main.catch_windows] in E. rewrite E1, E2 in E.
    injection E as <- <-.
    apply app_eq_app in Hev. destruct Hev as [l [[H1 H2]|[H1 H2]]].
    + destruct l as [|x l'].
      * cbn in H2. apply (IH2 [] l2 w). now rewrite <- H2.
      * cbn in H2. injection H2 as <- ->.
        destruct (passed_over d c) eqn:Ep.
        { destruct (Hs eq_refl) as [-> _]. now destruct l1. }
        destruct (Hn eq_refl) as (rest & -> & Hrest).
        assert (Hw : w = c /\ l' = rest).
        { destruct l1 as [|y l1'].
          - cbn [app] in H1. split.
            + exact (eq_sym (f_equal (fun l => match l with
                                               | ev :: _ => ev_window ev
                                               | [] => root_window
                                               end) H1)).
            + exact (eq_sym (f_equal (@tl xevent) H1)).
          - cbn [app] in H1. pose proof (f_equal (@tl xevent) H1) as Ht.
            cbn [tl] in Ht. subst rest.
            assert (Hin : In (creation_event w)
                            (l1' ++ creation_event w :: l'))
              by (apply in_or_app; right; now left).
            apply Hrest in Hin. discriminate. }
        destruct Hw as [-> ->]. intros Hin.
        apply in_app_or in Hin. destruct Hin as [Hin|Hin].
        { apply Hrest in Hin. discriminate. }
        destruct (Hnew c Hin) as [Hf _].
        unfold passed_over in Ep, Hp1.
        destruct (Z.eqb c root_window); [discriminate|].
        destruct (is_input_only _); [now rewrite orb_true_r in Ep|].
        cbn [orb] in Hp1. rewrite orb_false_r in Hp1. congruence.
    + now apply (IH2 l l2 w).
Qed.

(** X14: with handlers that do not raise, that enter the window of a
    creation event in the dispatcher's tables and that leave the known
    windows known, [catch_windows] comes through any list of children, and
    a second run on the same children hands nothing to the dispatcher and
    leaves it as it is.  Every creation event of the first run is of a
    window that was not known before, so that a window listed twice gets
    its events once. *)
Theorem catch_windows_second_run (children : list wid) (d0 : D) :
  exists evs d1,
    catch_windows children d0 = (evs, d1, None)
    /\ catch_windows children d1 = ([], d1, None)
    /\ (forall w, In (creation_event w) evs ->
          all_windows d0 w = false /\ all_windows d1 w = true)
    /\ (forall l1 l2 w,
          evs = l1 ++ creation_event w :: l2 -> ~ In (creation_event w) l2).
Proof.
  destruct (catch_windows_settles children d0) as (evs & d1 & E & Hp & Hk).
  exists evs, d1. split; [exact E|]. split; [|split].
  - now apply catch_windows_passed_over.
  - now apply (catch_windows_new_only children d0).
  - now apply (catch_windows_once children d0 evs d1).
Qed.

End Discovery.

(** X13 at work: the sample X server with a handler of creation events
    that raises on window 12; window 13 is not looked at. *)
Lemma catch_windows_handler_failure_witness :
  Main.catch_windows (list wid) Examples.sample_known Examples.sample_known
    (fun ev d => if (ev_window ev =? 12)%Z then (d, Some ValueError)
                 else (ev_window ev :: d, None))
    Examples.sample_map 1%Z Examples.sample_attributes
    Examples.sample_geometry [10; 11; 12; 13]%Z []
  = ([ CreateNotify 0 10 1 0 0 800 600 1 false; MapRequest 0 1 10;
       CreateNotify 0 12 1 0 0 800 600 1 true ]%Z,
     [10]%Z, Some ValueError).
Proof.
  exact (catch_windows_handler_failure (list wid) Examples.sample_known
           Examples.sample_known
           (fun ev d => if (ev_window ev =? 12)%Z then (d, Some ValueError)
                        else (ev_window ev :: d, None))
           Examples.sample_map 1%Z Examples.sample_attributes
           Examples.sample_geometry [10; 11]%Z [13]%Z 12%Z [] [10]%Z [10]%Z
           [ CreateNotify 0 10 1 0 0 800 600 1 false; MapRequest 0 1 10 ]%Z
           (Some ValueError) ValueError
           eq_refl (proj1 (Z.eqb_neq 12 1) eq_refl) eq_refl eq_refl eq_refl
           (or_introl eq_refl)).
Defined.

(** X14 at work: the sample X server and the sample dispatcher, with
    window 10 listed twice. *)
Lemma catch_windows_second_run_witness :
  exists evs d1,
    Main.catch_windows (list wid) Examples.sample_known Examples.sample_known
      Examples.sample_create Examples.sample_map 1%Z
      Examples.sample_attributes Examples.sample_geometry
      [10; 11; 12; 13; 10]%Z []
    = (evs, d1, None)
    /\ Main.catch_windows (list wid) Examples.sample_known
         Examples.sample_known Examples.sample_create Examples.sample_map 1%Z
         Examples.sample_attributes Examples.sample_geometry
         [10; 11; 12; 13; 10]%Z d1
       = ([], d1, None).
Proof.
  destruct (catch_windows_second_run (list wid) Examples.sample_known
              Examples.sample_known Examples.sample_create Examples.sample_map
              1%Z Examples.sample_attributes Examples.sample_geometry
              (fun ev d =>
                 let known := eq_trans (f_equal (fun b => orb b _)
                                          (Z.eqb_refl (ev_window ev)))
                                       eq_refl in
                 conj eq_refl (conj known known))
              (fun ev d w H => eq_trans (f_equal (orb _) H) (orb_true_r _))
              (fun ev d => conj eq_refl (fun w H => H))
              [10; 11; 12; 13; 10]%Z [])
    as (evs & d1 & E1 & E2 & _).
  exists evs, d1. split; [exact E1 | exact E2].
Defined.

End RediscoveryFacts.

(** ** [Config.gestures]: the layers of a record *)

Module GestureLayersFacts.
Import Py Gestures Notions.

Lemma dict_get_eqb (a b : pyval) (d : dict) :
  key_eqb a b = true -> dict_get a d = dict_get b d.
Proof.
  intros H. induction d as [|[k v] d IH]; cbn [dict_get]; [reflexivity|].
  destruct (key_eqb a k) eqn:Ea, (key_eqb b k) eqn:Eb;
    [reflexivity | | | exact IH].
  - rewrite GesturesFacts.key_eqb_sym in H.
    now rewrite (GesturesFacts.key_eqb_trans _ _ _ H Ea) in Eb.
  - now rewrite (GesturesFacts.key_eqb_trans _ _ _ H Eb) in Ea.
Qed.

(** [d.update(d2)]: the keys of [d2] take the values of [d2], the other
    keys keep theirs. *)
Lemma dict_get_merge (k : pyval) (d d2 : dict) :
  unique_keys d2 = true ->
  dict_get k (dict_merge d d2)
  = match dict_get k d2 with
    | Some v => Some v
    | None => dict_get k d
    end.
Proof.
  unfold dict_merge. revert d.
  induction d2 as [|[k2 v2] d2 IH]; intros d Hu; [reflexivity|].
  cbn [unique_keys] in Hu. apply andb_prop in Hu. destruct Hu as [Hn Hu].
  cbn [fold_left fst snd dict_get]. rewrite (IH _ Hu).
  rewrite PathsFacts.dict_get_set.
  destruct (key_eqb k k2) eqn:E; [|reflexivity].
  rewrite (dict_get_eqb k k2 d2 E).
  unfold dict_mem in Hn. now destruct (dict_get k2 d2).
Qed.

Lemma unique_keys_set (k v : pyval) (d : dict) :
  unique_keys d = true -> unique_keys (dict_set k v d) = true.
Proof.
  induction d as [|[k2 v2] d IH]; intros Hu; [reflexivity|].
  cbn [unique_keys] in Hu. apply andb_prop in Hu. destruct Hu as [Hn Hu].
  cbn [dict_set]. destruct (key_eqb k k2) eqn:E; cbn [unique_keys].
  - now rewrite Hn, Hu.
  - rewrite GesturesFacts.dict_mem_set, (IH Hu).
    rewrite GesturesFacts.key_eqb_sym, E. cbn [orb]. now rewrite Hn.
Qed.

Lemma unique_keys_merge (d d2 : dict) :
  unique_keys d = true -> unique_keys (dict_merge d d2) = true.
Proof.
  unfold dict_merge. revert d.
  induction d2 as [|[k2 v2] d2 IH]; intros d Hu; [exact Hu|].
  cbn [fold_left fst snd]. apply IH. now apply unique_keys_set.
Qed.

Lemma dict_get_In_str (s : string) (v : pyval) (d : dict) :
  dict_get (PStr s) d = Some v -> In (PStr s, v) d.
Proof.
  induction d as [|[k2 v2] d IH]; cbn [dict_get]; [discriminate|].
  destruct (key_eqb (PStr s) k2) eqn:E.
  - intros [= ->]. left. destruct k2; try discriminate.
    cbn in E. apply String.eqb_eq in E. now subst.
  - intros H. right. now apply IH.
Qed.

(** The loop leaves the records of the keys it does not meet. *)
Lemma gestures_loop_keeps directions (settings items : dict) (k : pyval) :
  dict_mem k items = false ->
  forall res l res' l',
    gestures_loop directions settings items res l = (Ok res', l') ->
    dict_get k res' = dict_get k res.
Proof.
  induction items as [|[k0 v0] items IH]; intros Hm res l res' l' E.
  - cbn in E. now injection E as <- _.
  - unfold dict_mem in Hm. cbn [dict_get] in Hm.
    destruct (key_eqb k k0) eqn:Ek; [discriminate|].
    fold (dict_mem k items) in Hm. cbn [gestures_loop] in E.
    destruct (key_eqb k0 (PStr "settings")); [exact (IH Hm _ _ _ _ E)|].
    destruct (is_supported directions k0).
    + unfold bind, lift in E.
      destruct (gesture_record directions settings k0 v0) as [val|e];
        [|discriminate].
      rewrite (IH Hm _ _ _ _ E), PathsFacts.dict_get_set. now rewrite Ek.
    + unfold bind, log_warning in E. exact (IH Hm _ _ _ _ E).
Qed.

(** The record of a supported key is the one made of its declaration. *)
Lemma gestures_loop_record directions (settings items : dict) (s : string)
  (v : pyval) :
  unique_keys items = true ->
  In (PStr s, v) items ->
  is_supported directions (PStr s) = true ->
  forall res l res' l',
    gestures_loop directions settings items res l = (Ok res', l') ->
    exists val,
      gesture_record directions settings (PStr s) v = Ok val
      /\ dict_get (PStr s) res' = Some (PDict val).
Proof.
  induction items as [|[k0 v0] items IH]; intros Hu Hin Hs res l res' l' E;
    [destruct Hin|].
  cbn [unique_keys] in Hu. apply andb_prop in Hu. destruct Hu as [Hn Hu].
  apply negb_true_iff in Hn. cbn [gestures_loop] in E.
  destruct Hin as [[= -> ->]|Hin].
  - rewrite (GesturesFacts.supported_not_settings _ _ Hs), Hs in E.
    unfold bind, lift in E.
    destruct (gesture_record directions settings (PStr s) v) as [val|e];
      [|discriminate].
    exists val. split; [reflexivity|].
    rewrite (gestures_loop_keeps _ _ _ _ Hn _ _ _ _ E).
    rewrite PathsFacts.dict_get_set. cbn [key_eqb].
    now rewrite String.eqb_refl.
  - destruct (key_eqb k0 (PStr "settings"));
      [exact (IH Hu Hin Hs _ _ _ _ E)|].
    destruct (is_supported directions k0).
    + unfold bind, lift in E.
      destruct (gesture_record directions settings k0 v0) as [val|e];
        [|discriminate].
      exact (IH Hu Hin Hs _ _ _ _ E).
    + unfold bind, log_warning in E. exact (IH Hu Hin Hs _ _ _ _ E).
Qed.

(** The record of a declaration that is a mapping with [action] or [=] *)
Lemma gesture_record_layers directions (settings d val : dict)
  (fing dir : string) (p : pyval) :
  unique_keys settings = true -> unique_keys d = true ->
  In fing fingers -> split_on "-" dir = [dir] ->
  assoc dir directions = Some p ->
  (dict_mem (PStr "action") d || dict_mem (PStr "=") d)%bool = true ->
  gesture_record directions settings (PStr (gesture_key fing dir)) (PDict d)
  = Ok val ->
  dict_get (PStr "condition") val = Some p
  /\ (exists x a,
        dict_get (PStr (if dict_mem (PStr "=") d then "=" else "action")) d
        = Some x
        /\ _command x = Ok a
        /\ dict_get (PStr "action") val = Some a)
  /\ (forall j,
        key_eqb j (PStr "action") = false ->
        key_eqb j (PStr "condition") = false ->
        dict_get j val
        = match dict_get j d with
          | Some x => Some x
          | None => dict_get j settings
          end).
Proof.
  intros Hus Hud Hf Hd Hp Hany E. unfold gesture_record in E.
  rewrite (GesturesFacts.split_gesture_key fing dir Hf Hd) in E.
  cbn [rbind py_contains snd] in E. rewrite Hp in E.
  assert (Hany' : (if dict_mem (PStr "action") d then Ok true
                   else Ok (dict_mem (PStr "=") d)) = Ok true).
  { destruct (dict_mem (PStr "action") d); [reflexivity|].
    cbn [orb] in Hany. now rewrite Hany. }
  rewrite Hany' in E. cbn [rbind negb dict_update] in E.
  set (val1 := dict_merge (dict_merge [] settings) d) in *.
  assert (H1 : forall j, dict_get j val1
                         = match dict_get j d with
                           | Some x => Some x
                           | None => dict_get j settings
                           end).
  { intros j. unfold val1. rewrite (dict_get_merge _ _ _ Hud).
    rewrite (dict_get_merge _ _ _ Hus). cbn [dict_get].
    now destruct (dict_get j settings). }
  assert (Hx : exists x,
             dict_get (PStr (if dict_mem (PStr "=") d then "=" else "action"))
               d = Some x
             /\ (if dict_mem (PStr "=") d
                 then rbind (py_getitem (PDict d) "=") (fun x0 =>
                      rbind (_command x0) (fun a =>
                      Ok (dict_set (PStr "action") a val1)))
                 else rbind (py_getitem (PDict val1) "action") (fun x0 =>
                      rbind (_command x0) (fun a =>
                      Ok (dict_set (PStr "action") a val1))))
                = rbind (_command x) (fun a =>
                  Ok (dict_set (PStr "action") a val1))).
  { unfold py_getitem. unfold dict_mem in *.
    destruct (dict_get (PStr "=") d) as [x|] eqn:Eeq.
    - exists x. now split.
    - rewrite H1. destruct (dict_get (PStr "action") d) as [x|];
        [|discriminate]. exists x. now split. }
  destruct Hx as (x & Hx & Ex). rewrite Ex in E.
  destruct (_command x) as [a|e] eqn:Ea; [|discriminate].
  cbn [rbind] in E. injection E as <-.
  split; [|split].
  - rewrite PathsFacts.dict_get_set. reflexivity.
  - exists x, a. split; [exact Hx|]. split; [exact Ea|].
    rewrite !PathsFacts.dict_get_set. reflexivity.
  - intros j Ha Hc. rewrite !PathsFacts.dict_get_set, Hc, Ha. apply H1.
Qed.

(** X15: the layers of a gesture record.  The section [gestures] of
    [self.data] is laid over the file key by key, so that its declaration
    of a gesture, and its [settings] block as a whole, stand for the
    file's.  For a supported gesture declared as a mapping with an
    [action] or an [=], the record [gestures] returns has, under every key
    but [action] and [condition], the value of the declaration, or else of
    the [settings] block, or else of the built-in settings; its [action]
    is the command under [=], or under [action] when there is no [=]; and
    its [condition] is the predicate registered for the direction,
    whatever the declaration has under that key. *)
Theorem gestures_layers directions (gest0 data gd s d : dict)
  (fing dir : string) (p : pyval) (l l' : logs) (res : dict) :
  let layered key := match dict_get key gd with
                     | Some v => Some v
                     | None => dict_get key gest0
                     end in
  unique_keys gest0 = true -> unique_keys gd = true ->
  unique_keys s = true -> unique_keys d = true ->
  dict_get_default (PStr "gestures") (PDict []) data = PDict gd ->
  (layered (PStr "settings") = Some (PDict s)
   \/ (layered (PStr "settings") = None /\ s = [])) ->
  layered (PStr (gesture_key fing dir)) = Some (PDict d) ->
  In fing fingers -> split_on "-" dir = [dir] ->
  assoc dir directions = Some p ->
  (dict_mem (PStr "action") d || dict_mem (PStr "=") d)%bool = true ->
  gestures directions (PDict gest0) data l = (Ok res, l') ->
  exists val,
    dict_get (PStr (gesture_key fing dir)) res = Some (PDict val)
    /\ dict_get (PStr "condition") val = Some p
    /\ (exists x a,
          dict_get (PStr (if dict_mem (PStr "=") d then "=" else "action")) d
          = Some x
          /\ _command x = Ok a
          /\ dict_get (PStr "action") val = Some a)
    /\ (forall j,
          key_eqb j (PStr "action") = false ->
          key_eqb j (PStr "condition") = false ->
          dict_get j val
          = match dict_get j d with
            | Some x => Some x
            | None => match dict_get j s with
                      | Some x => Some x
                      | None => dict_get j default_settings
                      end
            end).
Proof.
  intros layered Hu0 Hug Hus Hud Hdata Hset Hdecl Hf Hd Hp Hany E.
  set (gest := dict_merge gest0 gd).
  assert (Hlay : forall key, dict_get key gest = layered key)
    by (intros key; apply (dict_get_merge key gest0 gd Hug)).
  assert (Hs : is_supported directions (PStr (gesture_key fing dir)) = true).
  { apply GesturesFacts.is_supported_iff. exists fing, dir.
    split; [exact Hf|]. split; [|reflexivity].
    exact (in_map fst _ _ (GesturesFacts.assoc_In _ _ _ Hp)). }
  assert (El : gestures_loop directions (dict_merge default_settings s) gest
                 [] l = (Ok res, l')).
  { unfold gestures in E. rewrite Hdata in E.
    cbn [dict_update] in E. fold gest in E.
    unfold bind at 1, lift at 1 in E. rewrite Hlay in E.
    destruct Hset as [Hset|[Hset ->]]; rewrite Hset in E.
    - exact E.
    - exact E. }
  rewrite <- Hlay in Hdecl.
  destruct (gestures_loop_record directions _ gest _ _
              (unique_keys_merge gest0 gd Hu0) (dict_get_In_str _ _ _ Hdecl)
              Hs _ _ _ _ El) as (val & Erec & Hres).
  destruct (gesture_record_layers directions _ d val fing dir p
              (unique_keys_merge default_settings s eq_refl) Hud Hf Hd Hp
              Hany Erec) as (Hc & Ha & Hj).
  exists val. split; [exact Hres|]. split; [exact Hc|]. split; [exact Ha|].
  intros j Hja Hjc. rewrite (Hj j Hja Hjc).
  now rewrite (dict_get_merge j default_settings s Hus).
Qed.

Lemma gestures_loop_app directions (settings a b : dict) (res : dict)
  (l : logs) :
  gestures_loop directions settings (a ++ b) res l
  = match gestures_loop directions settings a res l with
    | (Ok r, l1) => gestures_loop directions settings b r l1
    | (Raise e, l1) => (Raise e, l1)
    end.
Proof.
  revert res l. induction a as [|[k v] a IH]; intros res l; [reflexivity|].
  cbn [app gestures_loop].
  destruct (key_eqb k (PStr "settings")); [apply IH|].
  destruct (is_supported directions k).
  - unfold bind, lift.
    destruct (gesture_record directions settings k v) as [val|e];
      [apply IH | reflexivity].
  - unfold bind, log_warning. apply IH.
Qed.

Lemma is_substring_nonempty (needle s : string) :
  needle <> EmptyString -> is_substring needle s = true -> s <> EmptyString.
Proof.
  intros Hn H ->. cbn in H. destruct needle; [now apply Hn | discriminate].
Qed.

(** [d.update(s)] on a string that is not empty: its first character is
    no pair. *)
Lemma dict_update_string (d : dict) (s : string) :
  s <> EmptyString -> dict_update d (PStr s) = Raise ValueError.
Proof.
  intros H. unfold dict_update. cbn [py_iter rbind].
  destruct (chars s) as [|x rest] eqn:E;
    [now destruct (CharsFacts.chars_nonempty s H)|].
  destruct (CharsFacts.chars_items s x) as (c & -> & Hc);
    [rewrite E; now left|].
  cbn [dict_update_pairs]. now rewrite (CharsFacts.unpack2_one_char c Hc).
Qed.

(** X16: a gesture whose command is written as a string cannot have an [=]
    or the word [action] in the string: [in] then finds them among the
    characters, the string is taken for a mapping, [dict.update] raises
    [ValueError] on its first character, and [gestures] as a whole raises,
    having logged the warnings of the keys before. *)
Theorem gestures_string_taken_for_mapping directions
  (gest0 data pre post settings : dict) (fing dir cmd : string) (l : logs) :
  dict_update gest0 (dict_get_default (PStr "gestures") (PDict []) data)
  = Ok (pre ++ (PStr (gesture_key fing dir), PStr cmd) :: post) ->
  match dict_get (PStr "settings")
          (pre ++ (PStr (gesture_key fing dir), PStr cmd) :: post) with
  | Some sv => dict_update default_settings sv
  | None => Ok default_settings
  end = Ok settings ->
  (forall k v, In (k, v) pre -> is_supported directions k = true ->
               exists val, gesture_record directions settings k v = Ok val) ->
  In fing fingers -> In dir (map fst directions) ->
  split_on "-" dir = [dir] ->
  (is_substring "action" cmd || is_substring "=" cmd)%bool = true ->
  gestures directions (PDict gest0) data l
  = (Raise ValueError,
     l ++ map not_supported (filter (is_dropped directions) pre)).
Proof.
  intros Hgest Hset Hpre Hf Hdir Hd Hsub.
  assert (Hs : is_supported directions (PStr (gesture_key fing dir)) = true).
  { apply GesturesFacts.is_supported_iff. now exists fing, dir. }
  assert (Hne : cmd <> EmptyString).
  { apply orb_prop in Hsub.
    destruct Hsub as [H|H];
      [apply (is_substring_nonempty "action" cmd)
      |apply (is_substring_nonempty "=" cmd)];
      (discriminate || exact H). }
  assert (Erec : gesture_record directions settings
                   (PStr (gesture_key fing dir)) (PStr cmd)
                 = Raise ValueError).
  { unfold gesture_record.
    rewrite (GesturesFacts.split_gesture_key fing dir Hf Hd).
    cbn [rbind py_contains].
    assert (Hany : (if is_substring "action" cmd then Ok true
                    else Ok (is_substring "=" cmd)) = Ok true).
    { destruct (is_substring "action" cmd); [reflexivity|].
      cbn [orb] in Hsub. now rewrite Hsub. }
    rewrite Hany. cbn [rbind negb].
    now rewrite (dict_update_string _ cmd Hne). }
  unfold gestures, bind at 1, lift at 1. rewrite Hgest.
  assert (Eset : bind
                   match dict_get (PStr "settings")
                           (pre ++ (PStr (gesture_key fing dir), PStr cmd)
                                   :: post) with
                   | Some sv => lift (dict_update default_settings sv)
                   | None => ret default_settings
                   end
                   (fun st => gestures_loop directions st
                      (pre ++ (PStr (gesture_key fing dir), PStr cmd) :: post)
                      []) l
                 = gestures_loop directions settings
                     (pre ++ (PStr (gesture_key fing dir), PStr cmd) :: post)
                     [] l).
  { unfold bind, lift, ret.
    destruct (dict_get (PStr "settings") _) as [sv|].
    - now rewrite Hset.
    - now injection Hset as <-. }
  rewrite Eset, gestures_loop_app.
  destruct (GesturesFacts.gestures_loop_spec directions settings pre Hpre [] l)
    as (r & -> & _).
  cbn [gestures_loop].
  rewrite (GesturesFacts.supported_not_settings _ _ Hs), Hs.
  unfold bind, lift. now rewrite Erec.
Qed.




(** X15 at work: the sample declarations in the file and a [settings]
    block in [self.data], which stands for the file's as a whole. *)
Lemma gestures_layers_witness :
  exists res val,
    fst (gestures Examples.sample_directions (PDict Examples.mixed_gestures)
           [ (PStr "gestures",
              PDict [ (PStr "settings",
                       PDict [(PStr "detect-distance", PInt 10)]) ]) ] [])
    = Ok res
    /\ dict_get (PStr "4f-down") res = Some (PDict val)
    /\ dict_get (PStr "char") val = Some (PStr "v")
    /\ dict_get (PStr "detect-distance") val = Some (PInt 10)
    /\ dict_get (PStr "commit-distance") val = Some (PInt 600)
    /\ dict_get (PStr "action") val = Some (PList [PStr "next-group"]).
Proof.
  destruct (gestures Examples.sample_directions
              (PDict Examples.mixed_gestures)
              [ (PStr "gestures",
                 PDict [ (PStr "settings",
                          PDict [(PStr "detect-distance", PInt 10)]) ]) ] [])
    as [[res|e] l'] eqn:E; [|discriminate E].
  destruct (gestures_layers Examples.sample_directions Examples.mixed_gestures
              [ (PStr "gestures",
                 PDict [ (PStr "settings",
                          PDict [(PStr "detect-distance", PInt 10)]) ]) ]
              [ (PStr "settings", PDict [(PStr "detect-distance", PInt 10)]) ]
              [ (PStr "detect-distance", PInt 10) ]
              [ (PStr "=", PStr "next-group"); (PStr "char", PStr "v") ]
              "4" "down" (PObj "down") [] l' res
              eq_refl eq_refl eq_refl eq_refl eq_refl (or_introl eq_refl)
              eq_refl (or_intror (or_intror (or_introl eq_refl))) eq_refl
              eq_refl eq_refl E)
    as (val & Hres & _ & (x & a & Hx & Ha & Hact) & Hj).
  exists res, val. split; [reflexivity|]. split; [exact Hres|].
  split; [exact (Hj (PStr "char") eq_refl eq_refl)|].
  split; [exact (Hj (PStr "detect-distance") eq_refl eq_refl)|].
  split; [exact (Hj (PStr "commit-distance") eq_refl eq_refl)|].
  injection Hx as <-. injection Ha as <-. exact Hact.
Defined.

(** X16 at work: the command [xterm --title=x], after a key that is no
    gesture. *)
Lemma gestures_string_taken_for_mapping_witness :
  gestures Examples.sample_directions
    (PDict [ (PStr "9f-up", PStr "spawn terminal");
             (PStr "3f-up", PStr "xterm --title=x");
             (PStr "4f-down", PStr "next-group") ]) [] []
  = (Raise ValueError, [Warning "Gesture %r is not supported" [PStr "9f-up"]]).
Proof.
  refine (gestures_string_taken_for_mapping Examples.sample_directions
            [ (PStr "9f-up", PStr "spawn terminal");
              (PStr "3f-up", PStr "xterm --title=x");
              (PStr "4f-down", PStr "next-group") ] []
            [ (PStr "9f-up", PStr "spawn terminal") ]
            [ (PStr "4f-down", PStr "next-group") ]
            default_settings "3" "up" "xterm --title=x" []
            eq_refl eq_refl _
            (or_intror (or_introl eq_refl)) (or_introl eq_refl) eq_refl
            eq_refl).
  intros k v [[= <- <-]|[]] Hs. discriminate Hs.
Defined.

End GestureLayersFacts.

(** ** [Config.rules]: a section that compiles, and the embedded data *)

Module RulesOrderFacts.
Import Py Rules Declared.

Section Compiler.

Variable all_conditions : list string.
Variable all_actions : list string.

Let compile_items := compile_items all_conditions all_actions.
Let compile_rule := compile_rule all_conditions all_actions.
Let compile_rules := compile_rules all_conditions all_actions.
Let compile_chain := compile_chain all_conditions all_actions.
Let rules := rules all_conditions all_actions.
Let conditions_of := conditions_of all_conditions.
Let actions_of := actions_of all_conditions all_actions.
Let well_formed := well_formed all_conditions all_actions.
Let section_ok := section_ok all_conditions all_actions.
Let section_rules := section_rules all_conditions all_actions.

Lemma compile_items_declared (items : dict) (cond act : list instance) :
  existsb (is_unknown all_conditions all_actions) (map fst items) = false ->
  forallb (fun kv => match call_args (snd kv) with
                     | Ok _ => true
                     | Raise _ => false
                     end) items = true ->
  compile_items items cond act
  = Ok (cond ++ conditions_of items, act ++ actions_of items).
Proof.
  revert cond act. induction items as [|[k v] items IH]; intros cond act Hu Ha.
  - cbn. now rewrite !app_nil_r.
  - cbn [map fst existsb] in Hu. apply orb_false_elim in Hu.
    destruct Hu as [Hk Hu].
    cbn [forallb snd] in Ha. apply andb_prop in Ha. destruct Ha as [Hv Ha].
    unfold compile_items, conditions_of, actions_of, Declared.conditions_of,
      Declared.actions_of in *.
    cbn [Rules.compile_items flat_map]. unfold instance_of at 1 3.
    cbn [fst snd]. unfold is_unknown in Hk.
    destruct (call_args v) as [a|e]; [|discriminate].
    destruct (registered all_conditions k) as [c|].
    + cbn [rbind]. rewrite (IH _ _ Hu Ha). cbn [app].
      now rewrite <- app_assoc.
    + destruct (registered all_actions k) as [c|]; [|discriminate].
      cbn [rbind]. rewrite (IH _ _ Hu Ha). cbn [app].
      now rewrite <- app_assoc.
Qed.

Lemma actions_of_nonempty (items : dict) :
  existsb (makes_action all_conditions all_actions) (map fst items) = true ->
  forallb (fun kv => match call_args (snd kv) with
                     | Ok _ => true
                     | Raise _ => false
                     end) items = true ->
  actions_of items <> [].
Proof.
  induction items as [|[k v] items IH]; intros Hm Ha; [discriminate|].
  cbn [forallb snd] in Ha. apply andb_prop in Ha. destruct Ha as [Hv Ha].
  cbn [map fst existsb] in Hm.
  unfold actions_of, Declared.actions_of in *. cbn [flat_map fst].
  unfold instance_of at 1. cbn [fst snd]. unfold makes_action at 1 in Hm.
  destruct (call_args v) as [a|e]; [|discriminate].
  destruct (registered all_conditions k) as [c|].
  - cbn [orb app] in *. now apply IH.
  - destruct (registered all_actions k) as [c|]; [discriminate|].
    cbn [orb app] in *. now apply IH.
Qed.

Lemma compile_rule_declared (items : dict) :
  well_formed items = true ->
  compile_rule (PDict items) = Ok (conditions_of items, actions_of items)
  /\ actions_of items <> [].
Proof.
  unfold well_formed, Declared.well_formed, is_invalid. intros H.
  apply andb_prop in H. destruct H as [Hv Ha].
  apply negb_true_iff in Hv. apply orb_false_elim in Hv.
  destruct Hv as [Hu Hm]. apply negb_false_iff in Hm.
  pose proof (actions_of_nonempty items Hm Ha) as Hne.
  split; [|exact Hne].
  unfold compile_rule, Rules.compile_rule. fold compile_items.
  rewrite (compile_items_declared items [] [] Hu Ha). cbn [rbind app snd].
  destruct (actions_of items); [now destruct Hne | reflexivity].
Qed.

Lemma compile_rules_declared (cls : pyval) (rs : list pyval) :
  forallb (fun r => match r with
                    | PDict items => well_formed items
                    | _ => false
                    end) rs = true ->
  compile_rules cls rs
  = (map (fun r => (cls, conditions_of (rule_items r),
                    actions_of (rule_items r))) rs, None).
Proof.
  induction rs as [|r rs IH]; intros H; [reflexivity|].
  cbn [forallb] in H. apply andb_prop in H. destruct H as [Hr H].
  destruct r as [| | | | |items| |]; try discriminate.
  destruct (compile_rule_declared items Hr) as [E _].
  unfold compile_rules, compile_rule in *. cbn [Rules.compile_rules].
  rewrite E, (IH H). reflexivity.
Qed.

Lemma compile_chain_declared (primary : dict) :
  forallb section_ok primary = true ->
  compile_chain (items_of primary) = (flat_map section_rules primary, None).
Proof.
  induction primary as [|[cls v] primary IH]; intros H; [reflexivity|].
  cbn [forallb] in H. apply andb_prop in H. destruct H as [Hs H].
  unfold section_ok, Declared.section_ok in Hs. cbn [snd] in Hs.
  destruct v as [| | | |rs| | |]; try discriminate.
  unfold compile_chain in *. cbn [items_of map fst snd Rules.compile_chain].
  change (unpack2 (PList [cls; PList rs])) with (Ok (cls, PList rs)).
  cbv iota beta. unfold compile_subject. cbn [py_iter].
  fold compile_rules. rewrite (compile_rules_declared _ rs Hs).
  fold (items_of primary). rewrite (IH H). reflexivity.
Qed.

(** X17: let every rule of the file's section be well formed (its keys
    are registered kinds, one of them an action, and no value is a mapping
    with a key that is no string) and let the embedded data have no rules.
    Then [rules] raises nothing and yields one rule for each rule of the
    section, in the order of the section: its subject is the key of the
    section, [None] for [global]; its conditions and its actions are made
    of its condition keys and of its action keys, in the order of the keys,
    and a key registered as both makes a condition only.  Every rule
    yielded has an action. *)
Theorem rules_in_file_order (primary data : dict) :
  forallb section_ok primary = true ->
  py_iter (dict_get_default (PStr "rules") (PDict []) data) = Ok [] ->
  rules (PDict primary) data = (flat_map section_rules primary, None)
  /\ List.length (fst (rules (PDict primary) data))
     = List.length (flat_map (fun kv => match snd kv with
                                        | PList rs => rs
                                        | _ => []
                                        end) primary)
  /\ (forall y, In y (fst (rules (PDict primary) data)) -> snd y <> []).
Proof.
  intros Hok Hdata.
  assert (E : rules (PDict primary) data
              = (flat_map section_rules primary, None)).
  { unfold rules, Rules.rules. rewrite Hdata, app_nil_r.
    now apply compile_chain_declared. }
  rewrite E. cbn [fst]. split; [reflexivity|]. split.
  - clear E. induction primary as [|[cls v] primary IH]; [reflexivity|].
    cbn [forallb] in Hok. apply andb_prop in Hok. destruct Hok as [_ Hok].
    cbn [flat_map]. rewrite !length_app, (IH Hok). f_equal.
    unfold section_rules, Declared.section_rules. cbn [snd].
    destruct v; try reflexivity. apply length_map.
  - intros y Hy. apply in_flat_map in Hy. destruct Hy as ([cls v] & Hin & Hy).
    pose proof (proj1 (forallb_forall _ _) Hok _ Hin) as Hs.
    unfold section_ok, Declared.section_ok in Hs.
    unfold section_rules, Declared.section_rules in Hy. cbn [snd fst] in *.
    destruct v as [| | | |rs| | |]; try discriminate.
    apply in_map_iff in Hy. destruct Hy as (r & <- & Hr).
    pose proof (proj1 (forallb_forall _ _) Hs _ Hr) as Hw.
    destruct r as [| | | | |items| |]; try discriminate.
    cbn [snd rule_items].
    exact (proj2 (compile_rule_declared items Hw)).
Qed.

Lemma items_of_app (d1 d2 : dict) :
  items_of (d1 ++ d2) = items_of d1 ++ items_of d2.
Proof. unfold items_of. apply map_app. Qed.

(** X18: the rules of the embedded data are compiled when they are
    written as a list of pairs of a subject and its rules, and not when
    they are written as a mapping, the way the file's are.  Of a mapping
    [chain] hands on the keys, and [for cls, rules in] unpacks a key that
    is a string into its characters: once the rules of the file have been
    yielded, a first key that is not two characters long raises
    [ValueError], and a first key of two characters gives the second
    character as a rule, which has no [items] and raises
    [AttributeError].  A list of pairs goes through the loop like the
    pairs of the file, after them. *)
Theorem rules_embedded_mapping_unpacked (primary second : dict) (data : dict)
  (s : string) (v : pyval) (ys : list rule) :
  compile_chain (items_of primary) = (ys, None) ->
  (dict_get (PStr "rules") data = Some (PDict ((PStr s, v) :: second)) ->
   rules (PDict primary) data
   = (ys, Some (if Nat.eqb (List.length (chars s)) 2 then AttributeError
                else ValueError)))
  /\ (dict_get (PStr "rules") data = Some (PList (items_of second)) ->
      rules (PDict primary) data
      = compile_chain (items_of (primary ++ second))).
Proof.
  intros Hp. split; intros Hd; unfold rules, Rules.rules, dict_get_default;
    rewrite Hd; cbn [py_iter map fst]; fold compile_chain.
  - unfold compile_chain. rewrite RulesFacts.compile_chain_app.
    fold compile_chain. rewrite Hp. unfold compile_chain.
    cbn [Rules.compile_chain]. rewrite CharsFacts.unpack2_string.
    destruct (chars s) as [|a [|b [|c rest]]] eqn:E;
      cbn [List.length Nat.eqb fst snd]; try (now rewrite app_nil_r).
    destruct (CharsFacts.chars_items s b) as (cb & -> & Hb);
      [rewrite E; right; now left|].
    unfold compile_subject. cbn [py_iter].
    rewrite (CharsFacts.chars_one_char cb Hb).
    cbn [Rules.compile_rules Rules.compile_rule fst snd].
    now rewrite app_nil_r.
  - now rewrite items_of_app.
Qed.

End Compiler.

(** X17 at work: the sample section. *)
Lemma rules_in_file_order_witness :
  Rules.rules Examples.sample_conditions Examples.sample_actions
    (PDict [ (PStr "global", PList [PDict [(PStr "layout", PStr "Float")]]);
             (PStr "Gimp",
              PList [ PDict [(PStr "has-type", PStr "utility");
                             (PStr "ignore-hints", PBool true)];
                      PDict [(PStr "layout", PStr "Tile")] ]) ]) []
  = ([ (PNone, [], [Instance "layout" [PStr "Float"] []]);
       (PStr "Gimp", [Instance "has-type" [PStr "utility"] []],
        [Instance "ignore-hints" [PBool true] []]);
       (PStr "Gimp", [], [Instance "layout" [PStr "Tile"] []]) ],
     None).
Proof.
  exact (proj1 (rules_in_file_order Examples.sample_conditions
                  Examples.sample_actions
                  [ (PStr "global",
                     PList [PDict [(PStr "layout", PStr "Float")]]);
                    (PStr "Gimp",
                     PList [ PDict [(PStr "has-type", PStr "utility");
                                    (PStr "ignore-hints", PBool true)];
                             PDict [(PStr "layout", PStr "Tile")] ]) ] []
                  eq_refl eq_refl)).
Defined.

(** X18 at work: a section in the embedded data after the global rule of
    the file, written as a mapping, with a key of one character that takes
    two bytes, and written as a list of pairs. *)
Lemma rules_embedded_mapping_unpacked_witness :
  Rules.rules Examples.sample_conditions Examples.sample_actions
    (PDict Examples.global_rules)
    [ (PStr "rules",
       PDict [ (PStr "é", PList [PDict [(PStr "layout", PStr "Tile")]]) ]) ]
  = ([(PNone, [], [Instance "layout" [PStr "Float"] []])], Some ValueError)
  /\ Rules.rules Examples.sample_conditions Examples.sample_actions
       (PDict Examples.global_rules)
       [ (PStr "rules",
          PList [ PList [ PStr "Gimp";
                          PList [PDict [(PStr "layout", PStr "Tile")]] ] ]) ]
     = ([ (PNone, [], [Instance "layout" [PStr "Float"] []]);
          (PStr "Gimp", [], [Instance "layout" [PStr "Tile"] []]) ], None).
Proof.
  split.
  - exact (proj1 (rules_embedded_mapping_unpacked Examples.sample_conditions
                    Examples.sample_actions Examples.global_rules []
                    [ (PStr "rules",
                       PDict [ (PStr "é",
                                PList [PDict [(PStr "layout",
                                               PStr "Tile")]]) ]) ]
                    "é" (PList [PDict [(PStr "layout", PStr "Tile")]])
                    [(PNone, [], [Instance "layout" [PStr "Float"] []])]
                    eq_refl) eq_refl).
  - exact (proj2 (rules_embedded_mapping_unpacked Examples.sample_conditions
                    Examples.sample_actions Examples.global_rules
                    [ (PStr "Gimp",
                       PList [PDict [(PStr "layout", PStr "Tile")]]) ]
                    [ (PStr "rules",
                       PList [ PList [ PStr "Gimp";
                                       PList [PDict [(PStr "layout",
                                                      PStr "Tile")]] ] ]) ]
                    EmptyString PNone
                    [(PNone, [], [Instance "layout" [PStr "Float"] []])]
                    eq_refl) eq_refl).
Defined.

End RulesOrderFacts.

(** ** [Config.bars]: the options of a bar, stale variables, a second call *)

Module BarsMoreFacts.
Import Py Extensions Bars Notions BarStore.

Lemma dict_mem_del (j k : pyval) (d : dict) :
  dict_mem j d = false -> dict_mem j (dict_del k d) = false.
Proof.
  unfold dict_mem. induction d as [|[k2 v2] d IH]; cbn [dict_get dict_del];
    [reflexivity|].
  destruct (key_eqb j k2) eqn:E; [discriminate|]. intros H.
  destruct (key_eqb k k2); [exact H|]. cbn [dict_get]. rewrite E. now apply IH.
Qed.

Lemma unique_keys_del (k : pyval) (d : dict) :
  unique_keys d = true -> unique_keys (dict_del k d) = true.
Proof.
  induction d as [|[k2 v2] d IH]; intros Hu; [reflexivity|].
  cbn [unique_keys] in Hu. apply andb_prop in Hu. destruct Hu as [Hn Hu].
  cbn [dict_del]. destruct (key_eqb k k2); [exact Hu|].
  cbn [unique_keys]. rewrite (IH Hu). apply negb_true_iff in Hn.
  now rewrite (dict_mem_del _ k _ Hn).
Qed.

Lemma dict_get_del (j k : pyval) (d : dict) :
  unique_keys d = true ->
  dict_get j (dict_del k d) = if key_eqb j k then None else dict_get j d.
Proof.
  induction d as [|[k2 v2] d IH]; intros Hu.
  - cbn. now destruct (key_eqb j k).
  - cbn [unique_keys] in Hu. apply andb_prop in Hu. destruct Hu as [Hn Hu].
    apply negb_true_iff in Hn. unfold dict_mem in Hn.
    cbn [dict_del dict_get]. destruct (key_eqb k k2) eqn:Ek.
    + destruct (key_eqb j k) eqn:Ej.
      * rewrite (GestureLayersFacts.dict_get_eqb j k2 d
                   (GesturesFacts.key_eqb_trans _ _ _ Ej Ek)).
        now destruct (dict_get k2 d).
      * destruct (key_eqb j k2) eqn:Ej2; [|reflexivity].
        rewrite GesturesFacts.key_eqb_sym in Ek.
        now rewrite (GesturesFacts.key_eqb_trans _ _ _ Ej2 Ek) in Ej.
    + cbn [dict_get]. rewrite (IH Hu).
      destruct (key_eqb j k2) eqn:Ej2; [|reflexivity].
      destruct (key_eqb j k) eqn:Ej; [|reflexivity].
      rewrite GesturesFacts.key_eqb_sym in Ej.
      now rewrite (GesturesFacts.key_eqb_trans _ _ _ Ej Ej2) in Ek.
Qed.

(** [d.pop(k, default)] leaves [d] without [k] and with its other keys. *)
Lemma dict_get_pop (j k dflt : pyval) (d : dict) :
  unique_keys d = true ->
  dict_get j (snd (dict_pop k dflt d))
  = if key_eqb j k then None else dict_get j d.
Proof.
  intros Hu. unfold dict_pop. destruct (dict_get k d) as [v|] eqn:E; cbn [snd].
  - now apply dict_get_del.
  - destruct (key_eqb j k) eqn:Ej; [|reflexivity].
    now rewrite (GestureLayersFacts.dict_get_eqb j k d Ej).
Qed.

Lemma unique_keys_pop (k dflt : pyval) (d : dict) :
  unique_keys d = true -> unique_keys (snd (dict_pop k dflt d)) = true.
Proof.
  intros Hu. unfold dict_pop. destruct (dict_get k d); cbn [snd];
    [now apply unique_keys_del | exact Hu].
Qed.

Lemma dict_get_popped (j : pyval) (b0 : dict) :
  unique_keys b0 = true ->
  dict_get j (popped b0)
  = if (key_eqb j (PStr "right") || key_eqb j (PStr "left")
        || key_eqb j (PStr "screen"))%bool
    then None else dict_get j b0.
Proof.
  intros Hu. unfold popped, pop_list.
  rewrite dict_get_pop by (do 2 apply unique_keys_pop; exact Hu).
  rewrite dict_get_pop by (apply unique_keys_pop; exact Hu).
  rewrite dict_get_pop by exact Hu.
  destruct (key_eqb j (PStr "right")), (key_eqb j (PStr "left")),
    (key_eqb j (PStr "screen")); reflexivity.
Qed.

Lemma unique_keys_popped (b0 : dict) :
  unique_keys b0 = true -> unique_keys (popped b0) = true.
Proof. intros Hu. unfold popped, pop_list. now do 3 apply unique_keys_pop. Qed.

Section Builder.

Variable env : ext_env.
Variable widgets : module.
Variable Widget_base : string.
Variable int_of_string : string -> option Z.

Let add_widget := add_widget env widgets Widget_base.
Let add_widgets := add_widgets env widgets Widget_base.
Let build_bar := build_bar env widgets Widget_base int_of_string.
Let bars_loop := bars_loop env widgets Widget_base int_of_string.
Let bars := bars env widgets Widget_base int_of_string.
Let resolve := resolve env widgets Widget_base.
Let built := built env widgets Widget_base.
Let buildable := buildable env widgets Widget_base.
Let resolver_log := resolver_log env widgets Widget_base.

(** What a bar that was built was built of. *)
Lemma build_bar_built (b0 : dict) (loc loc' : locals) (l l' : logs)
  (sno : Z) (b : bar) :
  build_bar (PDict b0) loc l = (Ok (loc', (sno, b)), l') ->
  Rules.keywords (popped b0) = Ok (bar_options b)
  /\ py_int int_of_string (screen_of b0) = Ok sno.
Proof.
  unfold build_bar, Bars.build_bar, popped, screen_of.
  destruct (pop_list "right" b0) as [right b1]. cbn [snd].
  unfold bind at 1, lift at 1.
  destruct (py_reversed right) as [rs|e]; [|discriminate].
  unfold bind at 1.
  destruct (Bars.add_widgets env widgets Widget_base true rs (loc, []) l)
    as [[st1|e] l1]; [|discriminate].
  destruct (pop_list "left" b1) as [left b2]. cbn [snd].
  unfold bind at 1, lift at 1.
  destruct (py_iter left) as [ls|e]; [|discriminate].
  unfold bind at 1.
  destruct (Bars.add_widgets env widgets Widget_base false ls st1 l1)
    as [[st2|e] l2]; [|discriminate].
  destruct (dict_pop (PStr "screen") (PInt 0) b2) as [screen b3].
  cbn [fst snd]. unfold bind, lift, ret.
  destruct (py_int int_of_string screen) as [z|e]; [|discriminate].
  destruct (Rules.keywords b3) as [opts|e]; [|discriminate].
  intros [= _ <- <- _]. now split.
Qed.

(** X19: the options of a bar.  A bar that [bars] builds from a mapping
    gets as its options the keys of the mapping but [right], [left] and
    [screen], which never reach [widgets.Bar], each with its value; its
    screen number is what [int] makes of the value under [screen], and 0
    when there is no such key. *)
Theorem bars_options (b0 : dict) (loc loc' : locals) (l l' : logs)
  (sno : Z) (b : bar) :
  unique_keys b0 = true ->
  build_bar (PDict b0) loc l = (Ok (loc', (sno, b)), l') ->
  assoc "right" (bar_options b) = None
  /\ assoc "left" (bar_options b) = None
  /\ assoc "screen" (bar_options b) = None
  /\ (forall k,
        String.eqb k "right" = false -> String.eqb k "left" = false ->
        String.eqb k "screen" = false ->
        assoc k (bar_options b) = dict_get (PStr k) b0)
  /\ py_int int_of_string (dict_get_default (PStr "screen") (PInt 0) b0)
     = Ok sno
  /\ (dict_get (PStr "screen") b0 = None -> sno = 0%Z).
Proof.
  intros Hu E. destruct (build_bar_built _ _ _ _ _ _ _ E) as [Hk Hs].
  assert (Ha : forall k, assoc k (bar_options b)
                         = dict_get (PStr k) (popped b0))
    by (intros k; apply (BarsFacts.keywords_assoc _ _ _ Hk)).
  assert (Hscreen : screen_of b0
                    = dict_get_default (PStr "screen") (PInt 0) b0).
  { unfold screen_of, pop_list, dict_pop at 1, dict_get_default.
    rewrite dict_get_pop by (apply unique_keys_pop; exact Hu).
    rewrite dict_get_pop by exact Hu. cbn [key_eqb String.eqb Ascii.eqb
      Bool.eqb]. now destruct (dict_get (PStr "screen") b0). }
  rewrite Hscreen in Hs.
  refine (conj _ (conj _ (conj _ (conj _ (conj Hs _))))).
  - now rewrite Ha, (dict_get_popped _ _ Hu).
  - now rewrite Ha, (dict_get_popped _ _ Hu).
  - now rewrite Ha, (dict_get_popped _ _ Hu).
  - intros k H1 H2 H3. rewrite Ha, (dict_get_popped _ _ Hu).
    cbn [key_eqb]. now rewrite H1, H2, H3.
  - intros Hn. unfold dict_get_default in Hs. rewrite Hn in Hs.
    cbn in Hs. now injection Hs as <-.
Qed.

(** A second pass over an item that has lost its three keys *)
Lemma build_bar_popped (b0 : dict) (opts : list (string * pyval))
  (loc : locals) (l : logs) :
  unique_keys b0 = true ->
  Rules.keywords (popped b0) = Ok opts ->
  build_bar (PDict (popped b0)) loc l = (Ok (loc, (0%Z, Bar [] opts)), l).
Proof.
  intros Hu Hk. pose proof (unique_keys_popped b0 Hu) as Hup.
  assert (Hget : forall k,
             (key_eqb k (PStr "right") || key_eqb k (PStr "left")
              || key_eqb k (PStr "screen"))%bool = true ->
             dict_get k (popped b0) = None).
  { intros k Hkk. now rewrite (dict_get_popped _ _ Hu), Hkk. }
  unfold build_bar, Bars.build_bar, pop_list, dict_pop.
  rewrite (Hget (PStr "right") eq_refl), (Hget (PStr "left") eq_refl),
    (Hget (PStr "screen") eq_refl).
  cbn [py_reversed py_iter rbind rev]. unfold bind, lift, ret.
  cbn [Bars.add_widgets py_int fst snd]. unfold ret. now rewrite Hk.
Qed.

Lemma bars_loop_second (binfos : list dict) :
  forallb unique_keys binfos = true ->
  forall loc l ys l',
    bars_loop (map PDict binfos) loc l = ((ys, None), l') ->
    List.length ys = List.length binfos
    /\ forall loc2 l2,
         bars_loop (map (fun b0 => PDict (popped b0)) binfos) loc2 l2
         = ((map (fun y => (0%Z, Bar [] (bar_options (snd y)))) ys, None),
            l2).
Proof.
  induction binfos as [|b0 binfos IH]; intros Hu loc l ys l' E.
  - cbn in E. injection E as <- _. now split.
  - cbn [forallb] in Hu. apply andb_prop in Hu. destruct Hu as [Hu0 Hu].
    unfold bars_loop in *. cbn [map Bars.bars_loop] in E |- *.
    fold build_bar in E |- *.
    destruct (build_bar (PDict b0) loc l) as [[[loc1 [sno b]]|e] l1] eqn:E1;
      [|discriminate].
    destruct (build_bar_built _ _ _ _ _ _ _ E1) as [Hk _].
    destruct (Bars.bars_loop env widgets Widget_base int_of_string
                (map PDict binfos) loc1 l1) as [[ys1 r] l1'] eqn:E2.
    cbn [fst snd Rules.yield_then] in E. injection E as <- -> _.
    destruct (IH Hu _ _ _ _ E2) as [Hlen H2]. split.
    + cbn [List.length]. now rewrite Hlen.
    + intros loc2 l2.
      rewrite (build_bar_popped b0 _ loc2 l2 Hu0 Hk), (H2 loc2 l2).
      reflexivity.
Qed.

(** X20: [bars] uses up the section [bars] of [self.data].  After a call
    that ran to its end on a section that is a list of mappings, the
    mappings of [self.data] have lost their keys [right], [left] and
    [screen]; a second call then yields as many bars, each without a
    widget, for screen 0 and with the options of the first call, and it
    logs nothing. *)
Theorem bars_second_call (data : dict) (binfos : list dict)
  (bars_file : pyval) (l l' l2 : logs) (ys : list (Z * bar)) :
  binfos <> [] ->
  forallb unique_keys binfos = true ->
  dict_get (PStr "bars") data = Some (PList (map PDict binfos)) ->
  bars data bars_file l = ((ys, None), l') ->
  bars (dict_set (PStr "bars")
          (PList (map (fun b0 => PDict (popped b0)) binfos)) data)
    bars_file l2
  = ((map (fun y => (0%Z, Bar [] (bar_options (snd y)))) ys, None), l2)
  /\ List.length ys = List.length binfos.
Proof.
  intros Hne Hu Hd E. unfold bars, Bars.bars, dict_get_default in *.
  rewrite Hd in E. rewrite BarsFacts.dict_get_set_str.
  destruct binfos as [|b0 binfos]; [now destruct Hne|].
  cbn [map truthy py_iter] in E |- *.
  destruct (bars_loop_second (b0 :: binfos) Hu _ _ _ _ E) as [Hlen H2].
  split; [exact (H2 (Locals None None) l2) | exact Hlen].
Qed.

(** *** Stale variables *)

Lemma normalized_idem (t : string) : normalized (normalized t) = normalized t.
Proof.
  unfold normalized. destruct (separator_match t) eqn:E; [reflexivity|].
  now rewrite E.
Qed.

Lemma dict_set_twice (k : string) (v : pyval) (d : dict) :
  dict_set (PStr k) v (dict_set (PStr k) v d) = dict_set (PStr k) v d.
Proof.
  induction d as [|[k2 v2] d IH]; cbn [dict_set].
  - cbn [key_eqb]. now rewrite String.eqb_refl.
  - destruct (key_eqb (PStr k) k2) eqn:E; cbn [dict_set]; rewrite E;
      [reflexivity | now rewrite IH].
Qed.

Lemma final_params_twice (right : bool) (p : dict) :
  final_params right (final_params right p) = final_params right p.
Proof. destruct right; [apply dict_set_twice | reflexivity]. Qed.

Lemma declaration_bound (winfo : pyval) (t : string) (p : dict)
  (loc : locals) :
  declaration winfo = Some (t, p) ->
  bind_winfo winfo loc = Locals (Some (PStr t)) (Some (PDict p)).
Proof.
  intros Ed. destruct winfo as [| | |s0|?|d|?|?]; try discriminate.
  - now injection Ed as <- <-.
  - destruct d as [|[[| | |s0|?|?|?|?] [| | | |?|p0|?|?]] d];
      try discriminate.
    now injection Ed as <- <-.
Qed.

(** A turn of the loop, with the variables it leaves behind *)
Lemma add_widget_locals (right : bool) (winfo : pyval) (t : string)
  (p : dict) (loc : locals) (w : list widget) (l : logs) :
  declaration winfo = Some (t, p) ->
  buildable right winfo = true ->
  add_widget right winfo (loc, w) l
  = (Ok (Locals (Some (PStr (normalized t)))
           (Some (PDict (final_params right p))),
         w ++ built right winfo),
     l ++ resolver_log winfo).
Proof.
  intros Ed Hb.
  unfold buildable, built, resolver_log, resolve, Bars.buildable, Bars.built,
    Bars.resolver_log, Bars.resolve in *.
  rewrite Ed in *.
  unfold add_widget, Bars.add_widget. cbn [fst snd].
  rewrite (declaration_bound winfo t p loc Ed).
  unfold normalize_typ. cbn [typ params].
  fold (normalized t). unfold bind at 1, lift at 1.
  assert (Hp : exists q,
             (if right then lift (set_right (Some (PDict p)))
              else ret (PDict p)) l = (Ok q, l)
             /\ (if right then Some q else Some (PDict p))
                = Some (PDict (final_params right p))).
  { destruct right; cbn; eexists; split; reflexivity. }
  destruct Hp as (q & Eq & Eloc). unfold bind at 1. rewrite Eq, Eloc.
  unfold bind at 1.
  rewrite (ResolverFacts.get_extension_class_log env (normalized t) "widgets"
             widgets Widget_base PNone l).
  destruct (get_extension_class env (normalized t) "widgets" widgets
              Widget_base PNone []) as [r ws]. cbn [fst snd] in *.
  destruct r as [[| | | | | |c|]|e]; try discriminate.
  - unfold ret. now rewrite app_nil_r.
  - cbn [params]. unfold keyword_args, bind, lift, ret.
    destruct (Rules.keywords (final_params right p)) as [kw|e];
      [reflexivity | discriminate].
Qed.

(** X21: the variables [typ] and [params] outlive a turn of the loop over
    the widgets.  An empty mapping among the declarations binds neither
    ([for typ, params in winfo.items()] has nothing to go through), so the
    turn works on what the turn before left: after a declaration that was
    built or left out, the empty mapping stands for the same declaration
    once more; as the first declaration of the first bar, it raises
    [UnboundLocalError]. *)
Theorem bars_empty_mapping_repeats (right : bool) (winfo : pyval)
  (rest : list pyval) (st : locals * list widget) (l : logs) :
  buildable right winfo = true ->
  add_widgets right (winfo :: PDict [] :: rest) st l
  = add_widgets right (winfo :: winfo :: rest) st l
  /\ add_widgets right (PDict [] :: rest) (Locals None None, snd st) l
     = (Raise UnboundLocalError, l).
Proof.
  intros Hb. split; [|reflexivity].
  assert (Hd : exists t p, declaration winfo = Some (t, p)).
  { unfold buildable, Bars.buildable in Hb.
    destruct (declaration winfo) as [[t p]|]; [eauto | discriminate]. }
  destruct Hd as (t & p & Ed). destruct st as [loc w].
  unfold add_widgets. cbn [Bars.add_widgets]. fold add_widget add_widgets.
  unfold bind at 1 3.
  rewrite (add_widget_locals right winfo t p loc w l Ed Hb).
  unfold bind at 1 2.
  set (loc1 := Locals (Some (PStr (normalized t)))
                 (Some (PDict (final_params right p)))).
  set (again := PDict [(PStr (normalized t), PDict (final_params right p))]).
  assert (Hsame : built right again = built right winfo
                  /\ resolver_log again = resolver_log winfo
                  /\ buildable right again = buildable right winfo).
  { unfold built, resolver_log, buildable, Bars.built,
      Bars.resolver_log, Bars.buildable, again.
    cbn [declaration]. rewrite Ed, normalized_idem, final_params_twice.
    now split; [|split]. }
  destruct Hsame as (Hbuilt & Hlog & Hbld).
  assert (E1 : add_widget right (PDict []) (loc1, w ++ built right winfo)
                 (l ++ resolver_log winfo)
               = add_widget right again (loc1, w ++ built right winfo)
                   (l ++ resolver_log winfo)) by reflexivity.
  rewrite E1.
  rewrite (add_widget_locals right again (normalized t)
             (final_params right p) loc1 _ _ eq_refl
             (eq_trans Hbld Hb)).
  rewrite (add_widget_locals right winfo t p loc1 _ _ Ed Hb).
  now rewrite normalized_idem, final_params_twice, Hbuilt, Hlog.
Qed.

End Builder.

(** X19 at work: the sample bar. *)
Lemma bars_options_witness :
  exists loc' sno b l',
    build_bar Examples.sample_env Examples.widgets_module "Widget"
      (fun _ => None) (PDict Examples.sample_bar) (Locals None None) []
    = (Ok (loc', (sno, b)), l')
    /\ assoc "right" (bar_options b) = None
    /\ assoc "left" (bar_options b) = None
    /\ assoc "position" (bar_options b) = Some (PStr "top")
    /\ sno = 0%Z.
Proof.
  destruct (build_bar Examples.sample_env Examples.widgets_module "Widget"
              (fun _ => None) (PDict Examples.sample_bar) (Locals None None)
              []) as [[[loc' [sno b]]|e] l'] eqn:E; [|discriminate E].
  destruct (bars_options Examples.sample_env Examples.widgets_module "Widget"
              (fun _ => None) Examples.sample_bar (Locals None None) loc' []
              l' sno b eq_refl E) as (Hr & Hl & _ & Hk & Hi & _).
  exists loc', sno, b, l'. split; [reflexivity|]. split; [exact Hr|].
  split; [exact Hl|]. split.
  - exact (Hk "position" eq_refl eq_refl eq_refl).
  - cbn in Hi. now injection Hi as <-.
Defined.

(** X20 at work: the sample bar as the one item of the section. *)
Lemma bars_second_call_witness :
  bars Examples.sample_env Examples.widgets_module "Widget" (fun _ => None)
    [(PStr "bars", PList [PDict [(PStr "position", PStr "top")]])]
    (PDict []) []
  = (([(0%Z, Bar [] [("position", PStr "top")])], None), []).
Proof.
  exact (proj1 (bars_second_call Examples.sample_env Examples.widgets_module
                  "Widget" (fun _ => None)
                  [(PStr "bars", PList [PDict Examples.sample_bar])]
                  [Examples.sample_bar] (PDict []) []
                  [Warning "Class %r is not available"
                     [PStr "examples.Missing"]] []
                  [ (0%Z,
                     Bar [ Widget (PClass "Sep") [("right", PBool true)];
                           Widget (PClass "Clock") [("right", PBool true)];
                           Widget (PClass "Clock") [("format", PStr "%H:%M")] ]
                       [("position", PStr "top")]) ]
                  ltac:(discriminate) eq_refl eq_refl eq_refl)).
Defined.

(** X21 at work: an empty mapping after the clock, on the left side. *)
Lemma bars_empty_mapping_repeats_witness :
  add_widgets Examples.sample_env Examples.widgets_module "Widget" false
    [PStr "Clock"; PDict []] (Locals None None, []) []
  = add_widgets Examples.sample_env Examples.widgets_module "Widget" false
      [PStr "Clock"; PStr "Clock"] (Locals None None, []) [].
Proof.
  exact (proj1 (bars_empty_mapping_repeats Examples.sample_env
                  Examples.widgets_module "Widget" false (PStr "Clock") []
                  (Locals None None, []) [] eq_refl)).
Defined.

End BarsMoreFacts.

(** ** [Config.get_extension_class]: where a name is looked up *)

Module ResolverLayersFacts.
Import Py Extensions.

(** X22: where [get_extension_class] looks, and what of the imports gets
    out.  The module [tilenol.ext.<module_name>] is loaded first, for
    every name: an exception of loading it other than [ImportError] leaves
    [get_extension_class], also for a dotted name that names another
    module.  When it is loaded or missing, a dotted name is looked up in
    the extension module it names and nowhere else, so that the outcome
    depends neither on [module_name] nor on [default_module]; an exception
    of loading that module gives the default value and the warning "Class
    %r is not available" if it is an [ImportError], an [AttributeError] or
    a [ValueError], and leaves [get_extension_class] if not.  A plain name
    that the extension module has is taken from there, whatever
    [default_module] has under it: a class there that fails the check
    gives the default value, and a class of the name in [default_module]
    is not looked at.  A plain name that the extension module lacks is
    taken from [default_module]. *)
Theorem get_extension_class_shadowing env name module_name default_module
  base_class default_value (l : logs) :
  (forall e name',
     first_import env module_name = Raise e ->
     get_extension_class env name' module_name default_module base_class
       default_value l
     = (Raise e, l))
  /\ (forall m cname mod_ module_name' mod_' default_module',
        split_first "." name = Some (m, cname) ->
        first_import env module_name = Ok mod_ ->
        first_import env module_name' = Ok mod_' ->
        get_extension_class env name module_name default_module base_class
          default_value l
        = get_extension_class env name module_name' default_module'
            base_class default_value l)
  /\ (forall m cname mod_ e,
        split_first "." name = Some (m, cname) ->
        first_import env module_name = Ok mod_ ->
        ext_import env m = Raise e ->
        get_extension_class env name module_name default_module base_class
          default_value l
        = if import_caught e
          then (Ok default_value, l ++ [not_available name])
          else (Raise e, l))
  /\ (forall md res default_module',
        split_first "." name = None ->
        ext_import env module_name = Ok md ->
        getattr md name = Some res ->
        get_extension_class env name module_name default_module base_class
          default_value l
        = get_extension_class env name module_name default_module'
            base_class default_value l)
  /\ (forall md c,
        split_first "." name = None ->
        ext_import env module_name = Ok md ->
        getattr md name = Some (PClass c) ->
        issubclass_of env c base_class = false ->
        get_extension_class env name module_name default_module base_class
          default_value l
        = (Ok default_value, l ++ [wrong_class]))
  /\ (forall mod_ c,
        split_first "." name = None ->
        first_import env module_name = Ok mod_ ->
        getattr mod_ name = None ->
        getattr default_module name = Some (PClass c) ->
        get_extension_class env name module_name default_module base_class
          default_value l
        = if issubclass_of env c base_class then (Ok (PClass c), l)
          else (Ok default_value, l ++ [wrong_class])).
Proof.
  refine (conj _ (conj _ (conj _ (conj _ (conj _ _))))).
  - intros e name' H. unfold get_extension_class, locate. now rewrite H.
  - intros m cname mod_ module_name' mod_' default_module' Hs H1 H2.
    unfold get_extension_class.
    now rewrite (ResolverFacts.locate_dotted _ _ _ _ _ _ _ H1 Hs),
      (ResolverFacts.locate_dotted _ _ _ _ _ _ _ H2 Hs).
  - intros m cname mod_ e Hs H1 Hm.
    unfold get_extension_class.
    rewrite (ResolverFacts.locate_dotted _ _ _ _ _ _ _ H1 Hs), Hm.
    now destruct (import_caught e).
  - intros md res default_module' Hs Hm Ha.
    unfold get_extension_class, locate, first_import.
    now rewrite Hm, Hs, Ha.
  - intros md c Hs Hm Ha Hc.
    unfold get_extension_class, locate, first_import. rewrite Hm, Hs, Ha.
    unfold bind, lift, ret, log_warning, py_issubclass. now rewrite Hc.
  - intros mod_ c Hs H1 Ha Hd.
    unfold get_extension_class, locate. rewrite H1, Hs, Ha, Hd.
    unfold bind, lift, ret, log_warning, py_issubclass.
    now destruct (issubclass_of env c base_class).
Qed.

End ResolverLayersFacts.

(** ** [Config.gadgets] *)

Module GadgetsFacts.
Import Py Extensions Gadgets Notions.

Section Builder.

Variable gadgets_module : module.

Let build_gadget := build_gadget gadgets_module.
Let gadgets_loop := gadgets_loop gadgets_module.
Let gadgets := gadgets gadgets_module.
Let declared := declared gadgets_module.
Let built := built gadgets_module.
Let unavailable := unavailable gadgets_module.

Lemma class_and_kw_declaration (g : pyval) (s : string) (kw : dict) :
  declaration g = Some (s, kw) -> class_and_kw g = Ok (PStr s, kw).
Proof.
  destruct g as [| | |s0|?|d|?|?]; try discriminate; cbn.
  - now intros [= <- <-].
  - destruct (dict_get (PStr "=") d) as [[| | |s0|?|?|?|?]|];
      try discriminate.
    now intros [= <- <-].
Qed.

Lemma build_gadget_declared (name g : pyval) (l : logs) :
  declared (name, g) = true ->
  build_gadget name g l
  = (Ok match built (name, g) with
        | y :: _ => Some y
        | [] => None
        end, l ++ unavailable (name, g)).
Proof.
  unfold declared, built, unavailable, Gadgets.declared, Gadgets.built,
    Gadgets.unavailable. cbn [fst snd].
  destruct (declaration g) as [[s kw]|] eqn:Ed; [|discriminate].
  unfold build_gadget, Gadgets.build_gadget.
  rewrite (class_and_kw_declaration g s kw Ed).
  unfold bind at 1, lift at 1. cbn [fst snd].
  destruct (Rules.keywords kw) as [k|e]; [|discriminate].
  destruct (getattr gadgets_module s) as [[| | | | | |c|]|];
    try discriminate; intros _.
  - unfold bind, lift, ret. now rewrite app_nil_r.
  - reflexivity.
Qed.

Lemma gadgets_loop_declared (primary : dict) (l : logs) :
  forallb declared primary = true ->
  gadgets_loop (Rules.items_of primary) l
  = ((flat_map built primary, None), l ++ flat_map unavailable primary).
Proof.
  revert l. induction primary as [|[name g] primary IH]; intros l H.
  - cbn. now rewrite app_nil_r.
  - cbn [forallb] in H. apply andb_prop in H. destruct H as [Hd H].
    unfold gadgets_loop in *.
    cbn [Rules.items_of map fst snd Gadgets.gadgets_loop].
    change (unpack2 (PList [name; g])) with (Ok (name, g)). cbv iota beta.
    fold build_gadget. rewrite (build_gadget_declared name g l Hd).
    fold (Rules.items_of primary). cbn [flat_map].
    assert (Hb : built (name, g) = []
                 \/ exists y, built (name, g) = [y]).
    { unfold built, Gadgets.built. cbn [fst snd].
      destruct (declaration g) as [[s kw]|]; [|now left].
      destruct (Rules.keywords kw) as [k|e]; [|now left].
      destruct (getattr gadgets_module s) as [[| | | | | |c|]|];
        try (now left). right. eauto. }
    destruct Hb as [Hb|[y Hb]]; rewrite Hb.
    + rewrite (IH _ H). now rewrite <- app_assoc.
    + rewrite (IH _ H). cbn [fst snd Rules.yield_then app].
      now rewrite <- app_assoc.
Qed.

Lemma gadgets_loop_app (xs1 xs2 : list pyval) (l : logs) :
  gadgets_loop (xs1 ++ xs2) l
  = match gadgets_loop xs1 l with
    | ((ys, None), l1) =>
        ((ys ++ fst (fst (gadgets_loop xs2 l1)),
          snd (fst (gadgets_loop xs2 l1))), snd (gadgets_loop xs2 l1))
    | r => r
    end.
Proof.
  revert l. induction xs1 as [|x xs1 IH]; intros l.
  - cbn. now destruct (gadgets_loop xs2 l) as [[ys r] l1].
  - unfold gadgets_loop in *. cbn [app Gadgets.gadgets_loop].
    destruct (unpack2 x) as [[name g]|e]; [|reflexivity].
    destruct (Gadgets.build_gadget gadgets_module name g l)
      as [[[y|]|e] l1]; [| |reflexivity].
    + rewrite IH.
      destruct (Gadgets.gadgets_loop gadgets_module xs1 l1)
        as [[ys [e|]] l2]; reflexivity.
    + apply IH.
Qed.

(** X23: let every gadget of the file's section be declared by the name
    of its class, or by a mapping with the name under [=] and keyword
    arguments with string keys, let what the module [tilenol.gadgets] has
    under these names be classes, and let the embedded data have no
    gadgets.  Then [gadgets] raises nothing; it yields, in the order of
    the section, one gadget for each declaration whose class the module
    has, under its name in the section; it leaves out each of the others
    with the one warning "Gadget %s is not available", and goes on with
    those after it.  The key [=] is not among the keyword arguments of a
    gadget. *)
Theorem gadgets_declared (primary data : dict) (l : logs) :
  forallb declared primary = true ->
  py_iter (dict_get_default (PStr "gadgets") (PDict []) data) = Ok [] ->
  gadgets (PDict primary) data l
  = ((flat_map built primary, None), l ++ flat_map unavailable primary)
  /\ ((forall name d, In (name, PDict d) primary -> unique_keys d = true) ->
      forall y, In y (flat_map built primary) ->
                assoc "=" (gadget_kw (snd y)) = None).
Proof.
  intros Hd Hdata. split.
  - unfold gadgets, Gadgets.gadgets. rewrite Hdata, app_nil_r.
    now apply gadgets_loop_declared.
  - intros Hu y Hy. apply in_flat_map in Hy.
    destruct Hy as ([name g] & Hin & Hy).
    unfold built, Gadgets.built in Hy. cbn [fst snd] in Hy.
    destruct (declaration g) as [[s kw]|] eqn:Ed; [|destruct Hy].
    destruct (Rules.keywords kw) as [k|e] eqn:Ek; [|destruct Hy].
    destruct (getattr gadgets_module s) as [[| | | | | |c|]|];
      try (now destruct Hy). destruct Hy as [<-|[]]. cbn [snd gadget_kw].
    rewrite (BarsFacts.keywords_assoc _ _ _ Ek).
    destruct g as [| | |s0|?|d|?|?]; try discriminate; cbn in Ed.
    + now injection Ed as _ <-.
    + destruct (dict_get (PStr "=") d) as [[| | |s0|?|?|?|?]|];
        try discriminate.
      injection Ed as _ <-.
      now rewrite (BarsMoreFacts.dict_get_del _ _ _ (Hu _ _ Hin)).
Qed.

(** X24: a section [gadgets] of the embedded data that is written as a
    mapping, the way the file's is, is not gone through pair by pair:
    [chain] hands on its keys.  When its first key is a string that is not
    two characters long, [gadgets] yields the gadgets of the file and then
    raises [ValueError], since [for name, gadget in] cannot unpack the
    key. *)
Theorem gadgets_embedded_mapping_unpacked (primary second data : dict)
  (s : string) (v : pyval) (ys : list (pyval * gadget)) (l l' : logs) :
  gadgets_loop (Rules.items_of primary) l = ((ys, None), l') ->
  dict_get (PStr "gadgets") data = Some (PDict ((PStr s, v) :: second)) ->
  List.length (chars s) <> 2 ->
  gadgets (PDict primary) data l = ((ys, Some ValueError), l').
Proof.
  intros Hp Hd Hs. unfold gadgets, Gadgets.gadgets, dict_get_default.
  rewrite Hd. cbn [py_iter map fst]. fold gadgets_loop.
  rewrite gadgets_loop_app, Hp.
  unfold gadgets_loop. cbn [Gadgets.gadgets_loop].
  assert (E : unpack2 (PStr s) = Raise ValueError).
  { rewrite CharsFacts.unpack2_string.
    destruct (chars s) as [|a [|b [|c rest]]]; try reflexivity.
    now destruct Hs. }
  rewrite E. cbn [fst snd]. now rewrite app_nil_r.
Qed.

End Builder.

(** X23 at work: a clock by its name, a gadget nobody provides, and a menu
    declared by a mapping. *)
Lemma gadgets_declared_witness :
  Gadgets.gadgets [("Clock", PClass "Clock"); ("Menu", PClass "Menu")]
    (PDict [ (PStr "clock", PStr "Clock");
             (PStr "pager", PStr "Pager");
             (PStr "menu", PDict [ (PStr "=", PStr "Menu");
                                   (PStr "title", PStr "run") ]) ]) [] []
  = (([ (PStr "clock", Gadget (PClass "Clock") []);
        (PStr "menu", Gadget (PClass "Menu") [("title", PStr "run")]) ],
      None),
     [Warning "Gadget %s is not available" [PStr "Pager"]]).
Proof.
  exact (proj1 (gadgets_declared
                  [("Clock", PClass "Clock"); ("Menu", PClass "Menu")]
                  [ (PStr "clock", PStr "Clock");
                    (PStr "pager", PStr "Pager");
                    (PStr "menu", PDict [ (PStr "=", PStr "Menu");
                                          (PStr "title", PStr "run") ]) ]
                  [] [] eq_refl eq_refl)).
Defined.

(** X24 at work: the same menu in the embedded data, after the clock of
    the file. *)
Lemma gadgets_embedded_mapping_unpacked_witness :
  Gadgets.gadgets [("Clock", PClass "Clock"); ("Menu", PClass "Menu")]
    (PDict [(PStr "clock", PStr "Clock")])
    [ (PStr "gadgets", PDict [(PStr "menu", PStr "Menu")]) ] []
  = (([(PStr "clock", Gadget (PClass "Clock") [])], Some ValueError), []).
Proof.
  refine (gadgets_embedded_mapping_unpacked
            [("Clock", PClass "Clock"); ("Menu", PClass "Menu")]
            [(PStr "clock", PStr "Clock")] []
            [ (PStr "gadgets", PDict [(PStr "menu", PStr "Menu")]) ]
            "menu" (PStr "Menu")
            [(PStr "clock", Gadget (PClass "Clock") [])] [] []
            eq_refl eq_refl _).
  vm_compute. discriminate.
Defined.

End GadgetsFacts.

(** ** [Tilenol.register_hotkeys] and [Config.keys] *)

Module HotkeysFacts.
Import Py Layouts Hotkeys.

Lemma keys_loop_app (d1 d2 : dict) :
  keys_loop (d1 ++ d2)
  = match keys_loop d1 with
    | (ys, None) => (ys ++ fst (keys_loop d2), snd (keys_loop d2))
    | r => r
    end.
Proof.
  induction d1 as [|[k v] d1 IH]; cbn [app keys_loop].
  - now destruct (keys_loop d2).
  - destruct (Gestures._command v) as [cmd|e]; [|reflexivity].
    rewrite IH. now destruct (keys_loop d1) as [ys [e|]].
Qed.

Lemma keys_loop_splits (d : dict) :
  forallb splits d = true ->
  keys_loop d = (map (fun kv => (fst kv, PList (words_of kv))) d, None).
Proof.
  induction d as [|[k v] d IH]; intros H; [reflexivity|].
  cbn [forallb] in H. apply andb_prop in H. destruct H as [Hs H].
  cbn [keys_loop map]. unfold splits, words_of in *. cbn [fst snd] in *.
  destruct (Gestures._command v) as [[| | | |ws| | |]|e]; try discriminate.
  now rewrite (IH H).
Qed.

Section Registry.

Variable callback : list pyval -> result pyval.
Variable add_key : pyval -> pyval -> option exn.
Variable register_keys : option exn.
Variable callback_of : list pyval -> pyval.

Let add_keys := add_keys callback add_key.
Let register_hotkeys := register_hotkeys callback add_key register_keys.

(** The commander makes a callback of any command, and the registry takes
    any key. *)
Hypothesis callback_returns : forall args, callback args = Ok (callback_of args).
Hypothesis add_key_returns : forall key cb, add_key key cb = None.

Lemma add_keys_splits (d : dict) (trace : list key_call) :
  add_keys (map (fun kv => (fst kv, PList (words_of kv))) d) trace
  = (trace ++ map (fun kv => AddKey (fst kv) (callback_of (words_of kv))) d,
     None).
Proof.
  revert trace. induction d as [|[k v] d IH]; intros trace.
  - cbn. now rewrite app_nil_r.
  - unfold add_keys in *. cbn [map Hotkeys.add_keys fst py_iter].
    rewrite callback_returns, add_key_returns, IH.
    now rewrite <- app_assoc.
Qed.

(** X25: hotkeys are registered all together or not at all.  With a
    commander that makes a callback of any command and a registry that
    takes any key: when [_command] makes a list of the command of every
    hotkey, [register_hotkeys] adds the hotkeys one by one in the order of
    the file, each with the callback of its words, and then calls
    [register_keys], once and last.  When the command of a hotkey is a
    string that [shlex.split] refuses, the hotkeys before it have been
    added, the exception of [shlex.split] leaves [register_hotkeys], and
    [register_keys] is not called. *)
Theorem register_hotkeys_all_or_none (pre post : dict) (key : pyval)
  (bad : string) (e : exn) :
  forallb splits pre = true ->
  (forallb splits post = true ->
   register_hotkeys (PDict (pre ++ post))
   = (map (fun kv => AddKey (fst kv) (callback_of (words_of kv)))
        (pre ++ post) ++ [RegisterKeys],
      register_keys))
  /\ (shlex_split bad = Raise e ->
      register_hotkeys (PDict (pre ++ (key, PStr bad) :: post))
      = (map (fun kv => AddKey (fst kv) (callback_of (words_of kv))) pre,
         Some e)).
Proof.
  intros Hpre. split.
  - intros Hpost.
    assert (H : forallb splits (pre ++ post) = true)
      by (rewrite forallb_app; now rewrite Hpre, Hpost).
    unfold register_hotkeys, Hotkeys.register_hotkeys, keys.
    rewrite (keys_loop_splits _ H). cbn [fst snd]. fold add_keys.
    now rewrite add_keys_splits.
  - intros Hbad.
    unfold register_hotkeys, Hotkeys.register_hotkeys, keys.
    rewrite keys_loop_app, (keys_loop_splits _ Hpre).
    cbn [keys_loop Gestures._command]. rewrite Hbad. cbn [rbind fst snd].
    rewrite app_nil_r. fold add_keys. now rewrite add_keys_splits.
Qed.

End Registry.

(** X25 at work: three hotkeys, the second with a quote left open. *)
Lemma register_hotkeys_all_or_none_witness :
  register_hotkeys (fun args => Ok (PList args)) (fun _ _ => None) None
    (PDict [ (PStr "<W-Return>", PStr "spawn xterm");
             (PStr "<W-q>", PStr "spawn 'xterm");
             (PStr "<W-x>", PList [PStr "quit"]) ])
  = ([AddKey (PStr "<W-Return>") (PList [PStr "spawn"; PStr "xterm"])],
     Some ValueError).
Proof.
  exact (proj2 (register_hotkeys_all_or_none (fun args => Ok (PList args))
                  (fun _ _ => None) None PList (fun _ => eq_refl)
                  (fun _ _ => eq_refl)
                  [(PStr "<W-Return>", PStr "spawn xterm")]
                  [(PStr "<W-x>", PList [PStr "quit"])]
                  (PStr "<W-q>") "spawn 'xterm" ValueError eq_refl)
           eq_refl).
Defined.

End HotkeysFacts.
